(** * jimeng-api: the asynchronous task controller and the URL extraction helper

    A shallow embedding of [src/api/controllers/async-tasks.ts], of the URL
    helper module it imports ([@/lib/image-utils.ts]) and of the handlers of
    [src/api/routes/async-tasks.ts] that create tasks.

    - Vendor data (typed [any] in the source) is a JSON [value].  Strings are
      their UTF-8 byte sequences.  Numbers are integers (status codes,
      timestamps, lengths), below 10^21 in absolute value where they are
      printed.  An object lists its fields in the order in which JavaScript
      enumerates them, each key once.  A property named in the source
      ([x.status], [x.item_list], ...) is read among the own properties: no
      prototype of a JSON value has one of these names.  A property whose
      name comes from the caller ([response[historyId]]) is read along the
      prototype chain as well.
    - The asynchronous functions are programs over the external collaborators
      (image upload, file and HTTP reads, the vendor request): a [prog] is a
      tree of calls, run against an arbitrary environment that answers every
      call with a value or with a raised error and may take into account
      everything that happened before.
    - Calls to the logger, fresh identifiers ([util.uuid]), the random seed
      and the clock carry no information used by the control flow and are
      left out of the programs.
    - Modules that the controller imports but that are not part of this
      development (region and model resolution, the payload builder) are the
      fields of the class [Imports]; every statement holds for all of them. *)

From Stdlib Require Import ZArith QArith List String Ascii Bool Lia DecimalString.
From stdpp Require Import base option list strings gmap.

Local Open Scope string_scope.
Local Open Scope list_scope.
Local Open Scope Z_scope.
Local Open Scope stdpp_scope.

(** ** JavaScript strings *)

Module Str.

(** The double quote character (code 34). *)
Definition dquote : ascii := "034"%char.

(** [s.startsWith(p)] *)
Definition startsWith (s p : string) : bool := String.prefix p s.

(** [s.includes(sub)] *)
Fixpoint includes (s sub : string) : bool :=
  String.prefix sub s
  || match s with
     | EmptyString => false
     | String _ rest => includes rest sub
     end.

(** What is left of [s] after its prefix [p], if [p] is a prefix of [s]. *)
Fixpoint strip_prefix (p s : string) : option string :=
  match p, s with
  | EmptyString, _ => Some s
  | String a p', String b s' => if Ascii.eqb a b then strip_prefix p' s' else None
  | String _ _, EmptyString => None
  end.

(** [s.replace(/\\u0026/g, '&')]: every occurrence of the six characters
    backslash, u, 0, 0, 2, 6 becomes an ampersand; the scan goes from left
    to right and resumes after each occurrence. *)
Fixpoint unescape_amp (s : string) : string :=
  match s with
  | String "\" (String "u" (String "0" (String "0" (String "2" (String "6" rest))))) =>
      String "&" (unescape_amp rest)
  | String c rest => String c (unescape_amp rest)
  | EmptyString => EmptyString
  end.

(** The vendor's escaped ampersand, backslash u 0 0 2 6. *)
Definition escaped_amp : string := "\u0026".

(** [sub] occurs in [s] at some position. *)
Definition occurs (sub s : string) : Prop :=
  exists pre post, s = pre +:+ sub +:+ post.

(** Number of UTF-16 code units of a string given by its UTF-8 bytes: one
    per character, two for a character encoded on four bytes. *)
Fixpoint utf16_length (s : string) : nat :=
  match s with
  | EmptyString => O
  | String c rest =>
      let n := nat_of_ascii c in
      ((if (n <? 128)%nat then 1 else if (n <? 192)%nat then 0
        else if (n <? 240)%nat then 1 else 2) + utf16_length rest)%nat
  end.

(** Bytes of the character that starts a string (its first byte and the
    continuation bytes that follow). *)
Fixpoint continuation (s : string) : string :=
  match s with
  | String c rest =>
      let n := nat_of_ascii c in
      if ((128 <=? n) && (n <? 192))%nat then String c (continuation rest)
      else EmptyString
  | EmptyString => EmptyString
  end.

Fixpoint drop_continuation (s : string) : string :=
  match s with
  | String c rest =>
      let n := nat_of_ascii c in
      if ((128 <=? n) && (n <? 192))%nat then drop_continuation rest else s
  | EmptyString => EmptyString
  end.

(** [s[i]]: the character holding code unit [i] ([None] past the end). *)
Fixpoint char_at (fuel : nat) (s : string) (i : nat) : option string :=
  match fuel, s with
  | S fuel', String c rest =>
      let width := if (nat_of_ascii c <? 240)%nat then 1%nat else 2%nat in
      if (i <? width)%nat then Some (String c (continuation rest))
      else char_at fuel' (drop_continuation rest) (i - width)
  | _, _ => None
  end.

Definition string_of_nat (n : nat) : string :=
  NilZero.string_of_uint (Nat.to_uint n).

Definition string_of_Z (z : Z) : string :=
  NilZero.string_of_int (Z.to_int z).

(** A property key that is a canonical array index (0, 1, 2, ... in
    decimal, without leading zeros). *)
Definition index_of_key (k : string) : option nat :=
  match NilEmpty.uint_of_string k with
  | Some u =>
      let n := Nat.of_uint u in
      if String.eqb (string_of_nat n) k then Some n else None
  | None => None
  end.

End Str.

(** ** JSON values as JavaScript sees them *)

#[warnings="-register-all"]
Inductive value : Type :=
| VUndefined
| VNull
| VBool (b : bool)
| VNum (n : Z)
| VStr (s : string)
| VArr (items : list value)
| VObj (fields : list (string * value)).

Module Js.

(** [!!v] *)
Definition truthy (v : value) : bool :=
  match v with
  | VUndefined | VNull => false
  | VBool b => b
  | VNum n => negb (n =? 0)
  | VStr s => negb (String.eqb s "")
  | VArr _ | VObj _ => true
  end.

Definition nullish (v : value) : bool :=
  match v with
  | VUndefined | VNull => true
  | _ => false
  end.

(** [a || b] *)
Definition or_else (a b : value) : value := if truthy a then a else b.

(** First field of an object with the given key. *)
Fixpoint assoc (k : string) (fields : list (string * value)) : value :=
  match fields with
  | [] => VUndefined
  | (k', v) :: rest => if String.eqb k' k then v else assoc k rest
  end.

(** [v[i]] for a numeric index. *)
Definition get_index (v : value) (i : nat) : value :=
  match v with
  | VArr items => nth i items VUndefined
  | VStr s =>
      match Str.char_at (String.length s) s i with
      | Some c => VStr c
      | None => VUndefined
      end
  | VObj fields => assoc (Str.string_of_nat i) fields
  | _ => VUndefined
  end.

(** [v[k]] / [v.k] on a value that is neither [null] nor [undefined]. *)
Definition get_prop (v : value) (k : string) : value :=
  match v with
  | VObj fields => assoc k fields
  | VArr items =>
      if String.eqb k "length" then VNum (Z.of_nat (length items))
      else match Str.index_of_key k with
           | Some i => nth i items VUndefined
           | None => VUndefined
           end
  | VStr s =>
      if String.eqb k "length" then VNum (Z.of_nat (Str.utf16_length s))
      else match Str.index_of_key k with
           | Some i => get_index v i
           | None => VUndefined
           end
  | _ => VUndefined
  end.

(** [v?.k] *)
Definition opt_prop (v : value) (k : string) : value :=
  if nullish v then VUndefined else get_prop v k.

(** [v?.[i]] *)
Definition opt_index (v : value) (i : nat) : value :=
  if nullish v then VUndefined else get_index v i.

(** [v === n] for a number literal [n]. *)
Definition is_num (v : value) (n : Z) : bool :=
  match v with
  | VNum m => m =? n
  | _ => false
  end.

(** [typeof v === 'object'] *)
Definition typeof_object (v : value) : bool :=
  match v with
  | VNull | VArr _ | VObj _ => true
  | _ => false
  end.

(** [Object.keys(v)] for an object or an array. *)
Definition keys (v : value) : list string :=
  match v with
  | VObj fields => map fst fields
  | VArr items => map Str.string_of_nat (seq 0 (length items))
  | _ => []
  end.

(** [Object.hasOwn(v, k)]: the fields of an object, the indices and the
    length of an array or of a string. *)
Definition has_own (v : value) (k : string) : bool :=
  match v with
  | VObj fields => existsb (fun kv => String.eqb (fst kv) k) fields
  | VArr items =>
      String.eqb k "length"
      || match Str.index_of_key k with
         | Some i => (i <? length items)%nat
         | None => false
         end
  | VStr s =>
      String.eqb k "length"
      || match Str.index_of_key k with
         | Some i =>
             match Str.char_at (String.length s) s i with
             | Some _ => true
             | None => false
             end
         | None => false
         end
  | _ => false
  end.

(** The string keys of [Object.prototype], the end of the prototype chain
    of every object, array and primitive: each holds a built-in function,
    and [__proto__] the prototype object of the value. *)
Definition object_prototype_keys : list string :=
  ["constructor"; "__defineGetter__"; "__defineSetter__"; "hasOwnProperty";
   "__lookupGetter__"; "__lookupSetter__"; "isPrototypeOf"; "propertyIsEnumerable";
   "toString"; "valueOf"; "__proto__"; "toLocaleString"].

End Js.

(** What [v[k]] yields when the key is only known at run time: the own
    property of [v] ([undefined] when [v] has no such property at all), or
    the built-in that the prototype chain of [receiver] holds under [key],
    a function or a prototype object. *)
Inductive looked_up : Type :=
| Data (v : value)
| Builtin (receiver : value) (key : string).

Coercion Data : value >-> looked_up.

(** ** [JSON.stringify] and the CDN pattern of the video status query *)

Module Json.

Definition hex_digit (n : nat) : ascii :=
  nth n (list_ascii_of_string "0123456789abcdef") "0"%char.

(** One character of a string literal, as [JSON.stringify] writes it. *)
Definition escape_char (c : ascii) : string :=
  let n := nat_of_ascii c in
  if Ascii.eqb c Str.dquote then String "\" (String Str.dquote EmptyString)
  else if Ascii.eqb c "\" then "\\"
  else if (n =? 8)%nat then "\b"
  else if (n =? 9)%nat then "\t"
  else if (n =? 10)%nat then "\n"
  else if (n =? 12)%nat then "\f"
  else if (n =? 13)%nat then "\r"
  else if (n <? 32)%nat then
    "\u00" +:+ String (hex_digit (n / 16)) (String (hex_digit (n mod 16)) EmptyString)
  else String c EmptyString.

Fixpoint escape (s : string) : string :=
  match s with
  | EmptyString => EmptyString
  | String c rest => escape_char c +:+ escape rest
  end.

Definition quote (s : string) : string :=
  String Str.dquote (escape s +:+ String Str.dquote EmptyString).

Fixpoint join (sep : string) (parts : list string) : string :=
  match parts with
  | [] => EmptyString
  | [p] => p
  | p :: rest => p +:+ sep +:+ join sep rest
  end.

(** [JSON.stringify(v)]; [None] is the [undefined] it returns for
    [undefined].  In an array [undefined] is written [null], in an object a
    field holding [undefined] is left out. *)
Fixpoint stringify (v : value) : option string :=
  match v with
  | VUndefined => None
  | VNull => Some "null"
  | VBool b => Some (if b then "true" else "false")
  | VNum n => Some (Str.string_of_Z n)
  | VStr s => Some (quote s)
  | VArr items =>
      Some ("[" +:+ join "," (map (fun x => default "null" (stringify x)) items) +:+ "]")
  | VObj fields =>
      Some ("{" +:+ join ","
              (omap (fun kv => (fun t => quote (fst kv) +:+ ":" +:+ t) <$> stringify (snd kv))
                    fields) +:+ "}")
  end.

End Json.

(** The pattern that [queryVideoTaskStatus] runs over the serialized
    response: https://v, one or more digits, -artist.vlabvod.com/, then one
    or more characters that are neither a double quote nor white space. *)
Module Pattern.

Definition is_digit (c : ascii) : bool :=
  let n := nat_of_ascii c in ((48 <=? n) && (n <=? 57))%nat.

(** Width in bytes of the white space character ([\s]) that starts [s], 0
    when [s] does not start with one: tab to carriage return, space, and
    the UTF-8 forms of U+00A0, U+1680, U+2000 to U+200A, U+2028, U+2029,
    U+202F, U+205F, U+3000 and U+FEFF. *)
Definition space_width (s : string) : nat :=
  match s with
  | EmptyString => 0
  | String a r1 =>
      let x := nat_of_ascii a in
      if (((9 <=? x) && (x <=? 13)) || (x =? 32))%nat then 1
      else
        match r1 with
        | EmptyString => 0
        | String b r2 =>
            let y := nat_of_ascii b in
            if ((x =? 194) && (y =? 160))%nat then 2
            else
              match r2 with
              | EmptyString => 0
              | String c _ =>
                  let z := nat_of_ascii c in
                  if ((x =? 225) && (y =? 154) && (z =? 128))%nat then 3
                  else if ((x =? 226) && (y =? 128)
                           && (((128 <=? z) && (z <=? 138))
                               || (z =? 168) || (z =? 169) || (z =? 175)))%nat then 3
                  else if ((x =? 226) && (y =? 129) && (z =? 159))%nat then 3
                  else if ((x =? 227) && (y =? 128) && (z =? 128))%nat then 3
                  else if ((x =? 239) && (y =? 187) && (z =? 191))%nat then 3
                  else 0
              end
        end
  end%nat.

(** Longest prefix matching [[0-9]*], and what follows it. *)
Fixpoint digits (s : string) : string * string :=
  match s with
  | String c rest =>
      if is_digit c then let (d, r) := digits rest in (String c d, r)
      else (EmptyString, s)
  | EmptyString => (EmptyString, EmptyString)
  end.

(** Longest prefix free of double quotes and white space. *)
Fixpoint url_tail (s : string) : string :=
  match s with
  | String c rest =>
      if Ascii.eqb c Str.dquote || (0 <? space_width s)%nat then EmptyString
      else String c (url_tail rest)
  | EmptyString => EmptyString
  end.

(** The match that starts at the first character of [s], if any.  Both
    repetitions are greedy; neither can give characters back, since what
    follows the digits is a dash and nothing follows the tail. *)
Definition match_here (s : string) : option string :=
  r1 ← Str.strip_prefix "https://v" s;
  let (d, r2) := digits r1 in
  if String.eqb d "" then None
  else
    r3 ← Str.strip_prefix "-artist.vlabvod.com/" r2;
    let t := url_tail r3 in
    if String.eqb t "" then None
    else Some ("https://v" +:+ d +:+ "-artist.vlabvod.com/" +:+ t).

(** [s.match(pattern)]: the leftmost match. *)
Fixpoint search (s : string) : option string :=
  match match_here s with
  | Some m => Some m
  | None =>
      match s with
      | String _ rest => search rest
      | EmptyString => None
      end
  end.

End Pattern.

(** ** Errors *)

(** The two constants of [@/api/consts/exceptions.ts] that the controller
    raises with. *)
Inductive ex_code : Type := API_REQUEST_FAILED | API_IMAGE_GENERATION_FAILED.

Inductive exn : Type :=
| APIException (code : ex_code) (message : string)
| Error (message : string)
| TypeError (what : string).

Definition message (e : exn) : string :=
  match e with
  | APIException _ m | Error m | TypeError m => m
  end.

Inductive outcome (A : Type) : Type :=
| Returned (a : A)
| Raised (e : exn).
Arguments Returned {A} a.
Arguments Raised {A} e.

(** ** The URL helper module ([@/lib/image-utils.ts]) *)

Module ImageUtils.
Import Js.

(** [x.replace(/\\u0026/g, '&')] on a value already known to be truthy:
    only a string has the method. *)
Definition replace_amp (x : value) : outcome string :=
  match x with
  | VStr s => Returned (Str.unescape_amp s)
  | _ => Raised (TypeError "replace is not a function")
  end.

(** [item?.image?.large_images?.[0]?.image_url] *)
Definition large_image_url (item : value) : value :=
  opt_prop (opt_index (opt_prop (opt_prop item "image") "large_images") 0) "image_url".

Definition extractImageUrl (item : value) : outcome (option string) :=
  if truthy (large_image_url item) then
    match replace_amp (large_image_url item) with
    | Returned u => Returned (Some u)
    | Raised e => Raised e
    end
  else Returned None.

(** [itemList.map(extractImageUrl).filter(url => url !== null)] on an
    array; [map] stops at the first item that raises. *)
Fixpoint extractImageUrls_items (items : list value) : outcome (list string) :=
  match items with
  | [] => Returned []
  | item :: rest =>
      match extractImageUrl item with
      | Raised e => Raised e
      | Returned u =>
          match extractImageUrls_items rest with
          | Raised e => Raised e
          | Returned us =>
              Returned (match u with Some s => s :: us | None => us end)
          end
      end
  end.

Definition extractImageUrls (itemList : value) : outcome (list string) :=
  match itemList with
  | VArr items => extractImageUrls_items items
  | _ => Raised (TypeError "itemList.map is not a function")
  end.

Definition extractVideoUrl (item : value) : value :=
  let video := opt_prop item "video" in
  let origin :=
    opt_prop (opt_prop (opt_prop video "transcoded_video") "origin") "video_url" in
  if truthy origin then origin
  else if truthy (opt_prop video "play_url") then opt_prop video "play_url"
  else if truthy (opt_prop video "download_url") then opt_prop video "download_url"
  else if truthy (opt_prop video "url") then opt_prop video "url"
  else VNull.

End ImageUtils.

(** All four flavours of one image, as [extractImageUrlInfo] returns them. *)
Record ImageUrlInfo : Type := mkImageUrlInfo {
  png : option string;
  webp : option string;
  webp_long : option string;
  webp_sizes : gmap string string
}.

Module ImageUrlInfoOf.
Import Js ImageUtils.

Definition normalSizeKeys : list string := ["2400"; "1080"; "720"; "480"; "360"].

(** [item?.common_attr?.cover_url] *)
Definition cover_url (item : value) : value :=
  opt_prop (opt_prop item "common_attr") "cover_url".

(** [item?.common_attr?.cover_url_map] *)
Definition cover_url_map (item : value) : value :=
  opt_prop (opt_prop item "common_attr") "cover_url_map".

(** The loop over [Object.keys(coverMap)] filling [info.webp_sizes].  The
    assignment [info.webp_sizes[key] = u] adds the entry, except under the
    key [__proto__]: there it calls the setter of [Object.prototype], which
    ignores a string and leaves the object as it is. *)
Fixpoint collect_sizes (coverMap : value) (keys : list string)
    (sizes : gmap string string) : outcome (gmap string string) :=
  match keys with
  | [] => Returned sizes
  | key :: rest =>
      if truthy (get_prop coverMap key) then
        match replace_amp (get_prop coverMap key) with
        | Returned u =>
            collect_sizes coverMap rest
              (if String.eqb key "__proto__" then sizes else <[key := u]> sizes)
        | Raised e => Raised e
        end
      else collect_sizes coverMap rest sizes
  end.

(** The loop over [normalSizeKeys] with its [break]. *)
Fixpoint pick_long (sizes : gmap string string) (keys : list string) : option string :=
  match keys with
  | [] => None
  | sizeKey :: rest =>
      match sizes !! sizeKey with
      | Some u => if truthy (VStr u) then Some u else pick_long sizes rest
      | None => pick_long sizes rest
      end
  end.

(** An optional field that is un-escaped when it is truthy. *)
Definition flavour (x : value) : outcome (option string) :=
  if truthy x then
    match replace_amp x with
    | Returned u => Returned (Some u)
    | Raised e => Raised e
    end
  else Returned None.

Definition extractImageUrlInfo (item : value) : outcome ImageUrlInfo :=
  match flavour (large_image_url item) with
  | Raised e => Raised e
  | Returned the_png =>
      match flavour (cover_url item) with
      | Raised e => Raised e
      | Returned the_webp =>
          let coverMap := cover_url_map item in
          if truthy coverMap && typeof_object coverMap then
            match collect_sizes coverMap (keys coverMap) ∅ with
            | Raised e => Raised e
            | Returned sizes =>
                Returned (mkImageUrlInfo the_png the_webp
                            (pick_long sizes normalSizeKeys) sizes)
            end
          else Returned (mkImageUrlInfo the_png the_webp None ∅)
      end
  end.

End ImageUrlInfoOf.

(** ** Collaborators that are not part of the controller *)

(** Modelled from the spec: [RegionInfo] of [./core.ts], the classification of
    a credential as domestic or international; [marker] stands for whatever
    else the classification records. *)
Record RegionInfo : Type := mkRegionInfo {
  isInternational : bool;
  marker : string
}.

(** Modelled from the spec: the result of [resolveResolution] of the payload
    builder, concrete pixel dimensions and a resolution-type tag. *)
Record ResolutionSpec : Type := mkResolutionSpec {
  width : Z;
  height : Z;
  resolutionType : string
}.

(** What travels under the type [Buffer]: the bytes of a file or of a
    download, or, since the composition route hands on the [url] field of an
    object without looking at its type, any other value. *)
Inductive Buffer : Type :=
| Bytes (data : list Byte.byte)
| Unchecked (v : value).

(** An image handed to [createImageCompositionTask]: [string | Buffer]. *)
Inductive image_input : Type :=
| ImageUrl (url : string)
| ImageBuffer (data : Buffer).

(** A file of a multipart request ([file.originalFilename], [file.filepath]). *)
Record uploaded_file : Type := mkFile {
  originalFilename : string;
  filepath : string
}.

Inductive image_mode : Type := text2img | img2img.

(** What the image tasks hand to the payload builder and so to the vendor;
    [imageIds] is [uploadedImageIds], empty for a text task. *)
Record image_request : Type := mkImageRequest {
  ir_model : string;
  ir_userModel : string;
  ir_prompt : string;
  ir_negativePrompt : string;
  ir_sampleStrength : Q;
  ir_resolution : ResolutionSpec;
  ir_intelligentRatio : bool;
  ir_mode : image_mode;
  ir_imageIds : list string;
  ir_region : RegionInfo
}.

(** The fields of the video request that the controller computes. *)
Record video_request : Type := mkVideoRequest {
  vr_model : string;
  vr_benefit_type : string;
  vr_prompt : string;
  vr_duration_ms : Z;
  vr_videoDuration : Z;
  vr_resolution : option string;
  vr_ratio : string;
  vr_first_frame_image : option string;
  vr_end_frame_image : option string;
  vr_region : RegionInfo
}.

Inductive request_data : Type :=
| GenerateImage (r : image_request)
| GenerateVideo (r : video_request)
| HistoryByIds (history_ids : list string) (with_image_info : bool).

(** Answer of [axios.get(url, {responseType: 'arraybuffer'})]. *)
Record http_response : Type := mkHttpResponse {
  http_status : Z;
  http_data : Buffer
}.

(** The calls that leave the controller. *)
Inductive call : Type -> Type :=
| UploadImageFromUrl (url refreshToken : string) (region : RegionInfo) : call string
| UploadImageBuffer (data : Buffer) (refreshToken : string) (region : RegionInfo) : call string
| ReadFile (path : string) : call Buffer
| ReadFileSync (path : string) : call Buffer
| Access (path : string) : call unit
| AxiosGet (url : string) : call http_response
| Request (method path refreshToken : string) (data : request_data) : call value.

(** ** Programs over the collaborators *)

Inductive prog (A : Type) : Type :=
| Ret (a : A)
| Throw (e : exn)
| Do {X : Type} (c : call X) (k : outcome X -> prog A).
Arguments Ret {A} a.
Arguments Throw {A} e.
Arguments Do {A X} c k.

Fixpoint bind {A B} (p : prog A) (f : A -> prog B) : prog B :=
  match p with
  | Ret a => f a
  | Throw e => Throw e
  | Do c k => Do c (fun r => bind (k r) f)
  end.

(** [try { p } catch (error) { handler error }] *)
Fixpoint try_catch {A} (p : prog A) (handler : exn -> prog A) : prog A :=
  match p with
  | Ret a => Ret a
  | Throw e => handler e
  | Do c k => Do c (fun r => try_catch (k r) handler)
  end.

(** [await c] *)
Definition await {X} (c : call X) : prog X :=
  Do c (fun r => match r with Returned x => Ret x | Raised e => Throw e end).

(** A synchronous computation that may throw. *)
Definition lift {A} (o : outcome A) : prog A :=
  match o with Returned a => Ret a | Raised e => Throw e end.

#[global] Instance prog_ret : MRet prog := @Ret.
#[global] Instance prog_bind : MBind prog := fun A B f p => bind p f.

(** One call together with the answer it got. *)
Inductive event : Type :=
| Event {X : Type} (c : call X) (r : outcome X).

(** An environment answers a call knowing everything that happened before. *)
Definition env : Type := forall X, list event -> call X -> outcome X.

Fixpoint run {A} (world : env) (past : list event) (p : prog A) : list event * outcome A :=
  match p with
  | Ret a => (past, Returned a)
  | Throw e => (past, Raised e)
  | Do c k =>
      let r := world _ past c in
      run world (past ++ [Event c r]) (k r)
  end.

(** The events that are image uploads, and the calls that are vendor
    requests. *)
Definition is_upload (e : event) : bool :=
  match e with
  | Event (UploadImageFromUrl _ _ _) _ | Event (UploadImageBuffer _ _ _) _ => true
  | Event _ _ => false
  end.

Definition is_request_call {X} (c : call X) : bool :=
  match c with
  | Request _ _ _ _ => true
  | _ => false
  end.

(** A program that never calls the vendor's request endpoint. *)
Fixpoint no_request {A} (p : prog A) : Prop :=
  match p with
  | Ret _ | Throw _ => True
  | Do c k => is_request_call c = false /\ forall r, no_request (k r)
  end.

(** The payloads of the vendor requests of a trace, in order. *)
Definition request_of (e : event) : option request_data :=
  match e with
  | Event (Request _ _ _ data) _ => Some data
  | Event _ _ => None
  end.

Definition requests (trace : list event) : list request_data := omap request_of trace.

#[global] Instance outcome_ret : MRet outcome := @Returned.
#[global] Instance outcome_bind : MBind outcome := fun A B f o =>
  match o with
  | Returned a => f a
  | Raised e => Raised e
  end.

Definition trace_of {A} (r : list event * outcome A) : list event := fst r.
Definition outcome_of {A} (r : list event * outcome A) : outcome A := snd r.

(** Functions the controller imports from modules that are not part of this
    development.  Each is an arbitrary function that may throw;
    [coerced_gt_zero v] is the comparison [v > 0] of the language for a
    string, an array or an object [v], which first converts [v] to a
    number.  [prototype_defines v k] tells whether the prototypes of an
    array, a string, a number or a boolean [v] that come before
    [Object.prototype] define the key [k] ([map], [push], [toFixed], ...):
    that set depends on the edition of the language the engine
    implements. *)
Class Imports : Type := {
  parseRegionFromToken : string -> outcome RegionInfo;
  getImageModel : string -> bool -> outcome (string * string);
  getVideoModel : string -> RegionInfo -> outcome string;
  resolveResolution : string -> RegionInfo -> string -> string -> outcome ResolutionSpec;
  coerced_gt_zero : value -> outcome bool;
  prototype_defines : value -> string -> bool;
  (** used by the routes only: the default models, the choice of a token
      among those of the authorization header ([_.sample(tokenSplit(..))]),
      the error [request.validate] raises for a key, and the two number
      parsers of the language ([None] is [NaN]) *)
  DEFAULT_IMAGE_MODEL : string;
  DEFAULT_VIDEO_MODEL : string;
  pick_token : value -> outcome string;
  invalid_params : string -> exn;
  parseFloat : string -> option Q;
  parseInt : string -> option Z
}.

(** ** The controller, [src/api/controllers/async-tasks.ts] *)

Module Controller.
Import Js.

Record image_options : Type := mkImageOptions {
  io_ratio : option string;
  io_resolution : option string;
  io_sampleStrength : option Q;
  io_negativePrompt : option string;
  io_intelligentRatio : option bool
}.

Record video_options : Type := mkVideoOptions {
  vo_ratio : option string;
  vo_resolution : option string;
  vo_duration : option Z;
  vo_filePaths : option (list value);
  vo_files : option (list (option uploaded_file))
}.

Record image_task_status : Type := mkImageTaskStatus {
  its_history_id : string;
  its_task_type : string;
  its_status : value;
  its_fail_code : value;
  its_item_count : value;
  its_results : option (list string);
  its_raw_data : looked_up
}.

Record video_task_status : Type := mkVideoTaskStatus {
  status : string;
  statusCode : value;
  failCode : value;
  videoUrl : value;
  finishTime : value;
  rawData : looked_up
}.

Definition generate_path : string := "/mweb/v1/aigc_draft/generate".
Definition history_path : string := "/mweb/v1/get_history_by_ids".

(** [v.k]: reading a property of [null] or [undefined] throws. *)
Definition member (v : value) (k : string) : outcome value :=
  if nullish v then Raised (TypeError "Cannot read properties of null or undefined")
  else Returned (get_prop v k).

(** [!!record] for what a lookup yielded: a built-in is a function or an
    object. *)
Definition record_truthy (record : looked_up) : bool :=
  match record with
  | Data v => truthy v
  | Builtin _ _ => true
  end.

(** [record.k] for the fields that the status queries read of a record
    ([status], [fail_code], [task], [item_list]): no built-in function and
    no prototype object has one of them. *)
Definition record_field (record : looked_up) (k : string) : value :=
  match record with
  | Data v => get_prop v k
  | Builtin _ _ => VUndefined
  end.

(** [const { aigc_data } = response] *)
Definition destructure_aigc_data (response : value) : outcome value :=
  if nullish response then Raised (TypeError "Cannot destructure property aigc_data")
  else Returned (get_prop response "aigc_data").

(** The tail shared by the two image tasks:
    [aigc_data?.history_record_id], then the check of the id. *)
Definition history_id_of (response : value) : outcome value :=
  aigc_data ← destructure_aigc_data response;
  let historyId := opt_prop aigc_data "history_record_id" in
  if negb (truthy historyId) then
    Raised (APIException API_IMAGE_GENERATION_FAILED "记录ID不存在")
  else Returned historyId.

(** The tail of the video task: [aigc_data.history_record_id], without the
    optional chaining. *)
Definition video_history_id_of (response : value) : outcome value :=
  aigc_data ← destructure_aigc_data response;
  historyId ← member aigc_data "history_record_id";
  if negb (truthy historyId) then
    Raised (APIException API_IMAGE_GENERATION_FAILED "记录ID不存在")
  else Returned historyId.

(** *** Duration, resolution support and benefit type of a video model *)

(** [(durationMs, actualDuration)] *)
Definition video_duration (model : string) (duration : Z) : Z * Z :=
  let isVeo3 := Str.includes model "veo3" in
  let isSora2 := Str.includes model "sora2" in
  let is35Pro := Str.includes model "3.5_pro" in
  if isVeo3 then (8000, 8)
  else if isSora2 then
    if duration =? 12 then (12000, 12)
    else if duration =? 8 then (8000, 8)
    else (4000, 4)
  else if is35Pro then
    if duration =? 12 then (12000, 12)
    else if duration =? 10 then (10000, 10)
    else (5000, 5)
  else (if duration =? 10 then 10000 else 5000, if duration =? 10 then 10 else 5).

Definition supportsResolution (model : string) : bool :=
  (Str.includes model "vgfm_3.0" || Str.includes model "vgfm_3.0_fast")
  && negb (Str.includes model "_pro").

Definition getVideoBenefitType (model : string) : string :=
  if Str.includes model "veo3.1" then "generate_video_veo3.1"
  else if Str.includes model "veo3" then "generate_video_veo3"
  else if Str.includes model "sora2" then "generate_video_sora2"
  else if Str.includes model "3.5_pro" then "dreamina_video_seedance_15_pro"
  else if Str.includes model "3.5" then "dreamina_video_seedance_15"
  else "basic_video_operation_vgfm_v_three".

(** [uploadIDs[i]] when it is truthy. *)
Definition frame (uploadIDs : list string) (i : nat) : option string :=
  match uploadIDs !! i with
  | Some id => if truthy (VStr id) then Some id else None
  | None => None
  end.

Definition first_frame_image (uploadIDs : list string) : option string :=
  if (0 <? length uploadIDs)%nat then frame uploadIDs 0 else None.

Definition end_frame_image (uploadIDs : list string) : option string :=
  if (0 <? length uploadIDs)%nat then frame uploadIDs 1 else None.

Section WithImports.
Context `{Imports}.

(** *** Text to image *)

Definition createImageGenerationTask (_model prompt : string)
    (options : image_options) (refreshToken : string) : prog value :=
  let ratio := default "1:1" (io_ratio options) in
  let resolution := default "2k" (io_resolution options) in
  let sampleStrength := default (1 # 2)%Q (io_sampleStrength options) in
  let negativePrompt := default "" (io_negativePrompt options) in
  let intelligentRatio := default false (io_intelligentRatio options) in
  regionInfo ← lift (parseRegionFromToken refreshToken);
  names ← lift (getImageModel _model (isInternational regionInfo));
  let model := fst names in
  let userModel := snd names in
  resolutionResult ← lift (resolveResolution userModel regionInfo resolution ratio);
  response ← await (Request "post" generate_path refreshToken
                      (GenerateImage
                         (mkImageRequest model userModel prompt negativePrompt
                            sampleStrength resolutionResult intelligentRatio
                            text2img [] regionInfo)));
  lift (history_id_of response).

(** *** Image composition *)

Definition upload_of (image : image_input) (refreshToken : string)
    (regionInfo : RegionInfo) : call string :=
  match image with
  | ImageUrl url => UploadImageFromUrl url refreshToken regionInfo
  | ImageBuffer data => UploadImageBuffer data refreshToken regionInfo
  end.

(** The upload loop; [uploadedImageIds] is the list built so far. *)
Fixpoint upload_images (refreshToken : string) (regionInfo : RegionInfo)
    (images : list image_input) (uploadedImageIds : list string) : prog (list string) :=
  match images with
  | [] => Ret uploadedImageIds
  | image :: rest =>
      imageId ← try_catch
        (await (upload_of image refreshToken regionInfo))
        (fun error =>
           Throw (APIException API_IMAGE_GENERATION_FAILED
                    ("图片上传失败: " +:+ message error)));
      upload_images refreshToken regionInfo rest (uploadedImageIds ++ [imageId])
  end.

(** The events of uploads that all succeeded: image number [i] answered
    with asset id number [i]. *)
Definition uploaded (refreshToken : string) (regionInfo : RegionInfo)
    (images : list image_input) (ids : list string) : list event :=
  zip_with (fun image id => Event (upload_of image refreshToken regionInfo) (Returned id))
    images ids.

Definition createImageCompositionTask (_model prompt : string)
    (images : list image_input) (options : image_options)
    (refreshToken : string) : prog value :=
  let ratio := default "1:1" (io_ratio options) in
  let resolution := default "2k" (io_resolution options) in
  let sampleStrength := default (1 # 2)%Q (io_sampleStrength options) in
  let negativePrompt := default "" (io_negativePrompt options) in
  let intelligentRatio := default false (io_intelligentRatio options) in
  regionInfo ← lift (parseRegionFromToken refreshToken);
  names ← lift (getImageModel _model (isInternational regionInfo));
  let model := fst names in
  let userModel := snd names in
  resolutionResult ← lift (resolveResolution userModel regionInfo resolution ratio);
  uploadedImageIds ← upload_images refreshToken regionInfo images [];
  response ← await (Request "post" generate_path refreshToken
                      (GenerateImage
                         (mkImageRequest model userModel prompt negativePrompt
                            sampleStrength resolutionResult intelligentRatio
                            img2img uploadedImageIds regionInfo)));
  lift (history_id_of response).

(** *** Video *)

(** The three upload helpers log and rethrow what they catch. *)
Definition uploadImageFromFile (file : uploaded_file) (refreshToken : string)
    (regionInfo : RegionInfo) : prog string :=
  try_catch
    (imageBuffer ← await (ReadFile (filepath file));
     await (UploadImageBuffer imageBuffer refreshToken regionInfo))
    (fun error => Throw error).

Definition uploadVideoImageFromUrl (imageUrl refreshToken : string)
    (regionInfo : RegionInfo) : prog string :=
  try_catch
    (imageResponse ← await (AxiosGet imageUrl);
     if (http_status imageResponse <? 200) || (300 <=? http_status imageResponse) then
       Throw (Error ("下载图片失败: " +:+ Str.string_of_Z (http_status imageResponse)))
     else await (UploadImageBuffer (http_data imageResponse) refreshToken regionInfo))
    (fun error => Throw error).

Definition uploadVideoImageFromLocalPath (localPath refreshToken : string)
    (regionInfo : RegionInfo) : prog string :=
  try_catch
    (imageBuffer ← await (ReadFile localPath);
     await (UploadImageBuffer imageBuffer refreshToken regionInfo))
    (fun error => Throw error).

Definition isLocalFilePath (filePath : string) : prog bool :=
  if negb (Str.startsWith filePath "/") then Ret false
  else try_catch (_ ← await (Access filePath); Ret true) (fun _ => Ret false).

(** [if (imageUri) uploadIDs.push(imageUri)] *)
Definition push_if_truthy (uploadIDs : list string) (imageUri : string) : list string :=
  if truthy (VStr imageUri) then uploadIDs ++ [imageUri] else uploadIDs.

(** The [catch] of both video loops: fatal at index 0 only. *)
Definition first_frame_only (i : nat) (uploadIDs : list string) (error : exn)
    : prog (list string) :=
  if (i =? 0)%nat then
    Throw (APIException API_REQUEST_FAILED ("首帧图片上传失败: " +:+ message error))
  else Ret uploadIDs.

(** The loop over [_.values(files)], from index [i] on. *)
Fixpoint upload_files (refreshToken : string) (regionInfo : RegionInfo) (i : nat)
    (uploadedFiles : list (option uploaded_file)) (uploadIDs : list string)
    : prog (list string) :=
  match uploadedFiles with
  | [] => Ret uploadIDs
  | None :: rest => upload_files refreshToken regionInfo (S i) rest uploadIDs
  | Some file :: rest =>
      uploadIDs' ← try_catch
        (imageUri ← uploadImageFromFile file refreshToken regionInfo;
         Ret (push_if_truthy uploadIDs imageUri))
        (first_frame_only i uploadIDs);
      upload_files refreshToken regionInfo (S i) rest uploadIDs'
  end.

(** What the second loop does for one truthy entry.  The entries are
    declared strings, but nothing on the way checks it: on anything else
    [filePath.startsWith] is not a function. *)
Definition upload_path (filePath : value) (refreshToken : string)
    (regionInfo : RegionInfo) : prog string :=
  match filePath with
  | VStr filePath =>
      isLocal ← isLocalFilePath filePath;
      if isLocal : bool then
        uploadVideoImageFromLocalPath filePath refreshToken regionInfo
      else uploadVideoImageFromUrl filePath refreshToken regionInfo
  | _ => Throw (TypeError "filePath.startsWith is not a function")
  end.

(** The loop over [filePaths], from index [i] on. *)
Fixpoint upload_paths (refreshToken : string) (regionInfo : RegionInfo) (i : nat)
    (filePaths : list value) (uploadIDs : list string) : prog (list string) :=
  match filePaths with
  | [] => Ret uploadIDs
  | filePath :: rest =>
      if negb (truthy filePath) then
        upload_paths refreshToken regionInfo (S i) rest uploadIDs
      else
        uploadIDs' ← try_catch
          (imageUri ← upload_path filePath refreshToken regionInfo;
           Ret (push_if_truthy uploadIDs imageUri))
          (first_frame_only i uploadIDs);
        upload_paths refreshToken regionInfo (S i) rest uploadIDs'
  end.

(** Uploaded files first; the paths only when there is no file. *)
Definition upload_frames (refreshToken : string) (regionInfo : RegionInfo)
    (uploadedFiles : list (option uploaded_file)) (filePaths : list value)
    : prog (list string) :=
  if (0 <? length uploadedFiles)%nat then
    upload_files refreshToken regionInfo 0 uploadedFiles []
  else if (0 <? length filePaths)%nat then
    upload_paths refreshToken regionInfo 0 filePaths []
  else Ret [].

Definition video_payload (model prompt ratio resolution : string) (duration : Z)
    (uploadIDs : list string) (regionInfo : RegionInfo) : video_request :=
  mkVideoRequest model (getVideoBenefitType model) prompt
    (fst (video_duration model duration)) (snd (video_duration model duration))
    (if supportsResolution model then Some resolution else None)
    ratio (first_frame_image uploadIDs) (end_frame_image uploadIDs) regionInfo.

Definition createVideoGenerationTask (_model prompt : string)
    (options : video_options) (refreshToken : string) : prog value :=
  let ratio := default "1:1" (vo_ratio options) in
  let resolution := default "720p" (vo_resolution options) in
  let duration := default 5 (vo_duration options) in
  let filePaths := default [] (vo_filePaths options) in
  let uploadedFiles := default [] (vo_files options) in
  regionInfo ← lift (parseRegionFromToken refreshToken);
  model ← lift (getVideoModel _model regionInfo);
  uploadIDs ← upload_frames refreshToken regionInfo uploadedFiles filePaths;
  response ← await (Request "post" generate_path refreshToken
                      (GenerateVideo
                         (video_payload model prompt ratio resolution duration
                            uploadIDs regionInfo)));
  lift (video_history_id_of response).

(** *** Status queries *)

(** [v > 0] *)
Definition gt_zero (v : value) : outcome bool :=
  match v with
  | VUndefined | VNull => Returned false
  | VBool b => Returned b
  | VNum n => Returned (0 <? n)
  | VStr _ | VArr _ | VObj _ => coerced_gt_zero v
  end.

(** Whether the prototype chain of [v] defines the key [k]: the chain of an
    object of the response is [Object.prototype] alone. *)
Definition inherits (v : value) (k : string) : bool :=
  existsb (String.eqb k) object_prototype_keys
  || match v with
     | VObj _ => false
     | _ => prototype_defines v k
     end.

(** [v[k]] on a value that is neither [null] nor [undefined]: the own
    property first, then the prototype chain. *)
Definition found (v : value) (k : string) : looked_up :=
  if has_own v k then Data (get_prop v k)
  else if inherits v k then Builtin v k
  else Data VUndefined.

(** [v[k]]: reading a property of [null] or [undefined] throws. *)
Definition member_by_key (v : value) (k : string) : outcome looked_up :=
  if nullish v then Raised (TypeError "Cannot read properties of null or undefined")
  else Returned (found v k).

(** What [queryImageTaskStatus] makes of the vendor response. *)
Definition image_status_of (historyId : string) (response : value)
    : outcome image_task_status :=
  record ← member_by_key response historyId;
  if negb (record_truthy record) then
    Raised (APIException API_IMAGE_GENERATION_FAILED ("任务不存在: " +:+ historyId))
  else
    let taskInfo := record in
    let itemList := or_else (record_field taskInfo "item_list") (VArr []) in
    nonempty ← gt_zero (get_prop itemList "length");
    has_image ←
      (if nonempty : bool then
         image ← member (get_index itemList 0) "image";
         Returned (truthy image)
       else Returned false);
    results ←
      (if has_image : bool then
         imageUrls ← ImageUtils.extractImageUrls itemList;
         Returned (if (0 <? length imageUrls)%nat then Some imageUrls else None)
       else Returned None);
    Returned (mkImageTaskStatus historyId "image" (record_field taskInfo "status")
                (record_field taskInfo "fail_code") (get_prop itemList "length")
                results taskInfo).

Definition queryImageTaskStatus (historyId refreshToken : string)
    : prog image_task_status :=
  response ← await (Request "post" history_path refreshToken
                      (HistoryByIds [historyId] true));
  lift (image_status_of historyId response).

(** What [queryVideoTaskStatus] makes of the vendor response. *)
Definition video_status_of (historyId : string) (result : value)
    : outcome video_task_status :=
  match Json.stringify result with
  | None => Raised (TypeError "Cannot read properties of undefined (reading match)")
  | Some responseStr =>
      let videoUrlMatch := Pattern.search responseStr in
      record ← member_by_key result historyId;
      if negb (record_truthy record) then
        Returned (mkVideoTaskStatus "processing" (VNum 20) (VNum 0) VNull (VNum 0) VNull)
      else
        let historyData := record in
        let currentStatus := record_field historyData "status" in
        let currentFailCode := or_else (record_field historyData "fail_code") (VNum 0) in
        let finishTime :=
          or_else (opt_prop (record_field historyData "task") "finish_time") (VNum 0) in
        let item_list := or_else (record_field historyData "item_list") (VArr []) in
        let matched :=
          match videoUrlMatch with Some url => VStr url | None => VNull end in
        videoUrl ←
          (if truthy matched then Returned matched
           else
             nonempty ← gt_zero (get_prop item_list "length");
             Returned (if nonempty : bool
                       then ImageUtils.extractVideoUrl (get_index item_list 0)
                       else VNull));
        let statusText :=
          if is_num currentStatus 20 then "processing"
          else if is_num currentStatus 10 || is_num currentStatus 30 then
            if truthy videoUrl then "completed" else "processing"
          else if is_num currentStatus 50 then
            if truthy videoUrl then "completed" else "failed"
          else "unknown" in
        let statusText := if truthy videoUrl then "completed" else statusText in
        Returned (mkVideoTaskStatus statusText currentStatus currentFailCode
                    videoUrl finishTime historyData)
  end.

Definition queryVideoTaskStatus (historyId refreshToken : string)
    : prog video_task_status :=
  result ← await (Request "post" history_path refreshToken
                    (HistoryByIds [historyId] false));
  lift (video_status_of historyId result).

End WithImports.

End Controller.

(** ** The routes, [src/api/routes/async-tasks.ts] *)

Module Routes.
Import Js.

(** What the routes read of a request.  [content_type] is
    [request.headers['content-type'] || '']; [image_files] is
    [request.files?.images] with a single file counted as a list of one, and
    [None] when it is missing; [files] is [_.values(request.files)], and
    [None] when the request has no files object. *)
Record http_request : Type := mkRequest {
  content_type : string;
  authorization : value;
  body : value;
  image_files : option (list uploaded_file);
  files : option (list (option uploaded_file))
}.

Record submitted : Type := mkSubmitted {
  history_id : value;
  input_images : nat
}.

Definition isString (v : value) : bool := match v with VStr _ => true | _ => false end.
Definition isUndefined (v : value) : bool := match v with VUndefined => true | _ => false end.
Definition isBoolean (v : value) : bool := match v with VBool _ => true | _ => false end.
Definition isFinite (v : value) : bool := match v with VNum _ => true | _ => false end.
Definition isArray (v : value) : bool := match v with VArr _ => true | _ => false end.
Definition isObject (v : value) : bool :=
  match v with VArr _ | VObj _ => true | _ => false end.

Definition as_string (v : value) : option string :=
  match v with VStr s => Some s | _ => None end.

Definition items_of (v : value) : list value :=
  match v with VArr items => items | _ => [] end.

Definition unsupportedParams : list string := ["size"; "width"; "height"].

(** The check of the first lines of both image routes. *)
Definition reject_unsupported (body : value) : outcome unit :=
  if nullish body then
    Raised (TypeError "Cannot convert undefined or null to object")
  else
    let bodyKeys := keys body in
    let foundUnsupported :=
      List.filter (fun param => existsb (String.eqb param) bodyKeys) unsupportedParams in
    if (0 <? length foundUnsupported)%nat then
      Raised (Error ("不支持的参数: " +:+ Json.join ", " foundUnsupported
                     +:+ "。请使用 ratio 和 resolution 参数控制图像尺寸。"))
    else Returned tt.

Section WithImports.
Context `{Imports}.

(** Modelled from the spec: [request.validate] of [@/lib/request/Request.ts],
    the request-shape validation of the routing layer; it raises when the
    checker rejects the value found under the key. *)
Definition validate (key : string) (accepted : bool) : outcome unit :=
  if accepted then Returned tt else Raised (invalid_params key).

Definition optional (check : value -> bool) (v : value) : bool :=
  isUndefined v || check v.

Definition validate_composition (isMultiPart : bool) (request : http_request)
    : outcome unit :=
  let field := get_prop (body request) in
  _ ← validate "body.model" (optional isString (field "model"));
  _ ← validate "body.prompt" (isString (field "prompt"));
  _ ← (if isMultiPart then Returned tt
       else validate "body.images" (isArray (field "images")));
  _ ← validate "body.negative_prompt" (optional isString (field "negative_prompt"));
  _ ← validate "body.ratio" (optional isString (field "ratio"));
  _ ← validate "body.resolution" (optional isString (field "resolution"));
  _ ← validate "body.intelligent_ratio"
        (optional (fun v =>
                     (isMultiPart
                      && match v with
                         | VStr s => String.eqb s "true" || String.eqb s "false"
                         | _ => false
                         end)
                     || isBoolean v)
           (field "intelligent_ratio"));
  _ ← validate "body.sample_strength"
        (optional (fun v =>
                     (isMultiPart
                      && match v with
                         | VStr s => bool_decide (is_Some (parseFloat s))
                         | _ => false
                         end)
                     || isFinite v)
           (field "sample_strength"));
  validate "headers.authorization" (isString (authorization request)).

(** [imageFiles.map(file => fs.readFileSync(file.filepath))] *)
Fixpoint read_files (imageFiles : list uploaded_file) : prog (list image_input) :=
  match imageFiles with
  | [] => Ret []
  | file :: rest =>
      data ← await (ReadFileSync (filepath file));
      images ← read_files rest;
      Ret (ImageBuffer data :: images)
  end.

(** The [forEach] over the images of a JSON body. *)
Fixpoint check_body_images (index : nat) (bodyImages : list value) : outcome unit :=
  match bodyImages with
  | [] => Returned tt
  | image :: rest =>
      if negb (isString image) && negb (isObject image) then
        Raised (Error ("图片 " +:+ Str.string_of_nat (index + 1)
                       +:+ " 格式不正确：应为URL字符串或包含url字段的对象"))
      else if isObject image && negb (truthy (get_prop image "url")) then
        Raised (Error ("图片 " +:+ Str.string_of_nat (index + 1) +:+ " 缺少url字段"))
      else check_body_images (S index) rest
  end.

(** [_.isString(image) ? image : image.url] *)
Definition body_image (image : value) : image_input :=
  match image with
  | VStr url => ImageUrl url
  | _ =>
      match get_prop image "url" with
      | VStr url => ImageUrl url
      | other => ImageBuffer (Unchecked other)
      end
  end.

(** The images of a composition request, with the bounds 1 to 10. *)
Definition composition_images (isMultiPart : bool) (request : http_request)
    : prog (list image_input) :=
  if isMultiPart then
    match image_files request with
    | None => Throw (Error "在form-data中缺少 'images' 字段")
    | Some imageFiles =>
        if (length imageFiles =? 0)%nat then Throw (Error "至少需要提供1张输入图片")
        else if (10 <? length imageFiles)%nat then Throw (Error "最多支持10张输入图片")
        else read_files imageFiles
    end
  else
    let bodyImages := get_prop (body request) "images" in
    if negb (truthy bodyImages) || (length (items_of bodyImages) =? 0)%nat then
      Throw (Error "至少需要提供1张输入图片")
    else if (10 <? length (items_of bodyImages))%nat then
      Throw (Error "最多支持10张输入图片")
    else
      _ ← lift (check_body_images 0 (items_of bodyImages));
      Ret (map body_image (items_of bodyImages)).

Definition composition_options (isMultiPart : bool) (body : value)
    : Controller.image_options :=
  let sampleStrength := get_prop body "sample_strength" in
  let intelligentRatio := get_prop body "intelligent_ratio" in
  Controller.mkImageOptions
    (as_string (get_prop body "ratio"))
    (as_string (get_prop body "resolution"))
    (match sampleStrength with
     | VStr s => if isMultiPart then parseFloat s else None
     | VNum n => Some (inject_Z n)
     | _ => None
     end)
    (as_string (get_prop body "negative_prompt"))
    (match intelligentRatio with
     | VStr s => if isMultiPart then Some (String.eqb s "true") else None
     | VBool b => Some b
     | _ => None
     end).

(** POST /images/compositions *)
Definition compositions (request : http_request) : prog submitted :=
  _ ← lift (reject_unsupported (body request));
  let isMultiPart := Str.startsWith (content_type request) "multipart/form-data" in
  _ ← lift (validate_composition isMultiPart request);
  images ← composition_images isMultiPart request;
  token ← lift (pick_token (authorization request));
  let finalModel :=
    default DEFAULT_IMAGE_MODEL (as_string (get_prop (body request) "model")) in
  let prompt := default "" (as_string (get_prop (body request) "prompt")) in
  historyId ← Controller.createImageCompositionTask finalModel prompt images
                (composition_options isMultiPart (body request)) token;
  Ret (mkSubmitted historyId (length images)).

Definition validDurations : list Z := [4; 5; 8; 10; 12].

Definition valid_duration (isMultiPart : bool) (v : value) : bool :=
  match v with
  | VUndefined => true
  | VStr s =>
      if isMultiPart then
        match parseInt s with
        | Some num => existsb (Z.eqb num) validDurations
        | None => false
        end
      else false
  | VNum n => existsb (Z.eqb n) validDurations
  | _ => false
  end.

(** [_.isUndefined(v) || (_.isArray(v) && v.length <= 2)] *)
Definition at_most_two (v : value) : bool :=
  isUndefined v || (isArray v && (length (items_of v) <=? 2)%nat).

Definition validate_video (isMultiPart : bool) (request : http_request) : outcome unit :=
  let field := get_prop (body request) in
  _ ← validate "body.model" (optional isString (field "model"));
  _ ← validate "body.prompt" (isString (field "prompt"));
  _ ← validate "body.ratio" (optional isString (field "ratio"));
  _ ← validate "body.resolution" (optional isString (field "resolution"));
  _ ← validate "body.duration" (valid_duration isMultiPart (field "duration"));
  _ ← validate "body.file_paths" (at_most_two (field "file_paths"));
  _ ← validate "body.filePaths" (at_most_two (field "filePaths"));
  validate "headers.authorization" (isString (authorization request)).

(** POST /videos/generations *)
Definition videos (request : http_request) : prog submitted :=
  let isMultiPart := Str.startsWith (content_type request) "multipart/form-data" in
  _ ← lift (validate_video isMultiPart request);
  let uploadedFiles := default [] (files request) in
  if (2 <? length uploadedFiles)%nat then Throw (Error "最多只能上传2个图片文件")
  else
    token ← lift (pick_token (authorization request));
    let field := get_prop (body request) in
    let model := default DEFAULT_VIDEO_MODEL (as_string (field "model")) in
    let prompt := default "" (as_string (field "prompt")) in
    let finalDuration :=
      match field "duration" with
      | VUndefined => Some 5
      | VStr s => if isMultiPart then parseInt s else None
      | VNum n => Some n
      | _ => None
      end in
    let file_paths := items_of (field "file_paths") in
    let filePaths := items_of (field "filePaths") in
    let finalFilePaths := if (0 <? length filePaths)%nat then filePaths else file_paths in
    historyId ← Controller.createVideoGenerationTask model prompt
                  (Controller.mkVideoOptions
                     (Some (default "1:1" (as_string (field "ratio"))))
                     (Some (default "720p" (as_string (field "resolution"))))
                     finalDuration (Some finalFilePaths) (files request))
                  token;
    Ret (mkSubmitted historyId 0).

End WithImports.

End Routes.

(** ** Sample collaborators, for running the programs on concrete inputs *)

Module Sample.

Definition cn : RegionInfo := mkRegionInfo false "cn".

(** Every import succeeds; models resolve to themselves. *)
Definition imports : Imports := {|
  parseRegionFromToken := fun _ => Returned cn;
  getImageModel := fun m _ => Returned (m, m);
  getVideoModel := fun m _ => Returned m;
  resolveResolution := fun _ _ _ _ => Returned (mkResolutionSpec 2048 2048 "2k");
  coerced_gt_zero := fun _ => Returned false;
  prototype_defines := fun _ _ => false;
  DEFAULT_IMAGE_MODEL := "jimeng-4.0";
  DEFAULT_VIDEO_MODEL := "jimeng-video-3.0";
  pick_token := fun authorization =>
                  match authorization with
                  | VStr token => Returned token
                  | _ => Raised (TypeError "authorization.replace is not a function")
                  end;
  invalid_params := fun key => Error ("Params " +:+ key +:+ " invalid");
  parseFloat := fun _ => None;
  parseInt := fun _ => None
|}.

(** Number of upload calls answered so far. *)
Definition uploads_so_far (past : list event) : nat :=
  length (List.filter is_upload past).

(** A vendor where the upload call number [failing] (from 0) raises, every
    other call succeeds, uploads return [asset-n] for the n-th upload, and
    every request is answered with [response]. *)
Definition world (failing : option nat) (response : value) : env :=
  fun X past c =>
    let n := uploads_so_far past in
    let upload : outcome string :=
      if decide (failing = Some n) then Raised (Error "upload refused")
      else Returned ("asset-" +:+ Str.string_of_nat n) in
    match c in call X return outcome X with
    | UploadImageFromUrl _ _ _ => upload
    | UploadImageBuffer _ _ _ => upload
    | ReadFile _ => Returned (Bytes [])
    | ReadFileSync _ => Returned (Bytes [])
    | Access _ => Returned tt
    | AxiosGet _ => Returned (mkHttpResponse 200 (Bytes []))
    | Request _ _ _ _ => Returned response
    end.

Definition accepted : value :=
  VObj [("aigc_data", VObj [("history_record_id", VStr "h-1")])].

(** A JSON request to an image or video route. *)
Definition json_request (body : value) : Routes.http_request :=
  Routes.mkRequest "application/json" (VStr "token") body None None.

Definition eleven_urls : list string := repeat "https://a/i.png" 11.

Definition no_image_options : Controller.image_options :=
  Controller.mkImageOptions None None None None None.

Definition video_options_with (duration : option Z) (filePaths : list value)
    (files : list (option uploaded_file)) : Controller.video_options :=
  Controller.mkVideoOptions None None duration (Some filePaths) (Some files).

End Sample.

(** ** Which calls a program may make *)

(** Every call of the program passes the test [allowed]. *)
Fixpoint calls_only {A} (allowed : forall X, call X -> bool) (p : prog A) : Prop :=
  match p with
  | Ret _ | Throw _ => True
  | Do c k => allowed _ c = true /\ forall r, calls_only allowed (k r)
  end.

Definition event_passes (allowed : forall X, call X -> bool) (e : event) : bool :=
  match e with
  | Event c _ => allowed _ c
  end.

(** Reading an uploaded file and uploading its bytes. *)
Definition reads_and_uploads (X : Type) (c : call X) : bool :=
  match c with
  | ReadFile _ | UploadImageBuffer _ _ _ => true
  | _ => false
  end.

(** The identifier that an event adds to the frames of a video task: the
    one that a buffer upload returned, unless it is empty. *)
Definition uploaded_id (e : event) : option string :=
  match e with
  | Event c r =>
      match c in call X return outcome X -> option string with
      | UploadImageBuffer _ _ _ => fun r =>
          match r with
          | Returned id => if Js.truthy (VStr id) then Some id else None
          | Raised _ => None
          end
      | _ => fun _ => None
      end r
  end.

(** The non-empty identifiers that the uploads of a trace returned, in the
    order of the uploads. *)
Definition uploaded_ids (trace : list event) : list string := omap uploaded_id trace.

(** A program that returns what its upload returned, and raises only
    without a returned upload. *)
Definition yields_its_upload (p : prog string) : Prop :=
  forall (world : env) (past : list event),
  exists new,
    fst (run world past p) = past ++ new
    /\ uploaded_ids new = match snd (run world past p) with
                          | Returned id => Controller.push_if_truthy [] id
                          | Raised _ => []
                          end.

(** ** The high-quality video lookup of [@/lib/image-utils.ts] *)

Module HighQuality.
Import Js.

(** Longest prefix free of double quotes, white space and backslashes:
    the tail of the three patterns of [fetchHighQualityVideoUrl]. *)
Fixpoint url_tail (s : string) : string :=
  match s with
  | String c rest =>
      if Ascii.eqb c Str.dquote || Ascii.eqb c "\" || (0 <? Pattern.space_width s)%nat
      then EmptyString
      else String c (url_tail rest)
  | EmptyString => EmptyString
  end.

(** One of the host endings, then a non-empty tail; the text matched. *)
Fixpoint host_then_tail (hosts : list string) (s : string) : option string :=
  match hosts with
  | [] => None
  | host :: others =>
      match Str.strip_prefix host s with
      | Some r =>
          if String.eqb (url_tail r) "" then host_then_tail others s
          else Some (host +:+ url_tail r)
      | None => host_then_tail others s
      end
  end.

(** A greedy run of characters other than the double quote and the
    backslash, followed by a host ending and a tail: the longest run that
    lets the rest match is the one the pattern keeps. *)
Fixpoint run_then_host (hosts : list string) (s : string) : option string :=
  match s with
  | String c rest =>
      if Ascii.eqb c Str.dquote || Ascii.eqb c "\" then host_then_tail hosts s
      else
        match run_then_host hosts rest with
        | Some m => Some (String c m)
        | None => host_then_tail hosts s
        end
  | EmptyString => host_then_tail hosts s
  end.

(** https://v, digits, a dash, then [after] for what follows the dash. *)
Definition match_here (after : string -> option string) (s : string) : option string :=
  r1 ← Str.strip_prefix "https://v" s;
  let (d, r2) := Pattern.digits r1 in
  if String.eqb d "" then None
  else
    r3 ← Str.strip_prefix "-" r2;
    m ← after r3;
    Some ("https://v" +:+ d +:+ "-" +:+ m).

Fixpoint search (after : string -> option string) (s : string) : option string :=
  match match_here after s with
  | Some m => Some m
  | None =>
      match s with
      | String _ rest => search after rest
      | EmptyString => None
      end
  end.

(** The three patterns, in the order in which they are tried. *)
Definition dreamnia (s : string) : option string :=
  search (host_then_tail ["dreamnia.jimeng.com/"]) s.

Definition any_jimeng (s : string) : option string :=
  search (run_then_host [".jimeng.com/"]) s.

Definition any_video_host (s : string) : option string :=
  search (run_then_host [".vlabvod.com/"; ".jimeng.com/"]) s.

(** The first item's URL, by the chain of [||]. *)
Definition structured_url (item : value) : value :=
  let video := opt_prop item "video" in
  or_else
    (or_else
       (or_else
          (opt_prop (opt_prop (opt_prop video "transcoded_video") "origin") "video_url")
          (opt_prop video "download_url"))
       (opt_prop video "play_url"))
    (opt_prop video "url").

Definition first_match (responseStr : string) : value :=
  match dreamnia responseStr with
  | Some url => VStr url
  | None =>
      match any_jimeng responseStr with
      | Some url => VStr url
      | None =>
          match any_video_host responseStr with
          | Some url => VStr url
          | None => VNull
          end
      end
  end.

Section WithImports.
Context `{Imports}.

(** The body of the [try]: what is made of the answer of the request. *)
Definition url_of_result (result : value) : outcome value :=
  match Json.stringify result with
  | None => Raised (TypeError "Cannot read properties of undefined (reading length)")
  | Some responseStr =>
      item_list ← Controller.member result "item_list";
      let itemList :=
        or_else (or_else item_list (get_prop result "local_item_list")) (VArr []) in
      nonempty ← Controller.gt_zero (get_prop itemList "length");
      let videoUrl :=
        if nonempty : bool then structured_url (get_index itemList 0) else VUndefined in
      if truthy videoUrl then Returned videoUrl else Returned (first_match responseStr)
  end.

(** [fetchHighQualityVideoUrl]; [lookup] stands for the request to
    [/mweb/v1/get_local_item_list] for the item. *)
Definition fetchHighQualityVideoUrl (lookup : prog value) : prog value :=
  try_catch (result ← lookup; lift (url_of_result result)) (fun _ => Ret VNull).

End WithImports.

End HighQuality.

(** A text without double quote and without backslash. *)
Definition free_of_quotes (m : string) : Prop :=
  Forall (fun c => c <> Str.dquote /\ c <> "\"%char) (list_ascii_of_string m).

(** What the part of a pattern after the dash may match: a prefix of the
    text, free of double quotes and backslashes. *)
Definition matches_a_clean_prefix (after : string -> option string) : Prop :=
  forall s m, after s = Some m -> (exists post, s = m +:+ post) /\ free_of_quotes m.

(** ** [extractAllImageUrls] *)

Module AllImageUrls.

(** [itemList.map(extractImageUrlInfo)] on an array. *)
Fixpoint extractAllImageUrls_items (items : list value) : outcome (list ImageUrlInfo) :=
  match items with
  | [] => Returned []
  | item :: rest =>
      info ← ImageUrlInfoOf.extractImageUrlInfo item;
      infos ← extractAllImageUrls_items rest;
      Returned (info :: infos)
  end.

Definition extractAllImageUrls (itemList : value) : outcome (list ImageUrlInfo) :=
  match itemList with
  | VArr items => extractAllImageUrls_items items
  | _ => Raised (TypeError "itemList.map is not a function")
  end.

End AllImageUrls.

(** ** Credits and the text-to-image route *)

Module Credits.

(** Modelled from the spec: what [getCredit] of [./core.ts] returns, the
    balances of the account. *)
Record credit_info : Type := mkCreditInfo {
  totalCredit : Z;
  giftCredit : Z;
  purchaseCredit : Z;
  vipCredit : Z
}.

(** [queryCredits]; [getCredit] is the function of [./core.ts]. *)
Definition queryCredits (getCredit : string -> prog credit_info) (refreshToken : string)
    : prog credit_info :=
  try_catch (getCredit refreshToken)
    (fun error =>
       Throw (APIException API_REQUEST_FAILED ("积分查询失败: " +:+ message error))).

Record balance : Type := mkBalance {
  total : Z;
  gift : Z;
  purchase : Z;
  vip : Z
}.

Section WithImports.
Context `{Imports}.

(** GET /credits *)
Definition credits (getCredit : string -> prog credit_info)
    (request : Routes.http_request) : prog balance :=
  _ ← lift (Routes.validate "headers.authorization"
              (Routes.isString (Routes.authorization request)));
  token ← lift (pick_token (Routes.authorization request));
  credits ← queryCredits getCredit token;
  Ret (mkBalance (totalCredit credits) (giftCredit credits)
         (purchaseCredit credits) (vipCredit credits)).

End WithImports.

End Credits.

Module ImageRoute.
Import Js.

Section WithImports.
Context `{Imports}.

Definition validate_generation (request : Routes.http_request) : outcome unit :=
  let field := get_prop (Routes.body request) in
  _ ← Routes.validate "body.model" (Routes.optional Routes.isString (field "model"));
  _ ← Routes.validate "body.prompt" (Routes.isString (field "prompt"));
  _ ← Routes.validate "body.negative_prompt"
        (Routes.optional Routes.isString (field "negative_prompt"));
  _ ← Routes.validate "body.ratio" (Routes.optional Routes.isString (field "ratio"));
  _ ← Routes.validate "body.resolution" (Routes.optional Routes.isString (field "resolution"));
  _ ← Routes.validate "body.intelligent_ratio"
        (Routes.optional Routes.isBoolean (field "intelligent_ratio"));
  _ ← Routes.validate "body.sample_strength"
        (Routes.optional Routes.isFinite (field "sample_strength"));
  Routes.validate "headers.authorization" (Routes.isString (Routes.authorization request)).

(** The options as the body has them; after the validation a field is
    missing or of its type. *)
Definition generation_options (body : value) : Controller.image_options :=
  Controller.mkImageOptions
    (Routes.as_string (get_prop body "ratio"))
    (Routes.as_string (get_prop body "resolution"))
    (match get_prop body "sample_strength" with
     | VNum n => Some (inject_Z n)
     | _ => None
     end)
    (Routes.as_string (get_prop body "negative_prompt"))
    (match get_prop body "intelligent_ratio" with
     | VBool b => Some b
     | _ => None
     end).

(** POST /images/generations *)
Definition generations (request : Routes.http_request) : prog value :=
  _ ← lift (Routes.reject_unsupported (Routes.body request));
  _ ← lift (validate_generation request);
  token ← lift (pick_token (Routes.authorization request));
  let finalModel :=
    default DEFAULT_IMAGE_MODEL (Routes.as_string (get_prop (Routes.body request) "model")) in
  let prompt := default "" (Routes.as_string (get_prop (Routes.body request) "prompt")) in
  Controller.createImageGenerationTask finalModel prompt
    (generation_options (Routes.body request)) token.

End WithImports.

End ImageRoute.

(** ** More sample data *)

Module MoreSample.

(** An item list whose first item has a play URL. *)
Definition played (url : string) : value :=
  VObj [("item_list", VArr [VObj [("video", VObj [("play_url", VStr url)])]])].

Definition text_request (body : value) : Routes.http_request :=
  Routes.mkRequest "application/json" (VStr "token") body None None.

End MoreSample.

(** * Properties *)

(** ** Running programs *)

Section RunLemmas.
Context {A B : Type}.

Lemma run_bind (world : env) (p : prog A) (f : A -> prog B) (past : list event) :
  run world past (p ≫= f) =
    match run world past p with
    | (tr, Returned a) => run world tr (f a)
    | (tr, Raised e) => (tr, Raised e)
    end.
Proof.
  unfold mbind, prog_bind. revert past.
  induction p as [a | e | X c k IH]; intros past; simpl; auto.
Qed.

Lemma run_try_catch (world : env) (p : prog A) (h : exn -> prog A) (past : list event) :
  run world past (try_catch p h) =
    match run world past p with
    | (tr, Returned a) => (tr, Returned a)
    | (tr, Raised e) => run world tr (h e)
    end.
Proof.
  revert past.
  induction p as [a | e | X c k IH]; intros past; simpl; auto.
Qed.

Lemma run_lift (world : env) (o : outcome A) (past : list event) :
  run world past (lift o) = (past, o).
Proof. destruct o; reflexivity. Qed.

Lemma run_extends (world : env) (p : prog A) (past : list event) :
  exists new, fst (run world past p) = past ++ new.
Proof.
  revert past.
  induction p as [a | e | X c k IH]; intros past; simpl.
  - exists []. by rewrite app_nil_r.
  - exists []. by rewrite app_nil_r.
  - destruct (IH (world X past c) (past ++ [Event c (world X past c)])) as [new Hnew].
    exists (Event c (world X past c) :: new).
    rewrite Hnew, <- app_assoc. reflexivity.
Qed.

End RunLemmas.

Lemma run_await {X} (world : env) (c : call X) (past : list event) :
  run world past (await c) = (past ++ [Event c (world X past c)], world X past c).
Proof. unfold await. simpl. destruct (world X past c); reflexivity. Qed.

(** ** Programs that do not reach the vendor's request endpoint *)

Lemma requests_app (t1 t2 : list event) : requests (t1 ++ t2) = requests t1 ++ requests t2.
Proof. unfold requests. apply omap_app. Qed.

Lemma no_request_bind {A B} (p : prog A) (f : A -> prog B) :
  no_request p -> (forall a, no_request (f a)) -> no_request (p ≫= f).
Proof.
  unfold mbind, prog_bind.
  induction p as [a | e | X c k IH]; simpl; intros Hp Hf; auto.
  destruct Hp as [Hc Hk]. split; auto.
Qed.

Lemma no_request_try_catch {A} (p : prog A) (h : exn -> prog A) :
  no_request p -> (forall e, no_request (h e)) -> no_request (try_catch p h).
Proof.
  induction p as [a | e | X c k IH]; simpl; intros Hp Hh; auto.
  destruct Hp as [Hc Hk]. split; auto.
Qed.

Lemma no_request_await {X} (c : call X) : is_request_call c = false -> no_request (await c).
Proof. intros Hc. simpl. split; [exact Hc | intros [x | e]; exact I]. Qed.

Lemma run_no_request {A} (world : env) (p : prog A) (past : list event) :
  no_request p -> requests (fst (run world past p)) = requests past.
Proof.
  revert past.
  induction p as [a | e | X c k IH]; simpl; intros past Hp; auto.
  destruct Hp as [Hc Hk].
  rewrite IH by apply Hk.
  rewrite requests_app. simpl.
  destruct c; simpl in Hc; try discriminate; simpl; by rewrite app_nil_r.
Qed.

Section VideoRun.
Context `{Imports}.
Import Controller.

Lemma no_request_first_frame_only i ids e : no_request (first_frame_only i ids e).
Proof. unfold first_frame_only. destruct (i =? 0)%nat; exact I. Qed.

Lemma no_request_uploadImageFromFile file tok reg :
  no_request (uploadImageFromFile file tok reg).
Proof.
  unfold uploadImageFromFile.
  apply no_request_try_catch; [| intros; exact I].
  apply no_request_bind; [by apply no_request_await |].
  intros. by apply no_request_await.
Qed.

Lemma no_request_upload_path filePath tok reg : no_request (upload_path filePath tok reg).
Proof.
  unfold upload_path. destruct filePath; try exact I.
  apply no_request_bind.
  - unfold isLocalFilePath. destruct (negb _); [exact I |].
    apply no_request_try_catch; [| intros; exact I].
    apply no_request_bind; [by apply no_request_await | intros; exact I].
  - intros [|].
    + unfold uploadVideoImageFromLocalPath.
      apply no_request_try_catch; [| intros; exact I].
      apply no_request_bind; [by apply no_request_await |].
      intros. by apply no_request_await.
    + unfold uploadVideoImageFromUrl.
      apply no_request_try_catch; [| intros; exact I].
      apply no_request_bind; [by apply no_request_await |].
      intros r. destruct (_ || _); [exact I | by apply no_request_await].
Qed.

Lemma upload_files_some tok reg i file rest ids :
  upload_files tok reg i (Some file :: rest) ids =
    (try_catch
       (imageUri ← uploadImageFromFile file tok reg;
        Ret (push_if_truthy ids imageUri))
       (first_frame_only i ids))
    ≫= (fun ids' => upload_files tok reg (S i) rest ids').
Proof. reflexivity. Qed.

Lemma upload_paths_cons tok reg i filePath rest ids :
  upload_paths tok reg i (filePath :: rest) ids =
    if negb (Js.truthy filePath) then upload_paths tok reg (S i) rest ids
    else
      (try_catch
         (imageUri ← upload_path filePath tok reg;
          Ret (push_if_truthy ids imageUri))
         (first_frame_only i ids))
      ≫= (fun ids' => upload_paths tok reg (S i) rest ids').
Proof. reflexivity. Qed.

Lemma no_request_upload_files tok reg files : forall i ids,
  no_request (upload_files tok reg i files ids).
Proof.
  induction files as [| [file |] rest IH]; intros i ids;
    [exact I | rewrite upload_files_some | apply IH].
  apply no_request_bind; [| intros; apply IH].
  apply no_request_try_catch; [| apply no_request_first_frame_only].
  apply no_request_bind; [apply no_request_uploadImageFromFile | intros; exact I].
Qed.

Lemma no_request_upload_paths tok reg paths : forall i ids,
  no_request (upload_paths tok reg i paths ids).
Proof.
  induction paths as [| filePath rest IH]; intros i ids; [exact I |].
  rewrite upload_paths_cons.
  destruct (negb _); [apply IH |].
  apply no_request_bind; [| intros; apply IH].
  apply no_request_try_catch; [| apply no_request_first_frame_only].
  apply no_request_bind; [apply no_request_upload_path | intros; exact I].
Qed.

Lemma no_request_upload_frames tok reg files paths :
  no_request (upload_frames tok reg files paths).
Proof.
  unfold upload_frames.
  destruct (0 <? length files)%nat; [apply no_request_upload_files |].
  destruct (0 <? length paths)%nat; [apply no_request_upload_paths | exact I].
Qed.

(** The whole video task in one equation: set-up, uploads, one request. *)
Lemma run_createVideoGenerationTask world _model prompt options tok :
  run world [] (createVideoGenerationTask _model prompt options tok) =
    match parseRegionFromToken tok with
    | Raised e => ([], Raised e)
    | Returned regionInfo =>
        match getVideoModel _model regionInfo with
        | Raised e => ([], Raised e)
        | Returned model =>
            match run world [] (upload_frames tok regionInfo
                                  (default [] (vo_files options))
                                  (default [] (vo_filePaths options))) with
            | (tr, Raised e) => (tr, Raised e)
            | (tr, Returned uploadIDs) =>
                let c := Request "post" generate_path tok
                           (GenerateVideo
                              (video_payload model prompt
                                 (default "1:1" (vo_ratio options))
                                 (default "720p" (vo_resolution options))
                                 (default 5 (vo_duration options))
                                 uploadIDs regionInfo)) in
                (tr ++ [Event c (world _ tr c)], world _ tr c ≫= video_history_id_of)
            end
        end
    end.
Proof.
  unfold createVideoGenerationTask.
  rewrite run_bind, run_lift.
  destruct (parseRegionFromToken tok) as [regionInfo | e]; [| reflexivity].
  rewrite run_bind, run_lift.
  destruct (getVideoModel _model regionInfo) as [model | e]; [| reflexivity].
  rewrite run_bind.
  destruct (run world [] (upload_frames _ _ _ _)) as [tr [uploadIDs | e]]; [| reflexivity].
  rewrite run_bind, run_await.
  cbv zeta.
  destruct (world value tr _) as [response | e]; [| reflexivity].
  rewrite run_lift. reflexivity.
Qed.

End VideoRun.

(** ** Video duration *)

Section Duration.
Context `{Imports}.
Import Controller.

(** Every request of the video task is the one built after the uploads. *)
Lemma video_request_is_payload world _model prompt options tok (rq : video_request) :
  GenerateVideo rq ∈
    requests (trace_of (run world [] (createVideoGenerationTask _model prompt options tok))) ->
  exists regionInfo model uploadIDs,
    parseRegionFromToken tok = Returned regionInfo /\
    getVideoModel _model regionInfo = Returned model /\
    rq = video_payload model prompt (default "1:1" (vo_ratio options))
           (default "720p" (vo_resolution options)) (default 5 (vo_duration options))
           uploadIDs regionInfo.
Proof.
  rewrite run_createVideoGenerationTask.
  destruct (parseRegionFromToken tok) as [regionInfo | e] eqn:Hregion;
    [| intros Hin; by apply elem_of_nil in Hin].
  destruct (getVideoModel _model regionInfo) as [model | e] eqn:Hmodel;
    [| intros Hin; by apply elem_of_nil in Hin].
  pose proof (run_no_request world
                (upload_frames tok regionInfo (default [] (vo_files options))
                   (default [] (vo_filePaths options))) []
                (no_request_upload_frames _ _ _ _)) as Hquiet.
  destruct (run world [] (upload_frames _ _ _ _)) as [tr [uploadIDs | e]];
    simpl in Hquiet; unfold trace_of; simpl.
  - rewrite requests_app, Hquiet. simpl.
    intros Hin. apply list_elem_of_singleton in Hin.
    exists regionInfo, model, uploadIDs. repeat split; congruence.
  - rewrite Hquiet. intros Hin. by apply elem_of_nil in Hin.
Qed.

(** C2. Whatever request [createVideoGenerationTask] sends for the resolved
    model carries the duration of the family table: 8 s for a model whose
    key contains veo3; for sora2, 12 s and 8 s as requested and 4 s
    otherwise; for 3.5_pro, 12 s and 10 s as requested and 5 s otherwise;
    for any other model 10 s as requested and 5 s otherwise.  The
    millisecond field is a thousand times the seconds. *)
Theorem C2_video_duration_follows_family_table
    world _model prompt options tok (rq : video_request) :
  GenerateVideo rq ∈
    requests (trace_of (run world [] (createVideoGenerationTask _model prompt options tok))) ->
  let requested := default 5 (vo_duration options) in
  let model := vr_model rq in
  let seconds := vr_videoDuration rq in
  (exists regionInfo, parseRegionFromToken tok = Returned regionInfo /\
                      getVideoModel _model regionInfo = Returned model) /\
  vr_duration_ms rq = 1000 * seconds /\
  (Str.includes model "veo3" = true -> seconds = 8) /\
  (Str.includes model "veo3" = false -> Str.includes model "sora2" = true ->
     seconds = if requested =? 12 then 12 else if requested =? 8 then 8 else 4) /\
  (Str.includes model "veo3" = false -> Str.includes model "sora2" = false ->
   Str.includes model "3.5_pro" = true ->
     seconds = if requested =? 12 then 12 else if requested =? 10 then 10 else 5) /\
  (Str.includes model "veo3" = false -> Str.includes model "sora2" = false ->
   Str.includes model "3.5_pro" = false ->
     seconds = if requested =? 10 then 10 else 5).
Proof.
  intros Hin.
  destruct (video_request_is_payload _ _ _ _ _ _ Hin)
    as (regionInfo & model & uploadIDs & Hregion & Hmodel & ->).
  cbn [vr_model vr_videoDuration vr_duration_ms video_payload].
  split; [by exists regionInfo |].
  unfold video_duration.
  destruct (Str.includes model "veo3"), (Str.includes model "sora2"),
    (Str.includes model "3.5_pro");
    repeat split; intros; try discriminate;
    repeat match goal with |- context [?a =? ?b] => destruct (a =? b) end;
    reflexivity.
Qed.

End Duration.

(** The table at work: a veo3 model asked for 10 s gets 8 s. *)
Lemma C2_video_duration_witness :
  let rq := Controller.video_payload "dreamina_veo3" "a cat" "1:1" "720p" 10 [] Sample.cn in
  GenerateVideo rq ∈
    requests (trace_of (run (Sample.world None Sample.accepted) []
                          (Controller.createVideoGenerationTask (H := Sample.imports)
                             "dreamina_veo3" "a cat"
                             (Sample.video_options_with (Some 10) [] []) "token"))) /\
  vr_duration_ms rq = 8000 /\ vr_videoDuration rq = 8.
Proof.
  assert (Hin : GenerateVideo
                  (Controller.video_payload "dreamina_veo3" "a cat" "1:1" "720p" 10 [] Sample.cn) ∈
                requests (trace_of (run (Sample.world None Sample.accepted) []
                          (Controller.createVideoGenerationTask (H := Sample.imports)
                             "dreamina_veo3" "a cat"
                             (Sample.video_options_with (Some 10) [] []) "token")))).
  { vm_compute. apply list_elem_of_here. }
  split; [exact Hin |].
  pose proof (C2_video_duration_follows_family_table (H := Sample.imports)
                _ _ _ _ _ _ Hin) as (_ & Hms & Hveo & _).
  split; [| apply Hveo; reflexivity].
  rewrite Hms, Hveo; reflexivity.
Defined.

(** ** Video status *)

Lemma stringify_defined (v : value) : v <> VUndefined -> exists s, Json.stringify v = Some s.
Proof. destruct v; intros Hv; try congruence; simpl; eauto. Qed.



(** [extractVideoUrl] gives a truthy value or [null]. *)
Lemma extractVideoUrl_truthy_or_null (item : value) :
  Js.truthy (ImageUtils.extractVideoUrl item) = true \/ ImageUtils.extractVideoUrl item = VNull.
Proof.
  unfold ImageUtils.extractVideoUrl.
  repeat match goal with
         | |- context [if Js.truthy ?v then _ else _] =>
             let E := fresh "E" in destruct (Js.truthy v) eqn:E; [by left |]
         end.
  by right.
Qed.

(** A truthy property read among the own properties is an own property. *)
Lemma has_own_of_truthy (v : value) (k : string) :
  Js.truthy (Js.get_prop v k) = true -> Js.has_own v k = true.
Proof.
  destruct v as [| | b | n | s | items | fields]; try discriminate.
  - cbn [Js.get_prop Js.has_own].
    destruct (String.eqb k "length"); [reflexivity |]. cbn [orb].
    destruct (Str.index_of_key k) as [i |]; [| discriminate].
    cbn [Js.get_index]. by destruct (Str.char_at _ _ _).
  - cbn [Js.get_prop Js.has_own].
    destruct (String.eqb k "length"); [reflexivity |]. cbn [orb].
    destruct (Str.index_of_key k) as [i |]; [| discriminate].
    intros Hitem. apply Nat.ltb_lt.
    destruct (Nat.lt_ge_cases i (length items)) as [Hlt | Hge]; [exact Hlt |].
    rewrite nth_overflow in Hitem by exact Hge. discriminate.
  - cbn [Js.get_prop Js.has_own].
    induction fields as [| [k' x] rest IH]; cbn [Js.assoc existsb fst]; [discriminate |].
    destruct (String.eqb k' k); [reflexivity | exact IH].
Qed.

Section Lookup.
Context `{Imports}.
Import Controller.

(** A truthy own property is what the lookup yields: nothing inherited can
    take its place. *)
Lemma found_own (v : value) (k : string) :
  Js.truthy (Js.get_prop v k) = true -> found v k = Data (Js.get_prop v k).
Proof. intros Hown. unfold found. by rewrite (has_own_of_truthy _ _ Hown). Qed.

Lemma member_by_key_defined (v : value) (k : string) :
  Js.nullish v = false -> member_by_key v k = Returned (found v k).
Proof. intros Hv. unfold member_by_key. by rewrite Hv. Qed.

(** On an object of the response the lookup finds the own field, else one
    of the twelve names of [Object.prototype], else nothing. *)
Lemma found_in_object (fields : list (string * value)) (k : string) :
  found (VObj fields) k =
    if Js.has_own (VObj fields) k then Data (Js.assoc k fields)
    else if existsb (String.eqb k) Js.object_prototype_keys then Builtin (VObj fields) k
    else Data VUndefined.
Proof. unfold found, inherits. by rewrite orb_false_r. Qed.

End Lookup.

Section VideoStatus.
Context `{Imports}.
Import Controller.

Lemma run_queryVideoTaskStatus world historyId tok :
  run world [] (queryVideoTaskStatus historyId tok) =
    let c := Request "post" history_path tok (HistoryByIds [historyId] false) in
    ([Event c (world _ [] c)], world _ [] c ≫= video_status_of historyId).
Proof.
  unfold queryVideoTaskStatus. rewrite run_bind, run_await. cbv zeta.
  destruct (world value [] _) as [result | e]; [| reflexivity].
  by rewrite run_lift.
Qed.

(** The status text, as a function of the raw code and of the URL found. *)
Lemma video_status_of_record historyId result st :
  record_truthy (found result historyId) = true ->
  video_status_of historyId result = Returned st ->
  let code := record_field (found result historyId) "status" in
  statusCode st = code /\
  status st =
    if Js.truthy (videoUrl st) then "completed"
    else if Js.is_num code 20 then "processing"
    else if Js.is_num code 10 || Js.is_num code 30 then "processing"
    else if Js.is_num code 50 then "failed"
    else "unknown".
Proof.
  intros Hrecord. unfold video_status_of.
  destruct (Json.stringify result) as [s |]; [| discriminate].
  unfold member_by_key. destruct (Js.nullish result); [discriminate |].
  cbn [mbind outcome_bind]. rewrite Hrecord. cbn [negb].
  match goal with
  | |- mbind _ ?o = _ -> _ => destruct o as [url | e]
  end; [| discriminate].
  cbn [mbind outcome_bind]. intros [= <-]. cbn [status statusCode videoUrl].
  split; [reflexivity |].
  destruct (Js.truthy url); [reflexivity |].
  destruct (Js.is_num _ 20); [reflexivity |].
  destruct (Js.is_num _ 10 || Js.is_num _ 30); reflexivity.
Qed.




End VideoStatus.

Section VideoStatusTable.
Context `{Imports}.
Import Controller.


(** C9. For a record whose raw code is none of 10, 20, 30 and 50 and from
    which no video URL was extracted, the status returned is the text
    unknown, which is outside the three documented states. *)
Theorem C9_video_status_unknown (world : env) historyId tok result st :
  world _ [] (Request "post" history_path tok (HistoryByIds [historyId] false))
    = Returned result ->
  outcome_of (run world [] (queryVideoTaskStatus historyId tok)) = Returned st ->
  let record := Js.get_prop result historyId in
  let code := Js.get_prop record "status" in
  Js.truthy record = true ->
  code <> VNum 10 -> code <> VNum 20 -> code <> VNum 30 -> code <> VNum 50 ->
  Js.truthy (videoUrl st) = false ->
  status st = "unknown" /\
  status st <> "processing" /\ status st <> "completed" /\ status st <> "failed".
Proof.
  intros Hworld Hst. cbv zeta. intros Hrecord H10 H20 H30 H50 Hurl.
  rewrite run_queryVideoTaskStatus in Hst. unfold outcome_of in Hst. cbn [snd] in Hst.
  rewrite Hworld in Hst. cbn [mbind outcome_bind] in Hst.
  pose proof (found_own _ _ Hrecord) as Hfound.
  assert (Htruthy : record_truthy (found result historyId) = true)
    by (by rewrite Hfound).
  destruct (video_status_of_record _ _ _ Htruthy Hst) as [_ Hstatus].
  rewrite Hfound in Hstatus. cbn [record_field] in Hstatus.
  rewrite Hurl in Hstatus.
  assert (Hno : forall n, Js.get_prop (Js.get_prop result historyId) "status" <> VNum n ->
                          Js.is_num (Js.get_prop (Js.get_prop result historyId) "status") n = false).
  { intros n Hn. destruct (Js.get_prop _ "status"); try reflexivity.
    simpl. apply Z.eqb_neq. congruence. }
  rewrite !Hno in Hstatus by assumption. cbn [orb] in Hstatus.
  rewrite Hstatus. repeat split; discriminate.
Qed.

(** A history id that names a property of [Object.prototype] finds a
    record in every object: without a URL the status is unknown, not
    processing, and the raw data is the built-in. *)
Example video_status_of_inherited_name :
  video_status_of "__proto__" (VObj [])
    = Returned (mkVideoTaskStatus "unknown" VUndefined (VNum 0) VNull (VNum 0)
                  (Builtin (VObj []) "__proto__"))
  /\ video_status_of "h-1" (VObj [])
      = Returned (mkVideoTaskStatus "processing" (VNum 20) (VNum 0) VNull (VNum 0) VNull).
Proof. split; reflexivity. Qed.

End VideoStatusTable.


(** A record with the undocumented code 42 and no URL is unknown. *)
Lemma C9_video_status_unknown_witness :
  let result := VObj [("h-1", VObj [("status", VNum 42)])] in
  let world := Sample.world None result in
  exists st,
    outcome_of (run world [] (Controller.queryVideoTaskStatus (H := Sample.imports) "h-1" "token"))
      = Returned st /\
    Controller.status st = "unknown".
Proof.
  cbv zeta. eexists. split; [vm_compute; reflexivity |].
  eapply proj1.
  eapply (C9_video_status_unknown (H := Sample.imports)
            (Sample.world None (VObj [("h-1", VObj [("status", VNum 42)])]))
            "h-1" "token" (VObj [("h-1", VObj [("status", VNum 42)])]));
    solve [vm_compute; reflexivity | vm_compute; discriminate].
Defined.

(** ** Image composition *)

Section Composition.
Context `{Imports}.
Import Controller.

Lemma upload_images_cons tok reg image rest acc :
  upload_images tok reg (image :: rest) acc =
    (try_catch (await (upload_of image tok reg))
       (fun error =>
          Throw (APIException API_IMAGE_GENERATION_FAILED
                   ("图片上传失败: " +:+ message error))))
    ≫= (fun imageId => upload_images tok reg rest (acc ++ [imageId])).
Proof. reflexivity. Qed.

Lemma requests_uploaded tok reg images ids : requests (uploaded tok reg images ids) = [].
Proof.
  revert ids. induction images as [| image rest IH]; intros [| id ids]; try reflexivity.
  unfold uploaded, requests in *. cbn [zip_with omap list_omap].
  destruct image; cbn [upload_of request_of]; apply IH.
Qed.

(** The loop either uploads every image in order, or stops at the first
    upload that raises. *)
Lemma run_upload_images world tok reg images : forall past acc,
  (exists ids,
      length ids = length images /\
      run world past (upload_images tok reg images acc)
        = (past ++ uploaded tok reg images ids, Returned (acc ++ ids)))
  \/
  (exists i image ids error,
      images !! i = Some image /\ length ids = i /\
      run world past (upload_images tok reg images acc)
        = (past ++ uploaded tok reg (take i images) ids
             ++ [Event (upload_of image tok reg) (Raised error)],
           Raised (APIException API_IMAGE_GENERATION_FAILED
                     ("图片上传失败: " +:+ message error)))).
Proof.
  induction images as [| image rest IH]; intros past acc.
  - left. exists []. split; [reflexivity |]. simpl. by rewrite !app_nil_r.
  - rewrite upload_images_cons, run_bind, run_try_catch, run_await.
    destruct (world string past (upload_of image tok reg)) as [id | error] eqn:Hreply.
    + destruct (IH (past ++ [Event (upload_of image tok reg) (Returned id)]) (acc ++ [id]))
        as [(ids & Hlen & Hrun) | (i & image' & ids & error & Hi & Hlen & Hrun)].
      * left. exists (id :: ids). split; [simpl; congruence |].
        rewrite Hrun, <- !app_assoc. reflexivity.
      * right. exists (S i), image', (id :: ids), error.
        split; [exact Hi |]. split; [simpl; congruence |].
        rewrite Hrun, <- !app_assoc. reflexivity.
    + right. exists 0%nat, image, [], error.
      split; [reflexivity |]. split; reflexivity.
Qed.

(** C5. [createImageCompositionTask] uploads the images one after the other
    in the order given.  Either every upload returns, and then the one
    request that follows carries the asset ids in the order of the images;
    or the upload of some image raises, and then nothing happens after it, no
    further upload and no request, and the task fails with the
    upload-failure error built from the message of what was raised. *)
Theorem C5_composition_uploads_in_order_or_aborts
    world _model prompt images options tok regionInfo names resolutionResult :
  parseRegionFromToken tok = Returned regionInfo ->
  getImageModel _model (isInternational regionInfo) = Returned names ->
  resolveResolution (snd names) regionInfo (default "2k" (io_resolution options))
    (default "1:1" (io_ratio options)) = Returned resolutionResult ->
  let r := run world [] (createImageCompositionTask _model prompt images options tok) in
  (exists ids reply,
      length ids = length images /\
      trace_of r =
        uploaded tok regionInfo images ids
        ++ [Event (Request "post" generate_path tok
                     (GenerateImage
                        (mkImageRequest (fst names) (snd names) prompt
                           (default "" (io_negativePrompt options))
                           (default (1 # 2)%Q (io_sampleStrength options))
                           resolutionResult
                           (default false (io_intelligentRatio options))
                           img2img ids regionInfo)))
                  reply] /\
      outcome_of r = (reply ≫= history_id_of))
  \/
  (exists i image ids error,
      images !! i = Some image /\ length ids = i /\
      trace_of r =
        uploaded tok regionInfo (take i images) ids
        ++ [Event (upload_of image tok regionInfo) (Raised error)] /\
      requests (trace_of r) = [] /\
      outcome_of r =
        Raised (APIException API_IMAGE_GENERATION_FAILED
                  ("图片上传失败: " +:+ message error))).
Proof.
  intros Hregion Hnames Hresolution. cbv zeta.
  unfold createImageCompositionTask.
  rewrite run_bind, run_lift, Hregion.
  rewrite run_bind, run_lift, Hnames.
  rewrite run_bind, run_lift, Hresolution.
  rewrite run_bind.
  destruct (run_upload_images world tok regionInfo images [] [])
    as [(ids & Hlen & Hrun) | (i & image & ids & error & Hi & Hlen & Hrun)];
    rewrite Hrun; cbn [app].
  - left. rewrite run_bind, run_await.
    match goal with
    | |- context [world value ?past ?c] => exists ids, (world value past c);
                                            destruct (world value past c) as [response | e]
    end.
    + rewrite run_lift. by repeat split.
    + by repeat split.
  - right. exists i, image, ids, error.
    unfold trace_of, outcome_of. cbn [fst snd].
    repeat split; try assumption.
    rewrite requests_app, requests_uploaded. by destruct image.
Qed.

End Composition.

(** Three images, the second upload refused: one upload, the failing one,
    and nothing else. *)
Lemma C5_composition_witness :
  let images := [ImageUrl "https://a/1.png"; ImageBuffer (Bytes []); ImageUrl "https://a/3.png"] in
  let r := run (Sample.world (Some 1%nat) Sample.accepted) []
             (Controller.createImageCompositionTask (H := Sample.imports)
                "jimeng-4.0" "blend" images Sample.no_image_options "token") in
  (exists i image ids error,
      images !! i = Some image /\ length ids = i /\
      trace_of r =
        Controller.uploaded "token" Sample.cn (take i images) ids
        ++ [Event (Controller.upload_of image "token" Sample.cn) (Raised error)] /\
      requests (trace_of r) = [] /\
      outcome_of r =
        Raised (APIException API_IMAGE_GENERATION_FAILED
                  ("图片上传失败: " +:+ message error))).
Proof.
  cbv zeta.
  destruct (C5_composition_uploads_in_order_or_aborts (H := Sample.imports)
              (Sample.world (Some 1%nat) Sample.accepted) "jimeng-4.0" "blend"
              [ImageUrl "https://a/1.png"; ImageBuffer (Bytes []); ImageUrl "https://a/3.png"]
              Sample.no_image_options "token" Sample.cn ("jimeng-4.0", "jimeng-4.0")
              (mkResolutionSpec 2048 2048 "2k") eq_refl eq_refl eq_refl)
    as [(ids & reply & Hlen & Htrace & _) | Haborted].
  - exfalso. apply (f_equal (@length event)) in Htrace.
    rewrite length_app in Htrace. unfold Controller.uploaded in Htrace.
    rewrite length_zip_with in Htrace. rewrite Hlen in Htrace.
    vm_compute in Htrace. discriminate.
  - exact Haborted.
Defined.

(** ** Video frames *)

Section VideoFrames.
Context `{Imports}.
Import Controller.

(** One turn of either loop: the identifier is kept when the upload
    returns a truthy one; an error is fatal at index 0 and dropped later. *)
Lemma run_frame_step world past (p : prog string) i ids :
  run world past
      (try_catch (imageUri ← p; Ret (push_if_truthy ids imageUri)) (first_frame_only i ids))
    = match run world past p with
      | (tr, Returned imageUri) => (tr, Returned (push_if_truthy ids imageUri))
      | (tr, Raised error) =>
          if (i =? 0)%nat then
            (tr, Raised (APIException API_REQUEST_FAILED
                           ("首帧图片上传失败: " +:+ message error)))
          else (tr, Returned ids)
      end.
Proof.
  rewrite run_try_catch, run_bind.
  destruct (run world past p) as [tr [imageUri | error]]; [reflexivity |].
  unfold first_frame_only. destruct (i =? 0)%nat; reflexivity.
Qed.

Lemma run_upload_files_some world past tok reg i file rest ids :
  run world past (upload_files tok reg i (Some file :: rest) ids)
    = match run world past (uploadImageFromFile file tok reg) with
      | (tr, Returned imageUri) =>
          run world tr (upload_files tok reg (S i) rest (push_if_truthy ids imageUri))
      | (tr, Raised error) =>
          if (i =? 0)%nat then
            (tr, Raised (APIException API_REQUEST_FAILED
                           ("首帧图片上传失败: " +:+ message error)))
          else run world tr (upload_files tok reg (S i) rest ids)
      end.
Proof.
  rewrite upload_files_some, run_bind, run_frame_step.
  destruct (run world past (uploadImageFromFile file tok reg)) as [tr [imageUri | error]];
    [reflexivity |].
  destruct (i =? 0)%nat; reflexivity.
Qed.

Lemma run_upload_paths_truthy world past tok reg i filePath rest ids :
  Js.truthy filePath = true ->
  run world past (upload_paths tok reg i (filePath :: rest) ids)
    = match run world past (upload_path filePath tok reg) with
      | (tr, Returned imageUri) =>
          run world tr (upload_paths tok reg (S i) rest (push_if_truthy ids imageUri))
      | (tr, Raised error) =>
          if (i =? 0)%nat then
            (tr, Raised (APIException API_REQUEST_FAILED
                           ("首帧图片上传失败: " +:+ message error)))
          else run world tr (upload_paths tok reg (S i) rest ids)
      end.
Proof.
  intros Htruthy.
  rewrite upload_paths_cons, Htruthy. cbn [negb].
  rewrite run_bind, run_frame_step.
  destruct (run world past (upload_path filePath tok reg)) as [tr [imageUri | error]];
    [reflexivity |].
  destruct (i =? 0)%nat; reflexivity.
Qed.

Lemma upload_paths_falsy tok reg i filePath rest ids :
  Js.truthy filePath = false ->
  upload_paths tok reg i (filePath :: rest) ids = upload_paths tok reg (S i) rest ids.
Proof. intros Hfalsy. by rewrite upload_paths_cons, Hfalsy. Qed.



Lemma upload_frames_files tok reg file files paths :
  upload_frames tok reg (file :: files) paths = upload_files tok reg 0 (file :: files) [].
Proof. reflexivity. Qed.

Lemma upload_frames_paths tok reg filePath paths :
  upload_frames tok reg [] (filePath :: paths) = upload_paths tok reg 0 (filePath :: paths) [].
Proof. reflexivity. Qed.

End VideoFrames.

Section VideoFramePolicy.
Context `{Imports}.
Import Controller.

(** Once the loops returned, the task sends its one request. *)
Lemma video_task_submits world _model prompt options tok regionInfo model tr uploadIDs :
  parseRegionFromToken tok = Returned regionInfo ->
  getVideoModel _model regionInfo = Returned model ->
  run world [] (upload_frames tok regionInfo (default [] (vo_files options))
                  (default [] (vo_filePaths options))) = (tr, Returned uploadIDs) ->
  exists reply,
    run world [] (createVideoGenerationTask _model prompt options tok)
      = (tr ++ [Event (Request "post" generate_path tok
                         (GenerateVideo
                            (video_payload model prompt (default "1:1" (vo_ratio options))
                               (default "720p" (vo_resolution options))
                               (default 5 (vo_duration options)) uploadIDs regionInfo)))
                      reply],
         reply ≫= video_history_id_of).
Proof.
  intros Hregion Hmodel Hloop.
  rewrite run_createVideoGenerationTask, Hregion, Hmodel, Hloop. cbv zeta. eauto.
Qed.



(** C10. A falsy entry of [filePaths] is passed over without an error and
    without a call.  With a falsy entry at index 0 and a second entry whose
    upload returns a truthy identifier, that identifier is the only element
    of the upload list, fills the first-frame slot, and the end-frame slot
    stays empty.  The second entry sits at index 1, so when its upload raises
    the task is not aborted: it sends its request without any frame. *)
Theorem C10_falsy_first_path_moves_second_image_to_first_frame
    world _model prompt options tok regionInfo model first second :
  parseRegionFromToken tok = Returned regionInfo ->
  getVideoModel _model regionInfo = Returned model ->
  default [] (vo_files options) = [] ->
  default [] (vo_filePaths options) = [first; second] ->
  Js.truthy first = false ->
  Js.truthy second = true ->
  let task := createVideoGenerationTask _model prompt options tok in
  let payload uploadIDs :=
    video_payload model prompt (default "1:1" (vo_ratio options))
      (default "720p" (vo_resolution options)) (default 5 (vo_duration options))
      uploadIDs regionInfo in
  (forall i rest ids,
      upload_paths tok regionInfo i (first :: rest) ids
        = upload_paths tok regionInfo (S i) rest ids) /\
  (forall tr imageUri,
      run world [] (upload_path second tok regionInfo) = (tr, Returned imageUri) ->
      Js.truthy (VStr imageUri) = true ->
      (exists reply,
          run world [] task
            = (tr ++ [Event (Request "post" generate_path tok (GenerateVideo (payload [imageUri])))
                            reply],
               reply ≫= video_history_id_of)) /\
      vr_first_frame_image (payload [imageUri]) = Some imageUri /\
      vr_end_frame_image (payload [imageUri]) = None) /\
  (forall tr error,
      run world [] (upload_path second tok regionInfo) = (tr, Raised error) ->
      (exists reply,
          run world [] task
            = (tr ++ [Event (Request "post" generate_path tok (GenerateVideo (payload [])))
                            reply],
               reply ≫= video_history_id_of)) /\
      vr_first_frame_image (payload []) = None /\
      vr_end_frame_image (payload []) = None).
Proof.
  intros Hregion Hmodel Hfiles Hpaths Hfirst Hsecond. cbv zeta.
  split; [| split].
  - intros i rest ids. by apply upload_paths_falsy.
  - intros tr imageUri Hupload Hid.
    split; [| split].
    + eapply video_task_submits; eauto.
      rewrite Hfiles, Hpaths, upload_frames_paths, upload_paths_falsy by assumption.
      rewrite run_upload_paths_truthy, Hupload by assumption.
      unfold push_if_truthy. rewrite Hid. reflexivity.
    + unfold video_payload, first_frame_image, frame. simpl. simpl in Hid. by rewrite Hid.
    + reflexivity.
  - intros tr error Hupload.
    split; [| split]; [| reflexivity | reflexivity].
    eapply video_task_submits; eauto.
    rewrite Hfiles, Hpaths, upload_frames_paths, upload_paths_falsy by assumption.
    rewrite run_upload_paths_truthy, Hupload by assumption.
    reflexivity.
Qed.

End VideoFramePolicy.


(** What that run looks like: both files are read, the second upload is the
    last call before the request, and only the first frame is set. *)
Example video_second_upload_refused :
  let r := run (Sample.world (Some 1%nat) Sample.accepted) []
             (Controller.createVideoGenerationTask (H := Sample.imports)
                "jimeng-video-3.0" "a cat"
                (Sample.video_options_with None []
                   [Some (mkFile "first.png" "/tmp/upload-1");
                    Some (mkFile "end.png" "/tmp/upload-2")])
                "token") in
  length (List.filter is_upload (trace_of r)) = 2%nat /\
  requests (trace_of r)
    = [GenerateVideo (Controller.video_payload "jimeng-video-3.0" "a cat" "1:1" "720p" 5
                        ["asset-0"] Sample.cn)] /\
  outcome_of r = Returned (VStr "h-1").
Proof. vm_compute. repeat split. Qed.

(** And with the first upload refused: one upload, no request. *)
Example video_first_upload_refused :
  let r := run (Sample.world (Some 0%nat) Sample.accepted) []
             (Controller.createVideoGenerationTask (H := Sample.imports)
                "jimeng-video-3.0" "a cat"
                (Sample.video_options_with None []
                   [Some (mkFile "first.png" "/tmp/upload-1");
                    Some (mkFile "end.png" "/tmp/upload-2")])
                "token") in
  length (List.filter is_upload (trace_of r)) = 1%nat /\
  requests (trace_of r) = [] /\
  outcome_of r
    = Raised (APIException API_REQUEST_FAILED "首帧图片上传失败: upload refused").
Proof. vm_compute. repeat split. Qed.

(** An empty first path, then a URL whose upload succeeds. *)
Lemma C10_falsy_first_path_witness :
  let options :=
    Sample.video_options_with None [VStr ""; VStr "https://a/end.png"] [] in
  let world := Sample.world None Sample.accepted in
  parseRegionFromToken (Imports := Sample.imports) "token" = Returned Sample.cn /\
  getVideoModel (Imports := Sample.imports) "jimeng-video-3.0" Sample.cn
    = Returned "jimeng-video-3.0" /\
  Js.truthy (VStr "") = false /\
  Js.truthy (VStr "https://a/end.png") = true /\
  exists tr reply,
    run world [] (Controller.createVideoGenerationTask (H := Sample.imports)
                    "jimeng-video-3.0" "a cat" options "token")
      = (tr ++ [Event (Request "post" Controller.generate_path "token"
                         (GenerateVideo
                            (Controller.video_payload "jimeng-video-3.0" "a cat" "1:1" "720p" 5
                               ["asset-0"] Sample.cn)))
                      reply],
         reply ≫= Controller.video_history_id_of) /\
    vr_first_frame_image
      (Controller.video_payload "jimeng-video-3.0" "a cat" "1:1" "720p" 5 ["asset-0"] Sample.cn)
      = Some "asset-0".
Proof.
  cbv zeta. repeat (split; [reflexivity |]).
  destruct (C10_falsy_first_path_moves_second_image_to_first_frame (H := Sample.imports)
              (Sample.world None Sample.accepted) "jimeng-video-3.0" "a cat"
              (Sample.video_options_with None [VStr ""; VStr "https://a/end.png"] [])
              "token" Sample.cn "jimeng-video-3.0" (VStr "") (VStr "https://a/end.png")
              eq_refl eq_refl eq_refl eq_refl eq_refl eq_refl)
    as (_ & Hsecond & _).
  destruct (Hsecond [Event (AxiosGet "https://a/end.png")
                       (Returned (mkHttpResponse 200 (Bytes [])));
                     Event (UploadImageBuffer (Bytes []) "token" Sample.cn)
                       (Returned "asset-0")]
              "asset-0" eq_refl eq_refl)
    as ((reply & Hrun) & Hfirst & _).
  eexists _, reply. split; [exact Hrun | exact Hfirst].
Defined.

(** ** The history id of a submission *)

Section HistoryId.
Context `{Imports}.
Import Controller.

(** What the two image tasks do with a response that lacks the id: the
    optional chaining turns a missing [aigc_data] into a missing id. *)
Lemma history_id_of_missing response :
  Js.nullish response = false ->
  Js.truthy (Js.opt_prop (Js.get_prop response "aigc_data") "history_record_id") = false ->
  history_id_of response = Raised (APIException API_IMAGE_GENERATION_FAILED "记录ID不存在").
Proof.
  intros Hresponse Hid. unfold history_id_of, destructure_aigc_data.
  rewrite Hresponse. cbn [mbind outcome_bind]. by rewrite Hid.
Qed.

(** The video task does the same only when [aigc_data] is there. *)
Lemma video_history_id_of_missing response :
  Js.nullish response = false ->
  Js.nullish (Js.get_prop response "aigc_data") = false ->
  Js.truthy (Js.get_prop (Js.get_prop response "aigc_data") "history_record_id") = false ->
  video_history_id_of response
    = Raised (APIException API_IMAGE_GENERATION_FAILED "记录ID不存在").
Proof.
  intros Hresponse Hdata Hid. unfold video_history_id_of, destructure_aigc_data, member.
  rewrite Hresponse. cbn [mbind outcome_bind]. rewrite Hdata. cbn [mbind outcome_bind].
  by rewrite Hid.
Qed.

Lemma video_history_id_of_no_aigc_data response :
  Js.nullish response = false ->
  Js.nullish (Js.get_prop response "aigc_data") = true ->
  video_history_id_of response
    = Raised (TypeError "Cannot read properties of null or undefined").
Proof.
  intros Hresponse Hdata. unfold video_history_id_of, destructure_aigc_data, member.
  rewrite Hresponse. cbn [mbind outcome_bind]. by rewrite Hdata.
Qed.

Lemma history_id_of_truthy response id :
  history_id_of response = Returned id -> Js.truthy id = true.
Proof.
  unfold history_id_of, destructure_aigc_data.
  destruct (Js.nullish response); [discriminate |]. cbn [mbind outcome_bind].
  destruct (Js.truthy (Js.opt_prop _ _)) eqn:Hid; cbn [negb]; [| discriminate].
  by intros [= <-].
Qed.

Lemma video_history_id_of_truthy response id :
  video_history_id_of response = Returned id -> Js.truthy id = true.
Proof.
  unfold video_history_id_of, destructure_aigc_data, member.
  destruct (Js.nullish response); [discriminate |]. cbn [mbind outcome_bind].
  destruct (Js.nullish (Js.get_prop response "aigc_data")); [discriminate |].
  cbn [mbind outcome_bind].
  destruct (Js.truthy (Js.get_prop _ _)) eqn:Hid; cbn [negb]; [| discriminate].
  by intros [= <-].
Qed.

Lemma run_createImageGenerationTask world _model prompt options tok :
  exists tr reply,
    run world [] (createImageGenerationTask _model prompt options tok) = (tr, reply) /\
    forall id, reply = Returned id -> Js.truthy id = true.
Proof.
  unfold createImageGenerationTask.
  rewrite run_bind, run_lift.
  destruct (parseRegionFromToken tok) as [regionInfo | e]; [| by eexists _, _].
  rewrite run_bind, run_lift.
  destruct (getImageModel _ _) as [names | e]; [| by eexists _, _].
  rewrite run_bind, run_lift.
  destruct (resolveResolution _ _ _ _) as [resolutionResult | e]; [| by eexists _, _].
  rewrite run_bind, run_await.
  match goal with
  | |- context [world value ?past ?c] => destruct (world value past c) as [response | e]
  end; [| by eexists _, _].
  rewrite run_lift. eexists _, _. split; [reflexivity |].
  apply history_id_of_truthy.
Qed.

(** X11. No task of the three ever returns a falsy history id: a task that
    returns has a history id that is neither missing nor empty. *)
Theorem history_id_never_falsy world _model prompt images options voptions tok id :
  (outcome_of (run world [] (createImageGenerationTask _model prompt options tok)) = Returned id
   \/ outcome_of (run world [] (createImageCompositionTask _model prompt images options tok))
        = Returned id
   \/ outcome_of (run world [] (createVideoGenerationTask _model prompt voptions tok))
        = Returned id) ->
  Js.truthy id = true.
Proof.
  intros [Hid | [Hid | Hid]].
  - destruct (run_createImageGenerationTask world _model prompt options tok)
      as (tr & reply & Hrun & Htruthy).
    rewrite Hrun in Hid. by apply Htruthy.
  - unfold createImageCompositionTask in Hid.
    rewrite run_bind, run_lift in Hid.
    destruct (parseRegionFromToken tok) as [regionInfo | e]; [| discriminate].
    rewrite run_bind, run_lift in Hid.
    destruct (getImageModel _ _) as [names | e]; [| discriminate].
    rewrite run_bind, run_lift in Hid.
    destruct (resolveResolution _ _ _ _) as [resolutionResult | e]; [| discriminate].
    rewrite run_bind in Hid.
    destruct (run world [] (upload_images _ _ _ _)) as [tr [ids | e]]; [| discriminate].
    rewrite run_bind, run_await in Hid.
    match type of Hid with
    | context [world value ?past ?c] => destruct (world value past c) as [response | e]
    end; [| discriminate].
    rewrite run_lift in Hid. by eapply history_id_of_truthy.
  - rewrite run_createVideoGenerationTask in Hid.
    destruct (parseRegionFromToken tok) as [regionInfo | e]; [| discriminate].
    destruct (getVideoModel _ _) as [model | e]; [| discriminate].
    destruct (run world [] (upload_frames _ _ _ _)) as [tr [ids | e]]; [| discriminate].
    cbv zeta in Hid. unfold outcome_of in Hid. cbn [snd] in Hid.
    match type of Hid with
    | context [world value ?past ?c] => destruct (world value past c) as [response | e]
    end; [| discriminate].
    by eapply video_history_id_of_truthy.
Qed.

End HistoryId.

(** C6. A vendor response without [aigc_data]: the two image tasks raise the
    submission failure (record id missing), the video task raises a
    [TypeError] instead, because it reads [aigc_data.history_record_id]
    without the optional chaining that the image tasks use. *)
Theorem C6_video_task_without_aigc_data_raises_type_error :
  let world := Sample.world None (VObj []) in
  outcome_of (run world [] (Controller.createImageGenerationTask (H := Sample.imports)
                              "jimeng-4.0" "a cat" Sample.no_image_options "token"))
    = Raised (APIException API_IMAGE_GENERATION_FAILED "记录ID不存在") /\
  outcome_of (run world [] (Controller.createImageCompositionTask (H := Sample.imports)
                              "jimeng-4.0" "a cat" [ImageUrl "https://a/1.png"]
                              Sample.no_image_options "token"))
    = Raised (APIException API_IMAGE_GENERATION_FAILED "记录ID不存在") /\
  outcome_of (run world [] (Controller.createVideoGenerationTask (H := Sample.imports)
                              "jimeng-video-3.0" "a cat"
                              (Sample.video_options_with None [] []) "token"))
    = Raised (TypeError "Cannot read properties of null or undefined").
Proof. vm_compute. repeat split. Qed.

(** ** Un-escaping of the ampersand *)

Lemma strip_prefix_app (p s rest : string) :
  Str.strip_prefix p s = Some rest -> s = p +:+ rest.
Proof.
  revert s. induction p as [| a p IH]; intros s Hs; simpl in Hs.
  - by injection Hs as ->.
  - destruct s as [| b s]; [discriminate |].
    destruct (Ascii.eqb a b) eqn:Hab; [| discriminate].
    apply Ascii.eqb_eq in Hab as ->.
    change (String b s = String b (p +:+ rest)). f_equal. by apply IH.
Qed.

Lemma string_length_app (s t : string) :
  String.length (s +:+ t) = (String.length s + String.length t)%nat.
Proof.
  induction s as [| a s IH]; [reflexivity |].
  change (S (String.length (s +:+ t)) = S (String.length s + String.length t)).
  by rewrite IH.
Qed.

Ltac split_ascii c := destruct c as [[] [] [] [] [] [] [] []].

(** The scan of [unescape_amp], stated with a prefix test. *)
Lemma unescape_amp_unfold (s : string) :
  Str.unescape_amp s =
    match Str.strip_prefix Str.escaped_amp s with
    | Some rest => String "&" (Str.unescape_amp rest)
    | None =>
        match s with
        | EmptyString => EmptyString
        | String c rest => String c (Str.unescape_amp rest)
        end
    end.
Proof.
  unfold Str.escaped_amp.
  destruct s as [| c0 s]; [reflexivity |]. split_ascii c0; try reflexivity.
  destruct s as [| c1 s]; [reflexivity |]. split_ascii c1; try reflexivity.
  destruct s as [| c2 s]; [reflexivity |]. split_ascii c2; try reflexivity.
  destruct s as [| c3 s]; [reflexivity |]. split_ascii c3; try reflexivity.
  destruct s as [| c4 s]; [reflexivity |]. split_ascii c4; try reflexivity.
  destruct s as [| c5 s]; [reflexivity |]. split_ascii c5; reflexivity.
Qed.

(** A character of the result other than the ampersand was copied. *)
Lemma unescape_amp_copied (s t : string) (a : ascii) :
  Str.unescape_amp s = String a t -> a <> "&"%char ->
  exists s', s = String a s' /\ t = Str.unescape_amp s'
             /\ Str.strip_prefix Str.escaped_amp s = None.
Proof.
  intros Hs Ha. rewrite unescape_amp_unfold in Hs.
  destruct (Str.strip_prefix Str.escaped_amp s) as [rest |].
  - injection Hs as <- _. congruence.
  - destruct s as [| c s']; [discriminate |].
    injection Hs as -> <-. by exists s'.
Qed.

Lemma unescape_amp_nonempty (s : string) : s <> "" -> Str.unescape_amp s <> "".
Proof.
  intros Hs. rewrite unescape_amp_unfold.
  destruct (Str.strip_prefix Str.escaped_amp s); [discriminate |].
  destruct s; [congruence | discriminate].
Qed.

Lemma unescape_amp_leaves_no_escape_up_to (n : nat) : forall s pre post,
  (String.length s <= n)%nat ->
  Str.unescape_amp s <> pre +:+ Str.escaped_amp +:+ post.
Proof.
  induction n as [| n IH]; intros s pre post Hlen Heq.
  - destruct s; [| simpl in Hlen; lia].
    destruct pre; discriminate.
  - rewrite unescape_amp_unfold in Heq.
    destruct (Str.strip_prefix Str.escaped_amp s) as [rest |] eqn:Hstrip.
    + apply strip_prefix_app in Hstrip. subst s.
      destruct pre as [| c pre]; [discriminate |].
      injection Heq as _ Heq. apply (IH rest pre post); [| exact Heq].
      rewrite string_length_app in Hlen. simpl in Hlen. lia.
    + destruct s as [| c rest]; [destruct pre; discriminate |].
      destruct pre as [| c' pre].
      * injection Heq as -> Heq.
        apply unescape_amp_copied in Heq as (r1 & -> & Heq & _); [| discriminate].
        symmetry in Heq.
        apply unescape_amp_copied in Heq as (r2 & -> & Heq & _); [| discriminate].
        symmetry in Heq.
        apply unescape_amp_copied in Heq as (r3 & -> & Heq & _); [| discriminate].
        symmetry in Heq.
        apply unescape_amp_copied in Heq as (r4 & -> & Heq & _); [| discriminate].
        symmetry in Heq.
        apply unescape_amp_copied in Heq as (r5 & -> & Heq & _); [| discriminate].
        discriminate Hstrip.
      * injection Heq as _ Heq. apply (IH rest pre post); [| exact Heq].
        simpl in Hlen. lia.
Qed.

(** What [unescape_amp] returns holds no escaped ampersand any more. *)
Lemma unescape_amp_leaves_no_escape (s : string) :
  ~ Str.occurs Str.escaped_amp (Str.unescape_amp s).
Proof.
  intros (pre & post & Heq).
  by apply (unescape_amp_leaves_no_escape_up_to (String.length s) s pre post).
Qed.

Example unescape_amp_vendor_url :
  Str.unescape_amp "https://p.example/img?x=1\u0026y=2\u0026z=3"
    = "https://p.example/img?x=1&y=2&z=3".
Proof. reflexivity. Qed.

(** ** The flavours of an image URL *)

Lemma truthy_string (s : string) : Js.truthy (VStr s) = true <-> s <> "".
Proof.
  simpl. rewrite negb_true_iff. split.
  - intros Hs ->. by rewrite String.eqb_refl in Hs.
  - intros Hs. by apply String.eqb_neq.
Qed.

Lemma replace_amp_returned (x : value) (u : string) :
  ImageUtils.replace_amp x = Returned u -> exists raw, x = VStr raw /\ u = Str.unescape_amp raw.
Proof. destruct x; try discriminate. intros [= <-]. eauto. Qed.

Lemma index_of_key_sound (k : string) (i : nat) :
  Str.index_of_key k = Some i -> k = Str.string_of_nat i.
Proof.
  unfold Str.index_of_key.
  destruct (NilEmpty.uint_of_string k) as [u |]; [| discriminate].
  destruct (String.eqb _ k) eqn:Hk; [| discriminate].
  intros [= <-]. symmetry. by apply String.eqb_eq.
Qed.

Lemma assoc_truthy_in (k : string) (fields : list (string * value)) :
  Js.truthy (Js.assoc k fields) = true -> In k (map fst fields).
Proof.
  induction fields as [| [k' v] rest IH]; simpl; [discriminate |].
  destruct (String.eqb k' k) eqn:Hk; [| auto].
  apply String.eqb_eq in Hk. auto.
Qed.

(** A truthy entry of an object or an array is listed by [Object.keys]. *)
Lemma truthy_entry_is_listed (coverMap : value) (k : string) :
  Js.typeof_object coverMap = true -> k <> "length" ->
  Js.truthy (Js.get_prop coverMap k) = true -> In k (Js.keys coverMap).
Proof.
  intros Hobject Hk Htruthy. destruct coverMap; try discriminate.
  - unfold Js.get_prop in Htruthy. apply String.eqb_neq in Hk. rewrite Hk in Htruthy.
    destruct (Str.index_of_key k) as [i |] eqn:Hi; [| discriminate].
    apply index_of_key_sound in Hi as ->.
    unfold Js.keys. apply in_map, in_seq. split; [lia |]. simpl.
    destruct (Nat.lt_ge_cases i (length items)) as [Hlt | Hge]; [exact Hlt |].
    rewrite nth_overflow in Htruthy by exact Hge. discriminate.
  - by apply assoc_truthy_in.
Qed.

Section Sizes.
Import ImageUrlInfoOf.
Variable coverMap : value.

Lemma collect_sizes_spec (keys : list string) : forall (acc sizes : gmap string string),
  collect_sizes coverMap keys acc = Returned sizes ->
  (forall k u, sizes !! k = Some u ->
     acc !! k = Some u \/
     (In k keys /\ exists raw, Js.get_prop coverMap k = VStr raw /\ raw <> ""
                               /\ u = Str.unescape_amp raw)) /\
  (forall k raw, In k keys -> k <> "__proto__" ->
     Js.get_prop coverMap k = VStr raw -> raw <> "" ->
     sizes !! k = Some (Str.unescape_amp raw)) /\
  (forall k u, ~ In k keys -> acc !! k = Some u -> sizes !! k = Some u).
Proof.
  induction keys as [| key rest IH]; intros acc sizes Hsizes; simpl in Hsizes.
  - injection Hsizes as <-. repeat split; auto. intros k raw [].
  - destruct (Js.truthy (Js.get_prop coverMap key)) eqn:Htruthy.
    + destruct (ImageUtils.replace_amp (Js.get_prop coverMap key)) as [u |] eqn:Hreplace;
        [| discriminate].
      apply replace_amp_returned in Hreplace as (raw & Hraw & ->).
      rewrite Hraw in Htruthy. apply truthy_string in Htruthy.
      destruct (IH _ _ Hsizes) as (Hsound & Hcomplete & Hkept).
      destruct (String.eqb key "__proto__") eqn:Hproto.
      { apply String.eqb_eq in Hproto.
        split; [| split].
        - intros k u Hk. destruct (Hsound k u Hk) as [Hacc | (Hin & Hrest)]; [by left |].
          right. split; [by right | exact Hrest].
        - intros k raw' [-> | Hin] Hk Hraw' Hnonempty; [congruence | by eapply Hcomplete].
        - intros k u Hout Hacc.
          apply Hkept; [intros Hin; apply Hout; by right | exact Hacc]. }
      split; [| split].
      * intros k u Hk. destruct (Hsound k u Hk) as [Hacc | (Hin & Hrest)].
        -- destruct (decide (key = k)) as [-> | Hne].
           ++ rewrite lookup_insert_eq in Hacc. injection Hacc as <-.
              right. split; [by left | eauto].
           ++ rewrite lookup_insert_ne in Hacc by done. by left.
        -- right. split; [by right | exact Hrest].
      * intros k raw' [-> | Hin] Hk Hraw' Hnonempty.
        -- destruct (in_dec string_dec k rest) as [Hin | Hout]; [by eapply Hcomplete |].
           rewrite Hraw in Hraw'. injection Hraw' as <-.
           apply Hkept; [exact Hout | apply lookup_insert_eq].
        -- by eapply Hcomplete.
      * intros k u Hout Hacc.
        apply Hkept; [intros Hin; apply Hout; by right |].
        rewrite lookup_insert_ne; [exact Hacc | intros ->; apply Hout; by left].
    + destruct (IH _ _ Hsizes) as (Hsound & Hcomplete & Hkept).
      split; [| split].
      * intros k u Hk. destruct (Hsound k u Hk) as [Hacc | (Hin & Hrest)]; [by left |].
        right. split; [by right | exact Hrest].
      * intros k raw [-> | Hin] Hk Hraw Hnonempty; [| by eapply Hcomplete].
        rewrite Hraw in Htruthy. apply truthy_string in Hnonempty. congruence.
      * intros k u Hout Hacc.
        apply Hkept; [intros Hin; apply Hout; by right | exact Hacc].
Qed.

End Sizes.

Lemma pick_long_first (sizes : gmap string string) (before after : list string)
    (sizeKey u : string) :
  (forall k, In k before -> sizes !! k = None) ->
  sizes !! sizeKey = Some u -> u <> "" ->
  ImageUrlInfoOf.pick_long sizes (before ++ sizeKey :: after) = Some u.
Proof.
  intros Hbefore Hkey Hu. induction before as [| k before IH]; simpl.
  - rewrite Hkey. apply truthy_string in Hu. simpl in Hu. by rewrite Hu.
  - rewrite (Hbefore k) by (by left). apply IH. intros k' Hk'. apply Hbefore. by right.
Qed.

Lemma pick_long_none (sizes : gmap string string) (keys : list string) :
  (forall k, In k keys -> sizes !! k = None) -> ImageUrlInfoOf.pick_long sizes keys = None.
Proof.
  induction keys as [| k keys IH]; intros Hnone; simpl; [reflexivity |].
  rewrite (Hnone k) by (by left). apply IH. intros k' Hk'. apply Hnone. by right.
Qed.

Lemma pick_long_is_entry (sizes : gmap string string) (keys : list string) (u : string) :
  ImageUrlInfoOf.pick_long sizes keys = Some u -> exists k, In k keys /\ sizes !! k = Some u.
Proof.
  induction keys as [| k keys IH]; simpl; [discriminate |].
  destruct (sizes !! k) as [v |] eqn:Hk.
  - destruct (negb (String.eqb v "")).
    + intros [= <-]. exists k. split; [by left | exact Hk].
    + intros Hu. destruct (IH Hu) as (k' & Hin & Hk'). exists k'. split; [by right | exact Hk'].
  - intros Hu. destruct (IH Hu) as (k' & Hin & Hk'). exists k'. split; [by right | exact Hk'].
Qed.

Lemma flavour_returned (x : value) (u : string) :
  ImageUrlInfoOf.flavour x = Returned (Some u) ->
  exists raw, x = VStr raw /\ u = Str.unescape_amp raw.
Proof.
  unfold ImageUrlInfoOf.flavour. destruct (Js.truthy x); [| discriminate].
  destruct (ImageUtils.replace_amp x) as [v |] eqn:Hx; [| discriminate].
  intros [= <-]. by apply replace_amp_returned.
Qed.

Section ImageUrlInfoFlavours.
Import ImageUrlInfoOf.

(** C7. [extractImageUrlInfo] takes the long-lived webp from the cover map
    by trying the keys 2400, 1080, 720, 480, 360 in that order and keeping
    the first one that holds a URL; there is none when no key holds one or
    when the cover map is not an object.  Every string it returns, png, webp,
    each entry of webp_sizes and webp_long, is the vendor's string with each
    escaped ampersand replaced by an ampersand, and holds no escaped
    ampersand any more. *)
Theorem C7_long_webp_by_size_priority_and_unescaped_urls (item : value) (info : ImageUrlInfo) :
  extractImageUrlInfo item = Returned info ->
  let coverMap := cover_url_map item in
  (Js.truthy coverMap && Js.typeof_object coverMap = true ->
     (forall before sizeKey after raw,
         normalSizeKeys = before ++ sizeKey :: after ->
         (forall k, In k before -> Js.truthy (Js.get_prop coverMap k) = false) ->
         Js.get_prop coverMap sizeKey = VStr raw -> raw <> "" ->
         webp_long info = Some (Str.unescape_amp raw)) /\
     ((forall k, In k normalSizeKeys -> Js.truthy (Js.get_prop coverMap k) = false) ->
      webp_long info = None)) /\
  (Js.truthy coverMap && Js.typeof_object coverMap = false ->
     webp_long info = None /\ webp_sizes info = ∅) /\
  (forall u, png info = Some u ->
     exists raw, ImageUtils.large_image_url item = VStr raw /\ u = Str.unescape_amp raw) /\
  (forall u, webp info = Some u ->
     exists raw, cover_url item = VStr raw /\ u = Str.unescape_amp raw) /\
  (forall k u, webp_sizes info !! k = Some u ->
     exists raw, Js.get_prop coverMap k = VStr raw /\ u = Str.unescape_amp raw) /\
  (forall u, webp_long info = Some u ->
     exists k, In k normalSizeKeys /\ webp_sizes info !! k = Some u) /\
  (forall raw, ~ Str.occurs Str.escaped_amp (Str.unescape_amp raw)).
Proof.
  intros Hinfo. cbv zeta. unfold extractImageUrlInfo in Hinfo.
  destruct (flavour (ImageUtils.large_image_url item)) as [the_png |] eqn:Hpng; [| discriminate].
  destruct (flavour (cover_url item)) as [the_webp |] eqn:Hwebp; [| discriminate].
  destruct (Js.truthy (cover_url_map item) && Js.typeof_object (cover_url_map item))
    eqn:Hobject.
  - destruct (collect_sizes (cover_url_map item) (Js.keys (cover_url_map item)) ∅)
      as [sizes |] eqn:Hsizes; [| discriminate].
    assert (Hshape : info = mkImageUrlInfo the_png the_webp
                              (pick_long sizes normalSizeKeys) sizes) by congruence.
    subst info. clear Hinfo. cbn [png webp webp_long webp_sizes].
    destruct (collect_sizes_spec _ _ _ _ Hsizes) as (Hsound & Hcomplete & _).
    assert (Hfalsy : forall k, Js.truthy (Js.get_prop (cover_url_map item) k) = false ->
                               sizes !! k = None).
    { intros k Hk. destruct (sizes !! k) as [u |] eqn:Hu; [| reflexivity].
      destruct (Hsound k u Hu) as [Hempty | (_ & raw & Hraw & Hnonempty & _)].
      - by rewrite lookup_empty in Hempty.
      - rewrite Hraw in Hk. apply truthy_string in Hnonempty. congruence. }
    apply andb_true_iff in Hobject as [_ Hobject].
    split; [| split; [| split; [| split; [| split; [| split]]]]].
    + intros _. split.
      * intros before sizeKey after raw Hsplit Hbefore Hraw Hnonempty.
        rewrite Hsplit. apply pick_long_first.
        -- intros k Hk. by apply Hfalsy, Hbefore.
        -- assert (Hin : In sizeKey normalSizeKeys)
             by (rewrite Hsplit; apply in_elt).
           apply Hcomplete; [| | exact Hraw | exact Hnonempty].
           ++ apply truthy_entry_is_listed; [exact Hobject | |].
              ** intros ->. simpl in Hin. intuition discriminate.
              ** rewrite Hraw. by apply truthy_string.
           ++ intros ->. simpl in Hin. intuition discriminate.
        -- by apply unescape_amp_nonempty.
      * intros Hnone. apply pick_long_none. intros k Hk. by apply Hfalsy, Hnone.
    + discriminate.
    + intros u ->. by apply flavour_returned.
    + intros u ->. by apply flavour_returned.
    + intros k u Hu.
      destruct (Hsound k u Hu) as [Hempty | (_ & raw & Hraw & _ & ->)]; [| eauto].
      by rewrite lookup_empty in Hempty.
    + apply pick_long_is_entry.
    + apply unescape_amp_leaves_no_escape.
  - injection Hinfo as <-. cbn [png webp webp_long webp_sizes].
    split; [| split; [| split; [| split; [| split; [| split]]]]].
    + discriminate.
    + by intros _.
    + intros u ->. by apply flavour_returned.
    + intros u ->. by apply flavour_returned.
    + intros k u Hu. by rewrite lookup_empty in Hu.
    + discriminate.
    + apply unescape_amp_leaves_no_escape.
Qed.

End ImageUrlInfoFlavours.

(** The map of the specification: only 720 and 360, so 720 wins. *)
Example long_webp_of_720_and_360 :
  match ImageUrlInfoOf.extractImageUrlInfo
          (VObj [("common_attr",
                  VObj [("cover_url_map", VObj [("720", VStr "a"); ("360", VStr "b")])])])
  with
  | Returned info => webp_long info
  | Raised _ => None
  end = Some "a".
Proof. vm_compute. reflexivity. Qed.

(** The same with an escaped ampersand in the URL that is chosen. *)
Lemma C7_long_webp_witness :
  let item :=
    VObj [("common_attr",
           VObj [("cover_url_map",
                  VObj [("720", VStr "https://a/720.webp?x=1\u0026y=2");
                        ("360", VStr "https://a/360.webp")])])] in
  exists info,
    ImageUrlInfoOf.extractImageUrlInfo item = Returned info /\
    webp_long info = Some "https://a/720.webp?x=1&y=2".
Proof.
  cbv zeta.
  destruct (ImageUrlInfoOf.extractImageUrlInfo
              (VObj [("common_attr",
                      VObj [("cover_url_map",
                             VObj [("720", VStr "https://a/720.webp?x=1\u0026y=2");
                                   ("360", VStr "https://a/360.webp")])])]))
    as [info | e] eqn:Hinfo; [| vm_compute in Hinfo; discriminate].
  exists info. split; [reflexivity |].
  destruct (C7_long_webp_by_size_priority_and_unescaped_urls _ info Hinfo)
    as [Hobject _].
  destruct (Hobject eq_refl) as [Hfirst _].
  apply (Hfirst ["2400"; "1080"] "720" ["480"; "360"] "https://a/720.webp?x=1\u0026y=2").
  - reflexivity.
  - intros k [<- | [<- | []]]; reflexivity.
  - reflexivity.
  - discriminate.
Defined.

(** ** Image status *)

Lemma extractImageUrls_items_none (items : list value) :
  Forall (fun item => Js.truthy (ImageUtils.large_image_url item) = false) items ->
  ImageUtils.extractImageUrls_items items = Returned [].
Proof.
  induction 1 as [| item items Hitem _ IH]; [reflexivity |].
  simpl. unfold ImageUtils.extractImageUrl. by rewrite Hitem, IH.
Qed.

Section ImageStatus.
Context `{Imports}.
Import Controller.

Lemma run_queryImageTaskStatus world historyId tok :
  run world [] (queryImageTaskStatus historyId tok) =
    let c := Request "post" history_path tok (HistoryByIds [historyId] true) in
    ([Event c (world _ [] c)], world _ [] c ≫= image_status_of historyId).
Proof.
  unfold queryImageTaskStatus. rewrite run_bind, run_await. cbv zeta.
  destruct (world value [] _) as [response | e]; [| reflexivity].
  by rewrite run_lift.
Qed.

Lemma member_defined (v : value) (k : string) :
  Js.nullish v = false -> member v k = Returned (Js.get_prop v k).
Proof. intros Hv. unfold member. by rewrite Hv. Qed.

(** With an item array the status is computed without any coercion. *)
Lemma image_status_of_array historyId response items :
  Js.nullish response = false ->
  record_truthy (found response historyId) = true ->
  Js.or_else (record_field (found response historyId) "item_list") (VArr []) = VArr items ->
  image_status_of historyId response =
    let taskInfo := found response historyId in
    has_image ← match items with
                | [] => Returned false
                | item :: _ => image ← member item "image"; Returned (Js.truthy image)
                end;
    results ← (if has_image : bool then
                 imageUrls ← ImageUtils.extractImageUrls_items items;
                 Returned (if (0 <? length imageUrls)%nat then Some imageUrls else None)
               else Returned None);
    Returned (mkImageTaskStatus historyId "image" (record_field taskInfo "status")
                (record_field taskInfo "fail_code") (VNum (Z.of_nat (length items)))
                results taskInfo).
Proof.
  intros Hresponse Hrecord Hitems. unfold image_status_of.
  rewrite (member_by_key_defined response) by exact Hresponse.
  cbn [mbind outcome_bind]. rewrite Hrecord, Hitems. cbn [negb].
  change (Js.get_prop (VArr items) "length") with (VNum (Z.of_nat (length items))).
  cbn [gt_zero mbind outcome_bind].
  destruct items as [| item items']; reflexivity.
Qed.

(** [results] is [null] or a list with at least one URL. *)
Lemma image_status_of_results historyId response st :
  image_status_of historyId response = Returned st -> its_results st <> Some [].
Proof.
  unfold image_status_of.
  destruct (member_by_key response historyId) as [record |]; [| discriminate].
  cbn [mbind outcome_bind].
  destruct (negb (record_truthy record)); [discriminate |].
  destruct (gt_zero _) as [nonempty |]; [| discriminate]. cbn [mbind outcome_bind].
  match goal with
  | |- mbind _ ?o = _ -> _ => destruct o as [has_image |]
  end; [| discriminate].
  cbn [mbind outcome_bind].
  match goal with
  | |- mbind _ ?o = _ -> _ => destruct o as [results |] eqn:Hresults
  end; [| discriminate].
  cbn [mbind outcome_bind]. intros [= <-]. cbn [its_results].
  destruct has_image; [| by injection Hresults as <-].
  destruct (ImageUtils.extractImageUrls _) as [imageUrls |]; [| discriminate].
  cbn [mbind outcome_bind] in Hresults. injection Hresults as <-.
  destruct imageUrls; discriminate.
Qed.

(** C8, as the code has it.  The record is what [response[historyId]]
    yields, an own property of the response or a built-in that the
    response inherits under that name.  [queryImageTaskStatus] raises the
    not-found error when the response holds no record for the history id
    (the lookup is falsy).  When the record is there but the item list is
    missing or empty, or the first item is neither [null] nor [undefined]
    and has no image, or the first item is neither [null] nor [undefined]
    and no item carries a large-image URL, it returns normally and its
    results are [null]; results are never an empty list.  A first item
    that is [null] or [undefined] makes the query raise a type error. *)
Theorem C8_image_status_not_found_or_null_results (world : env) historyId tok response :
  world _ [] (Request "post" history_path tok (HistoryByIds [historyId] true))
    = Returned response ->
  Js.nullish response = false ->
  let out := outcome_of (run world [] (queryImageTaskStatus historyId tok)) in
  let record := found response historyId in
  let itemList := Js.or_else (record_field record "item_list") (VArr []) in
  (record_truthy record = false ->
     out = Raised (APIException API_IMAGE_GENERATION_FAILED ("任务不存在: " +:+ historyId))) /\
  (record_truthy record = true ->
     (itemList = VArr [] ->
        exists st, out = Returned st /\ its_results st = None /\ its_item_count st = VNum 0) /\
     (forall item items,
         itemList = VArr (item :: items) -> Js.nullish item = false ->
         Js.truthy (Js.get_prop item "image") = false ->
         exists st, out = Returned st /\ its_results st = None) /\
     (forall item items,
         itemList = VArr (item :: items) -> Js.nullish item = false ->
         Forall (fun i => Js.truthy (ImageUtils.large_image_url i) = false) (item :: items) ->
         exists st, out = Returned st /\ its_results st = None) /\
     (forall item items,
         itemList = VArr (item :: items) -> Js.nullish item = true ->
         out = Raised (TypeError "Cannot read properties of null or undefined"))) /\
  (forall st, out = Returned st -> its_results st <> Some []).
Proof.
  intros Hworld Hresponse. cbv zeta.
  rewrite run_queryImageTaskStatus. unfold outcome_of. cbn [snd].
  rewrite Hworld. cbn [mbind outcome_bind].
  split; [| split].
  - intros Hrecord. unfold image_status_of.
    rewrite (member_by_key_defined response) by exact Hresponse.
    cbn [mbind outcome_bind]. by rewrite Hrecord.
  - intros Hrecord. split; [| split; [| split]].
    + intros Hitems. rewrite (image_status_of_array _ _ [] Hresponse Hrecord Hitems).
      cbv zeta. cbn [mbind outcome_bind]. eauto.
    + intros item items Hitems Hitem Himage.
      rewrite (image_status_of_array _ _ _ Hresponse Hrecord Hitems).
      cbv zeta. rewrite (member_defined item) by exact Hitem. cbn [mbind outcome_bind].
      rewrite Himage. cbn [mbind outcome_bind]. eauto.
    + intros item items Hitems Hitem Hnone.
      rewrite (image_status_of_array _ _ _ Hresponse Hrecord Hitems).
      cbv zeta. rewrite (member_defined item) by exact Hitem. cbn [mbind outcome_bind].
      rewrite (extractImageUrls_items_none _ Hnone).
      destruct (Js.truthy (Js.get_prop item "image")); cbn [mbind outcome_bind]; eauto.
    + intros item items Hitems Hitem.
      rewrite (image_status_of_array _ _ _ Hresponse Hrecord Hitems).
      cbv zeta. unfold member. by rewrite Hitem.
  - intros st. apply image_status_of_results.
Qed.

(** For the name constructor the image query finds the built-in and
    returns; for a name that is not inherited it raises the not-found
    error. *)
Example image_status_of_inherited_name :
  image_status_of "constructor" (VObj [])
    = Returned (mkImageTaskStatus "constructor" "image" VUndefined VUndefined (VNum 0) None
                  (Builtin (VObj []) "constructor"))
  /\ image_status_of "h-1" (VObj [])
      = Raised (APIException API_IMAGE_GENERATION_FAILED "任务不存在: h-1").
Proof. split; reflexivity. Qed.

End ImageStatus.

(** A record without item list: the query returns, and its results are
    [null], not an empty list. *)
Lemma C8_image_status_results_null_not_empty_list :
  let response := VObj [("h-1", VObj [("status", VNum 20); ("fail_code", VNum 0)])] in
  let out := outcome_of (run (Sample.world None response) []
                           (Controller.queryImageTaskStatus (H := Sample.imports) "h-1" "token")) in
  (exists st, out = Returned st /\ Controller.its_results st = None) /\
  ~ (exists st, out = Returned st /\ Controller.its_results st = Some []).
Proof.
  cbv zeta. split.
  - eexists. split; [vm_compute; reflexivity | reflexivity].
  - intros (st & Hst & Hresults). vm_compute in Hst. injection Hst as <-. discriminate.
Qed.

Lemma C8_image_status_witness :
  let response := VObj [("h-1", VObj [("status", VNum 20); ("fail_code", VNum 0)])] in
  let world := Sample.world None response in
  world _ [] (Request "post" Controller.history_path "token" (HistoryByIds ["h-1"] true))
    = Returned response /\
  Js.nullish response = false /\
  exists st,
    outcome_of (run world [] (Controller.queryImageTaskStatus (H := Sample.imports) "h-1" "token"))
      = Returned st /\
    Controller.its_results st = None /\ Controller.its_item_count st = VNum 0.
Proof.
  cbv zeta. split; [reflexivity |]. split; [reflexivity |].
  destruct (C8_image_status_not_found_or_null_results (H := Sample.imports)
              (Sample.world None
                 (VObj [("h-1", VObj [("status", VNum 20); ("fail_code", VNum 0)])]))
              "h-1" "token"
              (VObj [("h-1", VObj [("status", VNum 20); ("fail_code", VNum 0)])])
              eq_refl eq_refl) as (_ & Hrecord & _).
  destruct (Hrecord eq_refl) as (Hempty & _).
  exact (Hempty eq_refl).
Defined.

(** ** Where the image counts are checked *)

Section Bounds.
Context `{Imports}.
Import Controller.

(** The composition route stops at its count check, at the latest. *)
Lemma compositions_out_of_bounds world (request : Routes.http_request) :
  let isMultiPart :=
    Str.startsWith (Routes.content_type request) "multipart/form-data" in
  let count :=
    if isMultiPart then length (default [] (Routes.image_files request))
    else length (Routes.items_of (Js.get_prop (Routes.body request) "images")) in
  (count = 0 \/ 10 < count)%nat ->
  exists e, run world [] (Routes.compositions request) = ([], Raised e).
Proof.
  cbv zeta. intros Hcount. unfold Routes.compositions.
  rewrite run_bind, run_lift.
  destruct (Routes.reject_unsupported _) as [[] | e]; [| eauto].
  rewrite run_bind, run_lift.
  destruct (Routes.validate_composition _ request) as [[] | e]; [| eauto].
  rewrite run_bind. unfold Routes.composition_images.
  destruct (Str.startsWith (Routes.content_type request) "multipart/form-data").
  - destruct (Routes.image_files request) as [imageFiles |]; [| eauto].
    change (default [] (Some imageFiles)) with imageFiles in Hcount.
    destruct (length imageFiles =? 0)%nat eqn:Hzero; [eauto |].
    destruct (10 <? length imageFiles)%nat eqn:Hten; [eauto |].
    apply Nat.eqb_neq in Hzero. apply Nat.ltb_ge in Hten. lia.
  - destruct (negb (Js.truthy _) || (length _ =? 0)%nat) eqn:Hzero; [eauto |].
    destruct (10 <? length _)%nat eqn:Hten; [eauto |].
    apply orb_false_iff in Hzero as [_ Hzero].
    apply Nat.eqb_neq in Hzero. apply Nat.ltb_ge in Hten. lia.
Qed.

Lemma at_most_two_rejects (v : value) :
  (2 < length (Routes.items_of v))%nat -> Routes.at_most_two v = false.
Proof.
  destruct v; simpl; try lia. intros Hlen.
  apply Nat.leb_gt. exact Hlen.
Qed.

(** The video route stops at its checks of the number of files or paths. *)
Lemma videos_out_of_bounds world (request : Routes.http_request) :
  (2 < length (default [] (Routes.files request))
   \/ 2 < length (Routes.items_of (Js.get_prop (Routes.body request) "file_paths"))
   \/ 2 < length (Routes.items_of (Js.get_prop (Routes.body request) "filePaths")))%nat ->
  exists e, run world [] (Routes.videos request) = ([], Raised e).
Proof.
  intros Hcount. unfold Routes.videos. cbv zeta.
  rewrite run_bind, run_lift.
  destruct (Routes.validate_video _ request) as [[] | e] eqn:Hvalid; [| eauto].
  destruct (2 <? length (default [] (Routes.files request)))%nat eqn:Hfiles; [eauto |].
  apply Nat.ltb_ge in Hfiles.
  exfalso. unfold Routes.validate_video, Routes.validate in Hvalid.
  repeat match type of Hvalid with
         | context [if ?b then Returned tt else Raised ?e] =>
             lazymatch b with
             | Routes.at_most_two _ => fail
             | _ => destruct b; cbn [mbind outcome_bind] in Hvalid; [| discriminate]
             end
         end.
  destruct (Routes.at_most_two (Js.get_prop (Routes.body request) "file_paths")) eqn:Hsnake;
    cbn [mbind outcome_bind] in Hvalid; [| discriminate].
  destruct (Routes.at_most_two (Js.get_prop (Routes.body request) "filePaths")) eqn:Hcamel;
    cbn [mbind outcome_bind] in Hvalid; [| discriminate].
  destruct Hcount as [Hfiles' | [Hpaths | Hpaths]]; [lia | |];
    apply at_most_two_rejects in Hpaths; congruence.
Qed.

(** C3, as the code has it.  The image counts are checked by the route
    handlers, before the controller is called and so before any upload: the
    composition route raises without a single call for no image or more than
    ten, the video route for more than two files or paths.  The controller
    does not check the count again: without images
    [createImageCompositionTask] goes straight to its request, with images
    its first call is the upload of the first one, however many there are. *)
Theorem C3_image_counts_are_checked_by_the_routes_only world :
  (forall request : Routes.http_request,
      let isMultiPart :=
        Str.startsWith (Routes.content_type request) "multipart/form-data" in
      let count :=
        if isMultiPart then length (default [] (Routes.image_files request))
        else length (Routes.items_of (Js.get_prop (Routes.body request) "images")) in
      (count = 0 \/ 10 < count)%nat ->
      exists e, run world [] (Routes.compositions request) = ([], Raised e)) /\
  (forall request : Routes.http_request,
      (2 < length (default [] (Routes.files request))
       \/ 2 < length (Routes.items_of (Js.get_prop (Routes.body request) "file_paths"))
       \/ 2 < length (Routes.items_of (Js.get_prop (Routes.body request) "filePaths")))%nat ->
      exists e, run world [] (Routes.videos request) = ([], Raised e)) /\
  (forall _model prompt options tok regionInfo names resolutionResult,
      parseRegionFromToken tok = Returned regionInfo ->
      getImageModel _model (isInternational regionInfo) = Returned names ->
      resolveResolution (snd names) regionInfo (default "2k" (io_resolution options))
        (default "1:1" (io_ratio options)) = Returned resolutionResult ->
      (exists reply,
          run world [] (createImageCompositionTask _model prompt [] options tok)
            = ([Event (Request "post" generate_path tok
                         (GenerateImage
                            (mkImageRequest (fst names) (snd names) prompt
                               (default "" (io_negativePrompt options))
                               (default (1 # 2)%Q (io_sampleStrength options))
                               resolutionResult
                               (default false (io_intelligentRatio options))
                               img2img [] regionInfo)))
                      reply],
               reply ≫= history_id_of)) /\
      (forall image rest,
          exists reply tail,
            trace_of (run world [] (createImageCompositionTask _model prompt (image :: rest)
                                      options tok))
              = Event (upload_of image tok regionInfo) reply :: tail)).
Proof.
  split; [| split].
  - intros request. apply compositions_out_of_bounds.
  - intros request. apply videos_out_of_bounds.
  - intros _model prompt options tok regionInfo names resolutionResult
      Hregion Hnames Hresolution.
    split.
    + unfold createImageCompositionTask.
      rewrite run_bind, run_lift, Hregion.
      rewrite run_bind, run_lift, Hnames.
      rewrite run_bind, run_lift, Hresolution.
      rewrite run_bind. cbn [upload_images run]. rewrite run_bind, run_await.
      match goal with
      | |- context [world value ?past ?c] =>
          exists (world value past c); destruct (world value past c) as [response | e]
      end; [by rewrite run_lift | reflexivity].
    + intros image rest. unfold createImageCompositionTask.
      rewrite run_bind, run_lift, Hregion.
      rewrite run_bind, run_lift, Hnames.
      rewrite run_bind, run_lift, Hresolution.
      rewrite run_bind, upload_images_cons, run_bind, run_try_catch, run_await.
      exists (world string [] (upload_of image tok regionInfo)).
      destruct (world string [] (upload_of image tok regionInfo)) as [id | error].
      * match goal with
        | |- context [run world ?past (upload_images ?t ?r ?l ?a)] =>
            destruct (run_extends world (upload_images t r l a) past) as [new Hnew];
            destruct (run world past (upload_images t r l a)) as [tr [ids | e]]
        end; cbn [fst] in Hnew; subst tr.
        -- match goal with
           | |- context [run world ?past (?p ≫= ?f)] =>
               destruct (run_extends world (p ≫= f) past) as [new' Hnew']
           end.
           unfold trace_of. rewrite Hnew'. cbn [app]. eauto.
        -- unfold trace_of. cbn [fst app]. eauto.
      * unfold trace_of. cbn [fst run app]. eauto.
Qed.

End Bounds.

(** Eleven images handed to the controller: no validation failure, eleven
    uploads and a submitted task.  No image at all: a submitted task.  Three
    file paths handed to the video controller: three uploads and a submitted
    task. *)
Lemma C3_controller_does_not_check_the_image_count :
  let world := Sample.world None Sample.accepted in
  let eleven :=
    run world [] (Controller.createImageCompositionTask (H := Sample.imports)
                    "jimeng-4.0" "blend" (map ImageUrl Sample.eleven_urls)
                    Sample.no_image_options "token") in
  let none :=
    run world [] (Controller.createImageCompositionTask (H := Sample.imports)
                    "jimeng-4.0" "blend" [] Sample.no_image_options "token") in
  let three :=
    run world [] (Controller.createVideoGenerationTask (H := Sample.imports)
                    "jimeng-video-3.0" "a cat"
                    (Sample.video_options_with None
                       [VStr "https://a/1.png"; VStr "https://a/2.png"; VStr "https://a/3.png"]
                       [])
                    "token") in
  (length (List.filter is_upload (trace_of eleven)) = 11%nat
   /\ outcome_of eleven = Returned (VStr "h-1")) /\
  (length (List.filter is_upload (trace_of none)) = 0%nat
   /\ outcome_of none = Returned (VStr "h-1")) /\
  (length (List.filter is_upload (trace_of three)) = 3%nat
   /\ outcome_of three = Returned (VStr "h-1")).
Proof. vm_compute. repeat split. Qed.

(** Eleven images sent to the composition route: rejected before any call. *)
Lemma C3_routes_witness :
  let request :=
    Sample.json_request
      (VObj [("prompt", VStr "blend"); ("images", VArr (map VStr Sample.eleven_urls))]) in
  (10 < length (Routes.items_of (Js.get_prop (Routes.body request) "images")))%nat /\
  exists e,
    run (Sample.world None Sample.accepted) [] (Routes.compositions (H := Sample.imports) request)
      = ([], Raised e).
Proof.
  cbv zeta. split; [vm_compute; lia |].
  apply (proj1 (C3_image_counts_are_checked_by_the_routes_only (H := Sample.imports)
                  (Sample.world None Sample.accepted))).
  right. vm_compute. lia.
Defined.

(** Ten images pass the route and reach the controller, which uploads them. *)
Example compositions_route_accepts_ten_images :
  let request :=
    Sample.json_request
      (VObj [("prompt", VStr "blend");
             ("images", VArr (map VStr (repeat "https://a/i.png" 10)))]) in
  let r := run (Sample.world None Sample.accepted) []
             (Routes.compositions (H := Sample.imports) request) in
  length (List.filter is_upload (trace_of r)) = 10%nat /\
  outcome_of r = Returned (Routes.mkSubmitted (VStr "h-1") 10).
Proof. vm_compute. repeat split. Qed.

(** Three file paths are refused by the video route, two are accepted. *)
Example videos_route_bounds :
  let request paths :=
    Sample.json_request (VObj [("prompt", VStr "a cat"); ("file_paths", VArr paths)]) in
  let world := Sample.world None Sample.accepted in
  run world [] (Routes.videos (H := Sample.imports)
                  (request [VStr "https://a/1.png"; VStr "https://a/2.png";
                            VStr "https://a/3.png"]))
    = ([], Raised (Error "Params body.file_paths invalid")) /\
  outcome_of (run world [] (Routes.videos (H := Sample.imports)
                              (request [VStr "https://a/1.png"; VStr "https://a/2.png"])))
    = Returned (Routes.mkSubmitted (VStr "h-1") 0).
Proof. vm_compute. repeat split. Qed.

(** ** The cases the specification lists for the video status *)

Example video_status_cases :
  let query response :=
    match outcome_of (run (Sample.world None response) []
                        (Controller.queryVideoTaskStatus (H := Sample.imports) "h-1" "token"))
    with
    | Returned st => Some (Controller.status st, Controller.videoUrl st)
    | Raised _ => None
    end in
  let url := "https://v3-artist.vlabvod.com/obj/video.mp4?a=1" in
  let with_play code :=
    VObj [("h-1", VObj [("status", VNum code);
                        ("item_list",
                         VArr [VObj [("video", VObj [("play_url", VStr "https://cdn/v.mp4")])]])])] in
  query (VObj [("h-1", VObj [("status", VNum 20)])]) = Some ("processing", VNull) /\
  query (VObj [("h-1", VObj [("status", VNum 50)])]) = Some ("failed", VNull) /\
  query (VObj [("h-1", VObj [("status", VNum 10)])]) = Some ("processing", VNull) /\
  query (with_play 50) = Some ("completed", VStr "https://cdn/v.mp4") /\
  query (with_play 20) = Some ("completed", VStr "https://cdn/v.mp4") /\
  query (with_play 42) = Some ("completed", VStr "https://cdn/v.mp4") /\
  query (VObj [("h-1", VObj [("status", VNum 30); ("note", VStr url)])])
    = Some ("completed", VStr url) /\
  query (VObj [("other", VObj [("status", VNum 10); ("note", VStr url)])])
    = Some ("processing", VNull) /\
  query VNull = None.
Proof. vm_compute. repeat split. Qed.

(** The CDN pattern stops at a quote and at white space, and needs a digit
    after the v. *)
Example cdn_pattern_cases :
  Pattern.search "see https://v26-artist.vlabvod.com/a/b.mp4?x=1 and more"
    = Some "https://v26-artist.vlabvod.com/a/b.mp4?x=1" /\
  Pattern.search "https://v-artist.vlabvod.com/a" = None /\
  Pattern.search "https://v1-artist.vlabvod.com/" = None /\
  Pattern.search "https://v1-artist.vlabvod.org/a https://v22-artist.vlabvod.com/b"
    = Some "https://v22-artist.vlabvod.com/b".
Proof. vm_compute. repeat split. Qed.

(** * Further properties of the controller, the helper and the routes *)

(** ** Substrings *)

Lemma string_app_assoc (a b c : string) : (a +:+ b) +:+ c = a +:+ (b +:+ c).
Proof.
  induction a as [| x a IH]; [reflexivity |].
  change (String x ((a +:+ b) +:+ c) = String x (a +:+ (b +:+ c))). by rewrite IH.
Qed.

Lemma string_app_nil_r (a : string) : a +:+ "" = a.
Proof.
  induction a as [| x a IH]; [reflexivity |].
  change (String x (a +:+ "") = String x a). by rewrite IH.
Qed.

Lemma prefix_true_app (p s : string) :
  String.prefix p s = true <-> exists r, s = p +:+ r.
Proof.
  revert s. induction p as [| a p IH]; intros s.
  - split; [intros _; by exists s | intros _; by destruct s].
  - destruct s as [| b s]; simpl.
    + split; [discriminate | intros [r Hr]; discriminate].
    + destruct (ascii_dec a b) as [-> | Hne].
      * rewrite IH. split; intros [r Hr]; exists r.
        -- change (String b s = String b (p +:+ r)). by rewrite Hr.
        -- change (String b s = String b (p +:+ r)) in Hr. by injection Hr.
      * split; [discriminate |]. intros [r Hr].
        change (String b s = String a (p +:+ r)) in Hr. congruence.
Qed.

(** [s.includes(sub)] says that [sub] occurs in [s]. *)
Lemma includes_occurs (s sub : string) :
  Str.includes s sub = true <-> Str.occurs sub s.
Proof.
  induction s as [| c s IH]; cbn [Str.includes].
  - rewrite orb_false_r, prefix_true_app. split.
    + intros [r Hr]. exists "", r. exact Hr.
    + intros (pre & post & Hs). destruct pre; [by exists post | discriminate].
  - rewrite orb_true_iff, prefix_true_app, IH. split.
    + intros [[r Hr] | (pre & post & Hs)].
      * exists "", r. exact Hr.
      * exists (String c pre), post. rewrite Hs. reflexivity.
    + intros (pre & post & Hs). destruct pre as [| c' pre].
      * left. by exists post.
      * right. exists pre, post.
        change (String c s = String c' (pre +:+ sub +:+ post)) in Hs. by injection Hs.
Qed.

(** A string that holds [p] followed by [q] holds [p]. *)
Lemma includes_shorter (s p q : string) :
  Str.includes s (p +:+ q) = true -> Str.includes s p = true.
Proof.
  rewrite !includes_occurs. intros (pre & post & ->).
  exists pre, (q +:+ post). by rewrite string_app_assoc.
Qed.

(** A string that holds [p] followed by [q] holds [q]. *)
Lemma includes_later (s p q : string) :
  Str.includes s (p +:+ q) = true -> Str.includes s q = true.
Proof.
  rewrite !includes_occurs. intros (pre & post & ->).
  exists (pre +:+ p), post. by rewrite !string_app_assoc.
Qed.

(** ** The video model families *)

Section Families.
Import Controller.

(** X1. The resolution field depends on two tests only: the model key
    holds vgfm_3.0 and does not hold _pro.  The second alternative of the
    source, vgfm_3.0_fast, never adds a model; and a fast or plain vgfm_3.0
    model whose key also holds _pro gets no resolution. *)
Theorem supportsResolution_two_tests (model prompt ratio resolution : string)
    (duration : Z) (uploadIDs : list string) (regionInfo : RegionInfo) :
  supportsResolution model
    = Str.includes model "vgfm_3.0" && negb (Str.includes model "_pro") /\
  (Str.includes model "vgfm_3.0_fast" = true -> Str.includes model "vgfm_3.0" = true) /\
  vr_resolution (video_payload model prompt ratio resolution duration uploadIDs regionInfo)
    = if Str.includes model "vgfm_3.0" && negb (Str.includes model "_pro")
      then Some resolution else None.
Proof.
  assert (Hfast : Str.includes model "vgfm_3.0_fast" = true ->
                  Str.includes model "vgfm_3.0" = true)
    by apply (includes_shorter model "vgfm_3.0" "_fast").
  assert (Hsupport : supportsResolution model
                     = Str.includes model "vgfm_3.0" && negb (Str.includes model "_pro")).
  { unfold supportsResolution.
    destruct (Str.includes model "vgfm_3.0") eqn:Hplain; [reflexivity |].
    destruct (Str.includes model "vgfm_3.0_fast") eqn:Hf; [| reflexivity].
    specialize (Hfast eq_refl). congruence. }
  split; [exact Hsupport |]. split; [exact Hfast |].
  cbn [vr_resolution video_payload]. by rewrite Hsupport.
Qed.

(** X2. Whatever duration is asked for, also one the routes would refuse,
    the seconds that [createVideoGenerationTask] applies are one of 4, 5, 8,
    10 and 12, the durations the video route accepts, and the milliseconds
    are a thousand times the seconds. *)
Theorem video_duration_is_an_accepted_duration (model : string) (duration : Z) :
  existsb (Z.eqb (snd (video_duration model duration))) Routes.validDurations = true /\
  fst (video_duration model duration) = 1000 * snd (video_duration model duration) /\
  (existsb (Z.eqb duration) Routes.validDurations = false ->
   snd (video_duration model duration) <> duration).
Proof.
  unfold video_duration.
  destruct (Str.includes model "veo3"), (Str.includes model "sora2"),
    (Str.includes model "3.5_pro");
    repeat match goal with
           | |- context [duration =? ?n] =>
               let E := fresh "E" in
               destruct (duration =? n) eqn:E;
               [apply Z.eqb_eq in E; subst duration |]
           end;
    cbn [fst snd]; repeat split; try reflexivity; try discriminate;
    intros Hout Heq; subst duration; discriminate.
Qed.

(** X3. The benefit type and the duration go by the same families: a
    request billed as veo3 or veo3.1 lasts 8 s, one billed as sora2 lasts 4,
    8 or 12 s, one billed as seedance 1.5 pro lasts 5, 10 or 12 s, and every
    other one, seedance 1.5 included, lasts 5 or 10 s. *)
Theorem benefit_type_and_duration_agree (model : string) (duration : Z) :
  let benefit := getVideoBenefitType model in
  let seconds := snd (video_duration model duration) in
  (benefit = "generate_video_veo3.1" \/ benefit = "generate_video_veo3" -> seconds = 8) /\
  (benefit = "generate_video_sora2" -> seconds = 4 \/ seconds = 8 \/ seconds = 12) /\
  (benefit = "dreamina_video_seedance_15_pro" ->
     seconds = 5 \/ seconds = 10 \/ seconds = 12) /\
  (benefit = "dreamina_video_seedance_15"
   \/ benefit = "basic_video_operation_vgfm_v_three" -> seconds = 5 \/ seconds = 10) /\
  (Str.includes model "veo3" = true <->
     benefit = "generate_video_veo3.1" \/ benefit = "generate_video_veo3").
Proof.
  cbv zeta.
  pose proof (includes_shorter model "veo3" ".1") as Hveo.
  change ("veo3" +:+ ".1") with "veo3.1" in Hveo.
  unfold getVideoBenefitType, video_duration.
  destruct (Str.includes model "veo3.1") eqn:H31;
    [rewrite (Hveo eq_refl) |];
    destruct (Str.includes model "veo3") eqn:H3;
    destruct (Str.includes model "sora2") eqn:Hs;
    destruct (Str.includes model "3.5_pro") eqn:Hp;
    destruct (Str.includes model "3.5") eqn:H35;
    try discriminate;
    repeat match goal with
           | |- context [duration =? ?n] => destruct (duration =? n)
           end;
    cbn [snd];
    repeat split; intros; try reflexivity;
    repeat match goal with
           | H : _ \/ _ |- _ => destruct H
           end;
    try discriminate; auto.
Qed.

End Families.

(** ** Which calls the upload helpers make *)

Lemma calls_only_bind {A B} allowed (p : prog A) (f : A -> prog B) :
  calls_only allowed p -> (forall a, calls_only allowed (f a)) -> calls_only allowed (p ≫= f).
Proof.
  unfold mbind, prog_bind.
  induction p as [a | e | X c k IH]; simpl; intros Hp Hf; auto.
  destruct Hp as [Hc Hk]. split; auto.
Qed.

Lemma calls_only_try_catch {A} allowed (p : prog A) (h : exn -> prog A) :
  calls_only allowed p -> (forall e, calls_only allowed (h e)) ->
  calls_only allowed (try_catch p h).
Proof.
  induction p as [a | e | X c k IH]; simpl; intros Hp Hh; auto.
  destruct Hp as [Hc Hk]. split; auto.
Qed.

Lemma calls_only_await {X} allowed (c : call X) :
  allowed X c = true -> calls_only allowed (await c).
Proof. intros Hc. simpl. split; [exact Hc | intros [x | e]; exact I]. Qed.

Lemma run_calls_only {A} allowed (world : env) (p : prog A) (past : list event) :
  calls_only allowed p ->
  exists new, fst (run world past p) = past ++ new
              /\ Forall (fun e => event_passes allowed e = true) new.
Proof.
  revert past.
  induction p as [a | e | X c k IH]; simpl; intros past Hp.
  - exists []. by rewrite app_nil_r.
  - exists []. by rewrite app_nil_r.
  - destruct Hp as [Hc Hk].
    destruct (IH (world X past c) (past ++ [Event c (world X past c)]) (Hk _))
      as (new & Hnew & Hall).
    exists (Event c (world X past c) :: new). split.
    + by rewrite Hnew, <- app_assoc.
    + constructor; [exact Hc | exact Hall].
Qed.

Section UploadHelpers.
Context `{Imports}.
Import Controller.

Lemma run_isLocalFilePath (world : env) past filePath :
  run world past (isLocalFilePath filePath) =
    if Str.startsWith filePath "/" then
      (past ++ [Event (Access filePath) (world _ past (Access filePath))],
       Returned (match world _ past (Access filePath) with
                 | Returned _ => true
                 | Raised _ => false
                 end))
    else (past, Returned false).
Proof.
  unfold isLocalFilePath.
  destruct (Str.startsWith filePath "/"); cbn [negb]; [| reflexivity].
  rewrite run_try_catch, run_bind, run_await.
  destruct (world unit past (Access filePath)); reflexivity.
Qed.

(** X4. [isLocalFilePath] never raises.  A path that does not start with a
    slash is not probed at all and is not local; any other path is probed
    once with [fs.access], and it is local exactly when that call returned,
    whatever error the call raised otherwise. *)
Theorem isLocalFilePath_probes_once_and_never_raises (world : env) past filePath :
  exists isLocal,
    outcome_of (run world past (isLocalFilePath filePath)) = Returned isLocal /\
    (Str.startsWith filePath "/" = false ->
       isLocal = false /\ trace_of (run world past (isLocalFilePath filePath)) = past) /\
    (Str.startsWith filePath "/" = true ->
       trace_of (run world past (isLocalFilePath filePath))
         = past ++ [Event (Access filePath) (world _ past (Access filePath))] /\
       (isLocal = true <-> exists ok, world _ past (Access filePath) = Returned ok)).
Proof.
  rewrite run_isLocalFilePath.
  destruct (Str.startsWith filePath "/").
  - eexists. split; [reflexivity |]. split; [discriminate |]. intros _.
    split; [reflexivity |].
    destruct (world unit past (Access filePath)) as [ok | e]; split; eauto.
    + discriminate.
    + intros [ok Hok]. discriminate.
  - exists false. by repeat split.
Qed.

(** X5. [uploadVideoImageFromUrl] uploads nothing when the download answers
    with a status outside 200..299: it raises the download error that names
    the status, and the download is its only call.  With a status inside the
    range its second and last call uploads exactly the bytes downloaded. *)
Theorem uploadVideoImageFromUrl_checks_the_status
    (world : env) past imageUrl tok reg response :
  world _ past (AxiosGet imageUrl) = Returned response ->
  let downloaded := past ++ [Event (AxiosGet imageUrl) (Returned response)] in
  let upload := UploadImageBuffer (http_data response) tok reg in
  run world past (uploadVideoImageFromUrl imageUrl tok reg) =
    if (http_status response <? 200) || (300 <=? http_status response) then
      (downloaded,
       Raised (Error ("下载图片失败: " +:+ Str.string_of_Z (http_status response))))
    else (downloaded ++ [Event upload (world _ downloaded upload)], world _ downloaded upload).
Proof.
  intros Hget. cbv zeta. unfold uploadVideoImageFromUrl.
  rewrite run_try_catch, run_bind, run_await, Hget.
  destruct ((http_status response <? 200) || (300 <=? http_status response)).
  - reflexivity.
  - rewrite run_await.
    destruct (world string _ _); reflexivity.
Qed.

Lemma run_upload_path_string (world : env) past filePath tok reg :
  run world past (upload_path (VStr filePath) tok reg) =
    match run world past (isLocalFilePath filePath) with
    | (tr, Returned true) => run world tr (uploadVideoImageFromLocalPath filePath tok reg)
    | (tr, Returned false) => run world tr (uploadVideoImageFromUrl filePath tok reg)
    | (tr, Raised e) => (tr, Raised e)
    end.
Proof.
  unfold upload_path. rewrite run_bind.
  destruct (run world past (isLocalFilePath filePath)) as [tr [[|] | e]]; reflexivity.
Qed.

(** X6. How the video task treats one file path.  A path that starts with
    a slash and passes the access check is read from disk, so its second
    call is [fs.readFile] on it.  A path that starts with a slash but fails
    the access check is not an error: it is downloaded like a URL, so its
    second call is [axios.get] on the path itself.  Any other string is
    downloaded without being probed. *)
Theorem upload_path_reads_or_downloads (world : env) past filePath tok reg :
  let probed r := past ++ [Event (Access filePath) r] in
  (Str.startsWith filePath "/" = true ->
   forall ok, world _ past (Access filePath) = Returned ok ->
     run world past (upload_path (VStr filePath) tok reg)
       = run world (probed (Returned ok)) (uploadVideoImageFromLocalPath filePath tok reg)
     /\ exists tail,
          trace_of (run world past (upload_path (VStr filePath) tok reg))
            = probed (Returned ok)
              ++ Event (ReadFile filePath) (world _ (probed (Returned ok)) (ReadFile filePath))
                 :: tail) /\
  (Str.startsWith filePath "/" = true ->
   forall e, world _ past (Access filePath) = Raised e ->
     run world past (upload_path (VStr filePath) tok reg)
       = run world (probed (Raised e)) (uploadVideoImageFromUrl filePath tok reg)
     /\ exists tail,
          trace_of (run world past (upload_path (VStr filePath) tok reg))
            = probed (Raised e)
              ++ Event (AxiosGet filePath) (world _ (probed (Raised e)) (AxiosGet filePath))
                 :: tail) /\
  (Str.startsWith filePath "/" = false ->
     run world past (upload_path (VStr filePath) tok reg)
       = run world past (uploadVideoImageFromUrl filePath tok reg)
     /\ exists tail,
          trace_of (run world past (upload_path (VStr filePath) tok reg))
            = past ++ Event (AxiosGet filePath) (world _ past (AxiosGet filePath)) :: tail).
Proof.
  cbv zeta.
  assert (Hurl : forall tr, exists tail,
             trace_of (run world tr (uploadVideoImageFromUrl filePath tok reg))
               = tr ++ Event (AxiosGet filePath) (world _ tr (AxiosGet filePath)) :: tail).
  { intros tr. unfold uploadVideoImageFromUrl.
    rewrite run_try_catch, run_bind, run_await.
    destruct (world http_response tr (AxiosGet filePath)) as [response | e];
      [| exists []; reflexivity].
    destruct (_ || _); [exists []; reflexivity |].
    rewrite run_await. destruct (world string _ _);
      eexists; unfold trace_of; cbn [fst]; rewrite <- app_assoc; reflexivity. }
  assert (Hdisk : forall tr, exists tail,
             trace_of (run world tr (uploadVideoImageFromLocalPath filePath tok reg))
               = tr ++ Event (ReadFile filePath) (world _ tr (ReadFile filePath)) :: tail).
  { intros tr. unfold uploadVideoImageFromLocalPath.
    rewrite run_try_catch, run_bind, run_await.
    destruct (world Buffer tr (ReadFile filePath)) as [data | e];
      [| exists []; reflexivity].
    rewrite run_await. destruct (world string _ _);
      eexists; unfold trace_of; cbn [fst]; rewrite <- app_assoc; reflexivity. }
  split; [| split].
  - intros Hslash ok Hok.
    rewrite run_upload_path_string, run_isLocalFilePath,
      Hslash, Hok.
    split; [reflexivity | apply Hdisk].
  - intros Hslash e He.
    rewrite run_upload_path_string, run_isLocalFilePath,
      Hslash, He.
    split; [reflexivity | apply Hurl].
  - intros Hslash.
    rewrite run_upload_path_string, run_isLocalFilePath, Hslash.
    split; [reflexivity | apply Hurl].
Qed.

End UploadHelpers.

(** A download answered with status 404. *)
Lemma uploadVideoImageFromUrl_witness :
  let world : env := fun X past c =>
    match c in call X return outcome X with
    | AxiosGet _ => Returned (mkHttpResponse 404 (Bytes []))
    | c' => Sample.world None Sample.accepted _ past c'
    end in
  world _ [] (AxiosGet "https://a/first.png") = Returned (mkHttpResponse 404 (Bytes [])) /\
  run world [] (Controller.uploadVideoImageFromUrl "https://a/first.png" "token" Sample.cn)
    = ([Event (AxiosGet "https://a/first.png") (Returned (mkHttpResponse 404 (Bytes [])))],
       Raised (Error "下载图片失败: 404")).
Proof.
  cbv zeta. split; [reflexivity |].
  exact (uploadVideoImageFromUrl_checks_the_status
           (fun X past c =>
              match c in call X return outcome X with
              | AxiosGet _ => Returned (mkHttpResponse 404 (Bytes []))
              | c' => Sample.world None Sample.accepted _ past c'
              end)
           [] "https://a/first.png" "token" Sample.cn (mkHttpResponse 404 (Bytes [])) eq_refl).
Defined.

(** ** Frames of the video request *)

Section Frames.
Context `{Imports}.
Import Controller.

Lemma calls_only_first_frame_only allowed i ids e :
  calls_only allowed (first_frame_only i ids e).
Proof. unfold first_frame_only. destruct (i =? 0)%nat; exact I. Qed.

(** The loop over the uploaded files reads files and uploads bytes, and
    does nothing else. *)
Lemma calls_only_upload_files tok reg files : forall i ids,
  calls_only reads_and_uploads (upload_files tok reg i files ids).
Proof.
  induction files as [| [file |] rest IH]; intros i ids;
    [exact I | rewrite upload_files_some | apply IH].
  apply calls_only_bind; [| intros; apply IH].
  apply calls_only_try_catch; [| apply calls_only_first_frame_only].
  apply calls_only_bind; [| intros; exact I].
  unfold uploadImageFromFile.
  apply calls_only_try_catch; [| intros; exact I].
  apply calls_only_bind; [by apply calls_only_await |].
  intros. by apply calls_only_await.
Qed.

(** X7. Uploaded files come first: as soon as the request carries one
    file entry, even an empty one, the file paths are not looked at.  Every
    call the task makes before its request reads a file or uploads bytes;
    no path is probed and nothing is downloaded. *)
Theorem uploaded_files_shadow_file_paths
    world _model prompt options tok file files :
  vo_files options = Some (file :: files) ->
  exists uploads rest,
    trace_of (run world [] (createVideoGenerationTask _model prompt options tok))
      = uploads ++ rest /\
    Forall (fun e => event_passes reads_and_uploads e = true) uploads /\
    (rest = [] \/ exists rq reply,
        rest = [Event (Request "post" generate_path tok (GenerateVideo rq)) reply]).
Proof.
  intros Hfiles. rewrite run_createVideoGenerationTask.
  destruct (parseRegionFromToken tok) as [regionInfo |];
    [| exists [], []; repeat split; auto].
  destruct (getVideoModel _model regionInfo) as [model |];
    [| exists [], []; repeat split; auto].
  rewrite Hfiles. cbn [default from_option id]. rewrite upload_frames_files.
  destruct (run_calls_only reads_and_uploads world
              (upload_files tok regionInfo 0 (file :: files) []) []
              (calls_only_upload_files _ _ _ _ _)) as (new & Hnew & Hall).
  destruct (run world [] (upload_files tok regionInfo 0 (file :: files) []))
    as [tr [uploadIDs | e]]; cbn [fst app] in Hnew; subst tr.
  - exists new. eexists. unfold trace_of. cbn [fst].
    split; [reflexivity |]. split; [exact Hall |]. right. eauto.
  - exists new, []. unfold trace_of. cbn [fst]. rewrite app_nil_r. by repeat split; auto.
Qed.

(** X8. A video task without files and without paths makes one call only,
    the generation request, and that request has no first and no end
    frame. *)
Theorem text_only_video_sends_one_request_without_frames
    world _model prompt options tok regionInfo model :
  parseRegionFromToken tok = Returned regionInfo ->
  getVideoModel _model regionInfo = Returned model ->
  default [] (vo_files options) = [] ->
  default [] (vo_filePaths options) = [] ->
  exists rq reply,
    run world [] (createVideoGenerationTask _model prompt options tok)
      = ([Event (Request "post" generate_path tok (GenerateVideo rq)) reply],
         reply ≫= video_history_id_of) /\
    vr_model rq = model /\
    vr_first_frame_image rq = None /\ vr_end_frame_image rq = None.
Proof.
  intros Hregion Hmodel Hfiles Hpaths.
  rewrite run_createVideoGenerationTask, Hregion, Hmodel, Hfiles, Hpaths.
  cbn [upload_frames length Nat.ltb Nat.leb run]. cbv zeta. cbn [app].
  eexists _, _. split; [reflexivity |]. by repeat split.
Qed.

Lemma push_if_truthy_keeps_truthy ids imageUri :
  Forall (fun id => Js.truthy (VStr id) = true) ids ->
  Forall (fun id => Js.truthy (VStr id) = true) (push_if_truthy ids imageUri).
Proof.
  intros Hids. unfold push_if_truthy.
  destruct (Js.truthy (VStr imageUri)) eqn:Huri; [| exact Hids].
  apply Forall_app. split; [exact Hids | by constructor].
Qed.

(** The identifiers kept by the two loops are truthy. *)
Lemma upload_files_keeps_truthy world tok reg files : forall i past ids tr ids',
  Forall (fun id => Js.truthy (VStr id) = true) ids ->
  run world past (upload_files tok reg i files ids) = (tr, Returned ids') ->
  Forall (fun id => Js.truthy (VStr id) = true) ids'.
Proof.
  induction files as [| [file |] rest IH]; intros i past ids tr ids' Hids Hrun.
  - injection Hrun as _ <-. exact Hids.
  - rewrite run_upload_files_some in Hrun.
    destruct (run world past (uploadImageFromFile file tok reg)) as [tr1 [imageUri | e]].
    + eapply IH; [| exact Hrun]. by apply push_if_truthy_keeps_truthy.
    + destruct (i =? 0)%nat; [discriminate |]. by eapply IH.
  - by eapply IH.
Qed.

Lemma upload_paths_keeps_truthy world tok reg paths : forall i past ids tr ids',
  Forall (fun id => Js.truthy (VStr id) = true) ids ->
  run world past (upload_paths tok reg i paths ids) = (tr, Returned ids') ->
  Forall (fun id => Js.truthy (VStr id) = true) ids'.
Proof.
  induction paths as [| filePath rest IH]; intros i past ids tr ids' Hids Hrun.
  - injection Hrun as _ <-. exact Hids.
  - destruct (Js.truthy filePath) eqn:Htruthy.
    + rewrite run_upload_paths_truthy in Hrun by assumption.
      destruct (run world past (upload_path filePath tok reg)) as [tr1 [imageUri | e]].
      * eapply IH; [| exact Hrun]. by apply push_if_truthy_keeps_truthy.
      * destruct (i =? 0)%nat; [discriminate |]. by eapply IH.
    + rewrite upload_paths_falsy in Hrun by assumption. by eapply IH.
Qed.

Lemma upload_frames_keeps_truthy world tok reg files paths tr ids :
  run world [] (upload_frames tok reg files paths) = (tr, Returned ids) ->
  Forall (fun id => Js.truthy (VStr id) = true) ids.
Proof.
  unfold upload_frames.
  destruct (0 <? length files)%nat;
    [by apply upload_files_keeps_truthy |].
  destruct (0 <? length paths)%nat;
    [by apply upload_paths_keeps_truthy |].
  intros [= _ <-]. constructor.
Qed.

Lemma uploaded_ids_app (t1 t2 : list event) :
  uploaded_ids (t1 ++ t2) = uploaded_ids t1 ++ uploaded_ids t2.
Proof. unfold uploaded_ids. apply omap_app. Qed.

Lemma push_if_truthy_app ids imageUri :
  push_if_truthy ids imageUri = ids ++ push_if_truthy [] imageUri.
Proof.
  unfold push_if_truthy. destruct (Js.truthy (VStr imageUri)); [reflexivity |].
  by rewrite app_nil_r.
Qed.

(** Reading a file and uploading its bytes, as [uploadImageFromFile] and
    [uploadVideoImageFromLocalPath] do. *)
Lemma read_then_upload_yields path tok reg :
  yields_its_upload
    (try_catch
       (imageBuffer ← await (ReadFile path);
        await (UploadImageBuffer imageBuffer tok reg))
       (fun error => Throw error)).
Proof.
  intros world past. rewrite run_try_catch, run_bind, run_await.
  destruct (world Buffer past (ReadFile path)) as [imageBuffer | e].
  - rewrite run_await.
    match goal with
    | |- context [world string ?tr ?c] => destruct (world string tr c) as [id | e] eqn:Hid
    end.
    + exists [Event (ReadFile path) (Returned imageBuffer);
              Event (UploadImageBuffer imageBuffer tok reg) (Returned id)].
      cbn [fst snd]. split; [by rewrite <- app_assoc |].
      unfold uploaded_ids, push_if_truthy. cbn [omap list_omap uploaded_id].
      by destruct (Js.truthy (VStr id)).
    + exists [Event (ReadFile path) (Returned imageBuffer);
              Event (UploadImageBuffer imageBuffer tok reg) (Raised e)].
      cbn [fst snd run]. split; [by rewrite <- app_assoc |]. reflexivity.
  - exists [Event (ReadFile path) (Raised e)]. cbn [fst snd run]. by split.
Qed.

Lemma uploadVideoImageFromUrl_yields imageUrl tok reg :
  yields_its_upload (uploadVideoImageFromUrl imageUrl tok reg).
Proof.
  intros world past. unfold uploadVideoImageFromUrl.
  rewrite run_try_catch, run_bind, run_await.
  destruct (world http_response past (AxiosGet imageUrl)) as [imageResponse | e].
  - destruct ((http_status imageResponse <? 200) || (300 <=? http_status imageResponse)).
    + exists [Event (AxiosGet imageUrl) (Returned imageResponse)].
      cbn [fst snd run]. by split.
    + rewrite run_await.
      match goal with
      | |- context [world string ?tr ?c] => destruct (world string tr c) as [id | e] eqn:Hid
      end.
      * exists [Event (AxiosGet imageUrl) (Returned imageResponse);
                Event (UploadImageBuffer (http_data imageResponse) tok reg) (Returned id)].
        cbn [fst snd]. split; [by rewrite <- app_assoc |].
        unfold uploaded_ids, push_if_truthy. cbn [omap list_omap uploaded_id].
        by destruct (Js.truthy (VStr id)).
      * exists [Event (AxiosGet imageUrl) (Returned imageResponse);
                Event (UploadImageBuffer (http_data imageResponse) tok reg) (Raised e)].
        cbn [fst snd run]. split; [by rewrite <- app_assoc |]. reflexivity.
  - exists [Event (AxiosGet imageUrl) (Raised e)]. cbn [fst snd run]. by split.
Qed.

Lemma upload_path_yields filePath tok reg :
  yields_its_upload (upload_path filePath tok reg).
Proof.
  intros world past.
  destruct filePath as [| | b | n | filePath | items | fields];
    try (exists []; cbn [upload_path run fst snd]; by rewrite app_nil_r).
  rewrite run_upload_path_string, run_isLocalFilePath.
  destruct (Str.startsWith filePath "/").
  - set (probed := past ++ [Event (Access filePath) (world unit past (Access filePath))]).
    assert (Hstep : forall p : prog string,
              yields_its_upload p ->
              exists new,
                fst (run world probed p) = past ++ new
                /\ uploaded_ids new = match snd (run world probed p) with
                                      | Returned id => push_if_truthy [] id
                                      | Raised _ => []
                                      end).
    { intros p Hp. destruct (Hp world probed) as (new & Htrace & Hids).
      exists (Event (Access filePath) (world unit past (Access filePath)) :: new).
      split; [rewrite Htrace; unfold probed; by rewrite <- app_assoc | exact Hids]. }
    destruct (world unit past (Access filePath)).
    + apply Hstep. apply read_then_upload_yields.
    + apply Hstep. apply uploadVideoImageFromUrl_yields.
  - apply uploadVideoImageFromUrl_yields.
Qed.

(** The identifiers that the loops return are the ones they had, followed
    by the non-empty identifiers that their uploads returned. *)
Lemma upload_files_ids world tok reg files : forall i past ids tr ids',
  run world past (upload_files tok reg i files ids) = (tr, Returned ids') ->
  exists new, tr = past ++ new /\ ids' = ids ++ uploaded_ids new.
Proof.
  induction files as [| [file |] rest IH]; intros i past ids tr ids' Hrun.
  - injection Hrun as <- <-. exists []. by rewrite !app_nil_r.
  - rewrite run_upload_files_some in Hrun.
    destruct (read_then_upload_yields (filepath file) tok reg world past)
      as (new1 & Htrace & Hids).
    fold (uploadImageFromFile file tok reg) in Htrace, Hids.
    destruct (run world past (uploadImageFromFile file tok reg)) as [tr1 [imageUri | e]];
      cbn [fst snd] in Htrace, Hids; subst tr1.
    + destruct (IH _ _ _ _ _ Hrun) as (new2 & -> & ->).
      exists (new1 ++ new2). split; [by rewrite app_assoc |].
      by rewrite push_if_truthy_app, uploaded_ids_app, Hids, app_assoc.
    + destruct (i =? 0)%nat; [discriminate |].
      destruct (IH _ _ _ _ _ Hrun) as (new2 & -> & ->).
      exists (new1 ++ new2). split; [by rewrite app_assoc |].
      by rewrite uploaded_ids_app, Hids.
  - by eapply IH.
Qed.

Lemma upload_paths_ids world tok reg paths : forall i past ids tr ids',
  run world past (upload_paths tok reg i paths ids) = (tr, Returned ids') ->
  exists new, tr = past ++ new /\ ids' = ids ++ uploaded_ids new.
Proof.
  induction paths as [| filePath rest IH]; intros i past ids tr ids' Hrun.
  - injection Hrun as <- <-. exists []. by rewrite !app_nil_r.
  - destruct (Js.truthy filePath) eqn:Htruthy.
    + rewrite run_upload_paths_truthy in Hrun by assumption.
      destruct (upload_path_yields filePath tok reg world past) as (new1 & Htrace & Hids).
      destruct (run world past (upload_path filePath tok reg)) as [tr1 [imageUri | e]];
        cbn [fst snd] in Htrace, Hids; subst tr1.
      * destruct (IH _ _ _ _ _ Hrun) as (new2 & -> & ->).
        exists (new1 ++ new2). split; [by rewrite app_assoc |].
        by rewrite push_if_truthy_app, uploaded_ids_app, Hids, app_assoc.
      * destruct (i =? 0)%nat; [discriminate |].
        destruct (IH _ _ _ _ _ Hrun) as (new2 & -> & ->).
        exists (new1 ++ new2). split; [by rewrite app_assoc |].
        by rewrite uploaded_ids_app, Hids.
    + rewrite upload_paths_falsy in Hrun by assumption. by eapply IH.
Qed.

Lemma upload_frames_ids world tok reg files paths tr ids :
  run world [] (upload_frames tok reg files paths) = (tr, Returned ids) ->
  ids = uploaded_ids tr.
Proof.
  unfold upload_frames.
  destruct (0 <? length files)%nat.
  { intros Hrun. by apply upload_files_ids in Hrun as (new & -> & ->). }
  destruct (0 <? length paths)%nat.
  { intros Hrun. by apply upload_paths_ids in Hrun as (new & -> & ->). }
  by intros [= <- <-].
Qed.

(** X9. The frames of a video request are the first two among the
    non-empty identifiers that the uploads of the task returned, in the
    order in which the uploads were made: the first frame is the first of
    them and the end frame the second.  So a request never carries an end
    frame without a first frame, and never an empty identifier. *)
Theorem video_frames_are_the_first_two_upload_ids
    world _model prompt options tok (rq : video_request) :
  let trace := trace_of (run world [] (createVideoGenerationTask _model prompt options tok)) in
  GenerateVideo rq ∈ requests trace ->
  vr_first_frame_image rq = uploaded_ids trace !! 0%nat /\
  vr_end_frame_image rq = uploaded_ids trace !! 1%nat /\
  Forall (fun id => id <> "") (uploaded_ids trace) /\
  (is_Some (vr_end_frame_image rq) -> is_Some (vr_first_frame_image rq)) /\
  vr_first_frame_image rq <> Some "" /\ vr_end_frame_image rq <> Some "".
Proof.
  cbv zeta. rewrite run_createVideoGenerationTask.
  destruct (parseRegionFromToken tok) as [regionInfo | e];
    [| intros Hin; by apply elem_of_nil in Hin].
  destruct (getVideoModel _model regionInfo) as [model | e];
    [| intros Hin; by apply elem_of_nil in Hin].
  pose proof (run_no_request world
                (upload_frames tok regionInfo (default [] (vo_files options))
                   (default [] (vo_filePaths options))) []
                (no_request_upload_frames _ _ _ _)) as Hquiet.
  destruct (run world [] (upload_frames _ _ _ _)) as [tr [uploadIDs | e]] eqn:Hloop;
    simpl in Hquiet; unfold trace_of; simpl;
    [| rewrite Hquiet; intros Hin; by apply elem_of_nil in Hin].
  rewrite requests_app, Hquiet. simpl.
  intros Hin. apply list_elem_of_singleton in Hin. injection Hin as ->.
  rewrite uploaded_ids_app.
  change (uploaded_ids [Event _ _]) with (@nil string). rewrite app_nil_r.
  pose proof (upload_frames_ids _ _ _ _ _ _ _ Hloop) as Hids.
  apply upload_frames_keeps_truthy in Hloop. rewrite <- Hids.
  assert (Hframes :
            first_frame_image uploadIDs = uploadIDs !! 0%nat /\
            end_frame_image uploadIDs = uploadIDs !! 1%nat).
  { unfold first_frame_image, end_frame_image, frame.
    destruct Hloop as [| id0 ids Hid0 Hids0]; [by split |].
    simpl. simpl in Hid0. rewrite Hid0. split; [reflexivity |].
    destruct Hids0 as [| id1 ids' Hid1 _]; [reflexivity |].
    simpl. simpl in Hid1. by rewrite Hid1. }
  destruct Hframes as [Hfirst Hend].
  cbn [vr_first_frame_image vr_end_frame_image video_payload].
  assert (Hnonempty : Forall (fun id => id <> "") uploadIDs).
  { eapply Forall_impl; [exact Hloop |]. intros id Hid. by apply truthy_string. }
  split; [exact Hfirst |]. split; [exact Hend |]. split; [exact Hnonempty |].
  rewrite Hfirst, Hend.
  destruct Hnonempty as [| id0 ids Hid0 Hids0]; simpl.
  - split; [intros [x Hx]; discriminate | by split].
  - split; [eauto |]. split; [congruence |].
    destruct Hids0 as [| id1 ids' Hid1 _]; simpl; congruence.
Qed.

End Frames.

Lemma video_frames_witness :
  let trace :=
    trace_of (run (Sample.world None Sample.accepted) []
                (Controller.createVideoGenerationTask (H := Sample.imports)
                   "jimeng-video-3.0" "a cat"
                   (Sample.video_options_with None
                      [VStr "https://a/first.png"; VStr "https://a/end.png"] [])
                   "token")) in
  let rq := Controller.video_payload "jimeng-video-3.0" "a cat" "1:1" "720p" 5
              ["asset-0"; "asset-1"] Sample.cn in
  GenerateVideo rq ∈ requests trace /\
  uploaded_ids trace = ["asset-0"; "asset-1"] /\
  vr_first_frame_image rq = uploaded_ids trace !! 0%nat /\
  vr_end_frame_image rq = uploaded_ids trace !! 1%nat.
Proof.
  cbv zeta.
  assert (Hin : GenerateVideo
                  (Controller.video_payload "jimeng-video-3.0" "a cat" "1:1" "720p" 5
                     ["asset-0"; "asset-1"] Sample.cn) ∈
                requests (trace_of (run (Sample.world None Sample.accepted) []
                          (Controller.createVideoGenerationTask (H := Sample.imports)
                             "jimeng-video-3.0" "a cat"
                             (Sample.video_options_with None
                                [VStr "https://a/first.png"; VStr "https://a/end.png"] [])
                             "token")))).
  { vm_compute. apply list_elem_of_here. }
  split; [exact Hin |]. split; [reflexivity |].
  destruct (video_frames_are_the_first_two_upload_ids (H := Sample.imports)
              _ _ _ _ _ _ Hin) as (Hfirst & Hend & _).
  split; [exact Hfirst | exact Hend].
Defined.

Lemma uploaded_files_shadow_witness :
  let options :=
    Sample.video_options_with None [VStr "https://a/ignored.png"]
      [None; Some (mkFile "first.png" "/tmp/upload-1")] in
  Controller.vo_files options = Some [None; Some (mkFile "first.png" "/tmp/upload-1")] /\
  exists uploads rest,
    trace_of (run (Sample.world None Sample.accepted) []
                (Controller.createVideoGenerationTask (H := Sample.imports)
                   "jimeng-video-3.0" "a cat" options "token"))
      = uploads ++ rest /\
    Forall (fun e => event_passes reads_and_uploads e = true) uploads /\
    (rest = [] \/ exists rq reply,
        rest = [Event (Request "post" Controller.generate_path "token" (GenerateVideo rq))
                  reply]).
Proof.
  cbv zeta. split; [reflexivity |].
  exact (uploaded_files_shadow_file_paths (H := Sample.imports)
           (Sample.world None Sample.accepted) "jimeng-video-3.0" "a cat"
           (Sample.video_options_with None [VStr "https://a/ignored.png"]
              [None; Some (mkFile "first.png" "/tmp/upload-1")])
           "token" None [Some (mkFile "first.png" "/tmp/upload-1")] eq_refl).
Defined.

Lemma text_only_video_witness :
  parseRegionFromToken (Imports := Sample.imports) "token" = Returned Sample.cn /\
  exists rq reply,
    run (Sample.world None Sample.accepted) []
      (Controller.createVideoGenerationTask (H := Sample.imports) "jimeng-video-3.0" "a cat"
         (Controller.mkVideoOptions None None None None None) "token")
      = ([Event (Request "post" Controller.generate_path "token" (GenerateVideo rq)) reply],
         reply ≫= Controller.video_history_id_of) /\
    vr_model rq = "jimeng-video-3.0" /\
    vr_first_frame_image rq = None /\ vr_end_frame_image rq = None.
Proof.
  split; [reflexivity |].
  exact (text_only_video_sends_one_request_without_frames (H := Sample.imports)
           (Sample.world None Sample.accepted) "jimeng-video-3.0" "a cat"
           (Controller.mkVideoOptions None None None None None) "token"
           Sample.cn "jimeng-video-3.0" eq_refl eq_refl eq_refl eq_refl).
Defined.

(** ** Text to image *)

Section TextToImage.
Context `{Imports}.
Import Controller.

(** The run of the text-to-image task, step by step. *)
Lemma run_text_to_image world _model prompt options tok :
  run world [] (createImageGenerationTask _model prompt options tok) =
    match parseRegionFromToken tok with
    | Raised e => ([], Raised e)
    | Returned regionInfo =>
        match getImageModel _model (isInternational regionInfo) with
        | Raised e => ([], Raised e)
        | Returned names =>
            match resolveResolution (snd names) regionInfo
                    (default "2k" (io_resolution options))
                    (default "1:1" (io_ratio options)) with
            | Raised e => ([], Raised e)
            | Returned resolutionResult =>
                let c := Request "post" generate_path tok
                           (GenerateImage
                              (mkImageRequest (fst names) (snd names) prompt
                                 (default "" (io_negativePrompt options))
                                 (default (1 # 2)%Q (io_sampleStrength options))
                                 resolutionResult
                                 (default false (io_intelligentRatio options))
                                 text2img [] regionInfo)) in
                ([Event c (world _ [] c)], world _ [] c ≫= history_id_of)
            end
        end
    end.
Proof.
  unfold createImageGenerationTask.
  rewrite run_bind, run_lift.
  destruct (parseRegionFromToken tok) as [regionInfo | e]; [| reflexivity].
  rewrite run_bind, run_lift.
  destruct (getImageModel _ _) as [names | e]; [| reflexivity].
  rewrite run_bind, run_lift.
  destruct (resolveResolution _ _ _ _) as [resolutionResult | e]; [| reflexivity].
  rewrite run_bind, run_await. cbv zeta.
  destruct (world value [] _) as [response | e]; [| reflexivity].
  by rewrite run_lift.
Qed.

(** X10. What [createImageGenerationTask] does, case by case.  When the
    region, the model or the resolution cannot be resolved it makes no call
    and fails with the error of the resolver.  When all three resolve it
    makes exactly one call, never an upload: the generation request of a
    text task without image ids, for the resolved model and resolution,
    with the prompt as given and the defaults for what the caller left out
    (sample strength one half, empty negative prompt, no intelligent
    ratio); its outcome is what the check of the history id makes of the
    reply. *)
Theorem text_to_image_sends_one_text_request world _model prompt options tok :
  let r := run world [] (createImageGenerationTask _model prompt options tok) in
  (forall e, parseRegionFromToken tok = Raised e -> r = ([], Raised e)) /\
  (forall regionInfo e,
      parseRegionFromToken tok = Returned regionInfo ->
      getImageModel _model (isInternational regionInfo) = Raised e ->
      r = ([], Raised e)) /\
  (forall regionInfo names e,
      parseRegionFromToken tok = Returned regionInfo ->
      getImageModel _model (isInternational regionInfo) = Returned names ->
      resolveResolution (snd names) regionInfo (default "2k" (io_resolution options))
        (default "1:1" (io_ratio options)) = Raised e ->
      r = ([], Raised e)) /\
  (forall regionInfo names resolutionResult,
      parseRegionFromToken tok = Returned regionInfo ->
      getImageModel _model (isInternational regionInfo) = Returned names ->
      resolveResolution (snd names) regionInfo (default "2k" (io_resolution options))
        (default "1:1" (io_ratio options)) = Returned resolutionResult ->
      let rq :=
        mkImageRequest (fst names) (snd names) prompt
          (default "" (io_negativePrompt options))
          (default (1 # 2)%Q (io_sampleStrength options))
          resolutionResult
          (default false (io_intelligentRatio options))
          text2img [] regionInfo in
      let c := Request "post" generate_path tok (GenerateImage rq) in
      r = ([Event c (world _ [] c)], world _ [] c ≫= history_id_of)
      /\ List.filter is_upload (trace_of r) = []
      /\ requests (trace_of r) = [GenerateImage rq]).
Proof.
  cbv zeta. rewrite run_text_to_image.
  split; [| split; [| split]].
  - by intros e ->.
  - by intros regionInfo e -> ->.
  - by intros regionInfo names e -> -> ->.
  - intros regionInfo names resolutionResult -> -> ->. cbv zeta. by repeat split.
Qed.

(** X12. Both image routes refuse a body that names size, width or height:
    they raise, before any call, the error that lists the offending keys in
    that order. *)
Theorem image_routes_refuse_size_parameters world (request : Routes.http_request) :
  let found :=
    List.filter (fun param => existsb (String.eqb param) (Js.keys (Routes.body request)))
      Routes.unsupportedParams in
  let refused : exn :=
    Error ("不支持的参数: " +:+ Json.join ", " found
           +:+ "。请使用 ratio 和 resolution 参数控制图像尺寸。") in
  Js.nullish (Routes.body request) = false ->
  found <> [] ->
  run world [] (ImageRoute.generations request) = ([], Raised refused) /\
  run world [] (Routes.compositions request) = ([], Raised refused).
Proof.
  cbv zeta. intros Hbody Hfound.
  assert (Hreject : Routes.reject_unsupported (Routes.body request)
                    = Raised (Error ("不支持的参数: "
                                     +:+ Json.join ", "
                                           (List.filter
                                              (fun param =>
                                                 existsb (String.eqb param)
                                                   (Js.keys (Routes.body request)))
                                              Routes.unsupportedParams)
                                     +:+ "。请使用 ratio 和 resolution 参数控制图像尺寸。"))).
  { unfold Routes.reject_unsupported. rewrite Hbody.
    destruct (List.filter _ Routes.unsupportedParams); [congruence | reflexivity]. }
  unfold ImageRoute.generations, Routes.compositions.
  rewrite !run_bind, !run_lift, Hreject. by split.
Qed.

(** X13. The text-to-image route makes at most one call, the generation
    request of a text task, and none at all when the prompt is not a string.
    The model it asks the resolver for is the one of the body, or the
    default image model when the body has none. *)
Theorem generations_route_makes_one_request_at_most world (request : Routes.http_request) :
  let finalModel :=
    default DEFAULT_IMAGE_MODEL
      (Routes.as_string (Js.get_prop (Routes.body request) "model")) in
  ((exists e, run world [] (ImageRoute.generations request) = ([], Raised e)) \/
   (exists rq reply token regionInfo names,
       run world [] (ImageRoute.generations request)
         = ([Event (Request "post" generate_path token (GenerateImage rq)) reply],
            reply ≫= history_id_of) /\
       pick_token (Routes.authorization request) = Returned token /\
       parseRegionFromToken token = Returned regionInfo /\
       getImageModel finalModel (isInternational regionInfo) = Returned names /\
       ir_model rq = fst names /\
       ir_mode rq = text2img /\
       Js.get_prop (Routes.body request) "prompt" = VStr (ir_prompt rq))) /\
  (Routes.isString (Js.get_prop (Routes.body request) "prompt") = false ->
   exists e, run world [] (ImageRoute.generations request) = ([], Raised e)).
Proof.
  cbv zeta.
  assert (Hprompt : Routes.isString (Js.get_prop (Routes.body request) "prompt") = false ->
                    exists e, ImageRoute.validate_generation request = Raised e).
  { intros Hp. unfold ImageRoute.validate_generation, Routes.validate.
    destruct (Routes.optional Routes.isString (Js.get_prop (Routes.body request) "model"));
      cbn [mbind outcome_bind]; [| eauto].
    rewrite Hp. cbn [mbind outcome_bind]. eauto. }
  split.
  - unfold ImageRoute.generations.
    rewrite run_bind, run_lift.
    destruct (Routes.reject_unsupported _) as [[] | e]; [| eauto].
    rewrite run_bind, run_lift.
    destruct (ImageRoute.validate_generation request) as [[] | e] eqn:Hvalid; [| eauto].
    rewrite run_bind, run_lift.
    destruct (pick_token _) as [token | e] eqn:Htoken; [| eauto].
    rewrite run_text_to_image.
    destruct (parseRegionFromToken token) as [regionInfo | e] eqn:Hregion; [| eauto].
    destruct (getImageModel _ _) as [names | e] eqn:Hnames; [| eauto].
    destruct (resolveResolution _ _ _ _) as [resolutionResult | e]; [| eauto].
    right. cbv zeta.
    destruct (Routes.isString (Js.get_prop (Routes.body request) "prompt")) eqn:Hp;
      [| destruct (Hprompt eq_refl) as [e He]; congruence].
    destruct (Js.get_prop (Routes.body request) "prompt") as [| | | | p | |];
      try discriminate.
    eexists _, _, token, regionInfo, names.
    split; [reflexivity |]. by repeat split.
  - intros Hp. destruct (Hprompt Hp) as [e He].
    unfold ImageRoute.generations.
    rewrite run_bind, run_lift.
    destruct (Routes.reject_unsupported _) as [[] | e']; [| eauto].
    rewrite run_bind, run_lift, He. eauto.
Qed.

End TextToImage.

(** A body that names a width and a size. *)
Lemma text_to_image_witness :
  let rq :=
    mkImageRequest "jimeng-4.0" "jimeng-4.0" "a cat" "" (1 # 2)%Q
      (mkResolutionSpec 2048 2048 "2k") false text2img [] Sample.cn in
  requests (trace_of (run (Sample.world None Sample.accepted) []
                        (Controller.createImageGenerationTask (H := Sample.imports)
                           "jimeng-4.0" "a cat" Sample.no_image_options "token")))
    = [GenerateImage rq].
Proof.
  cbv zeta.
  destruct (text_to_image_sends_one_text_request (H := Sample.imports)
              (Sample.world None Sample.accepted) "jimeng-4.0" "a cat"
              Sample.no_image_options "token") as (_ & _ & _ & Hsent).
  destruct (Hsent Sample.cn ("jimeng-4.0", "jimeng-4.0") (mkResolutionSpec 2048 2048 "2k")
              eq_refl eq_refl eq_refl) as (_ & _ & Hrequests).
  exact Hrequests.
Defined.

Lemma image_routes_refuse_size_witness :
  let request :=
    MoreSample.text_request
      (VObj [("prompt", VStr "a cat"); ("width", VNum 512); ("size", VStr "1024x1024")]) in
  Js.nullish (Routes.body request) = false /\
  run (Sample.world None Sample.accepted) [] (ImageRoute.generations (H := Sample.imports) request)
    = ([], Raised (Error "不支持的参数: size, width。请使用 ratio 和 resolution 参数控制图像尺寸。")).
Proof.
  cbv zeta. split; [reflexivity |].
  refine (proj1 (image_routes_refuse_size_parameters (H := Sample.imports)
                   (Sample.world None Sample.accepted)
                   (MoreSample.text_request
                      (VObj [("prompt", VStr "a cat"); ("width", VNum 512);
                             ("size", VStr "1024x1024")]))
                   eq_refl _)).
  vm_compute. discriminate.
Defined.

(** A submitted text task: the id it returns is truthy. *)
Lemma history_id_never_falsy_witness :
  outcome_of (run (Sample.world None Sample.accepted) []
                (Controller.createImageGenerationTask (H := Sample.imports)
                   "jimeng-4.0" "a cat" Sample.no_image_options "token"))
    = Returned (VStr "h-1") /\
  Js.truthy (VStr "h-1") = true.
Proof.
  split; [reflexivity |].
  exact (history_id_never_falsy (H := Sample.imports)
           (Sample.world None Sample.accepted) "jimeng-4.0" "a cat" []
           Sample.no_image_options (Sample.video_options_with None [] []) "token"
           (VStr "h-1") (or_introl eq_refl)).
Defined.

(** ** What the status queries return *)

Lemma falsy_not_truthy (v : value) : Js.truthy v = false <-> Js.truthy v <> true.
Proof. destruct (Js.truthy v); split; congruence. Qed.

(** X17. [extractVideoUrl] returns a truthy value or [null], and [null]
    exactly when none of the four fields of the item's video holds a value.
    The transcoded origin URL wins over the others, then the play URL, the
    download URL and the plain URL. *)
Theorem extractVideoUrl_is_null_only_without_any_field (item : value) :
  let video := Js.opt_prop item "video" in
  let origin :=
    Js.opt_prop (Js.opt_prop (Js.opt_prop video "transcoded_video") "origin") "video_url" in
  let play := Js.opt_prop video "play_url" in
  let download := Js.opt_prop video "download_url" in
  let url := Js.opt_prop video "url" in
  (Js.truthy (ImageUtils.extractVideoUrl item) = true
   \/ ImageUtils.extractVideoUrl item = VNull) /\
  (ImageUtils.extractVideoUrl item = VNull <->
     Js.truthy origin = false /\ Js.truthy play = false
     /\ Js.truthy download = false /\ Js.truthy url = false) /\
  (Js.truthy origin = true -> ImageUtils.extractVideoUrl item = origin) /\
  (Js.truthy origin = false -> Js.truthy play = true ->
     ImageUtils.extractVideoUrl item = play) /\
  (Js.truthy origin = false -> Js.truthy play = false -> Js.truthy download = true ->
     ImageUtils.extractVideoUrl item = download) /\
  (Js.truthy origin = false -> Js.truthy play = false -> Js.truthy download = false ->
     Js.truthy url = true -> ImageUtils.extractVideoUrl item = url).
Proof.
  cbv zeta. unfold ImageUtils.extractVideoUrl.
  destruct (Js.truthy (Js.opt_prop (Js.opt_prop (Js.opt_prop (Js.opt_prop item "video")
              "transcoded_video") "origin") "video_url")) eqn:Ho;
    [| destruct (Js.truthy (Js.opt_prop (Js.opt_prop item "video") "play_url")) eqn:Hp;
       [| destruct (Js.truthy (Js.opt_prop (Js.opt_prop item "video") "download_url")) eqn:Hd;
          [| destruct (Js.truthy (Js.opt_prop (Js.opt_prop item "video") "url")) eqn:Hu]]];
    (split; [tauto |]); (split; [| by repeat split; intros; try discriminate]);
    split; try (intros (? & ? & ? & ?); discriminate); try done;
    intros Hnull; rewrite Hnull in *; discriminate.
Qed.

Lemma extractImageUrls_items_spec (items : list value) (urls : list string) :
  ImageUtils.extractImageUrls_items items = Returned urls ->
  urls = omap (fun item =>
                 match ImageUtils.large_image_url item with
                 | VStr raw => if Js.truthy (VStr raw) then Some (Str.unescape_amp raw) else None
                 | _ => None
                 end) items.
Proof.
  revert urls. induction items as [| item rest IH]; intros urls;
    cbn [ImageUtils.extractImageUrls_items omap list_omap].
  - by intros [= <-].
  - unfold ImageUtils.extractImageUrl.
    destruct (Js.truthy (ImageUtils.large_image_url item)) eqn:Htruthy.
    + destruct (ImageUtils.replace_amp _) as [u |] eqn:Hreplace; [| discriminate].
      apply replace_amp_returned in Hreplace as (raw & Hraw & ->).
      destruct (ImageUtils.extractImageUrls_items rest) as [us |]; [| discriminate].
      intros [= <-]. rewrite Hraw in *. rewrite Htruthy. f_equal. by apply IH.
    + destruct (ImageUtils.extractImageUrls_items rest) as [us |]; [| discriminate].
      intros [= <-]. rewrite (IH us eq_refl).
      destruct (ImageUtils.large_image_url item) as [| | | | raw | |]; try reflexivity.
      by rewrite Htruthy.
Qed.

Lemma omap_length_le {A B} (f : A -> option B) (l : list A) :
  (length (omap f l) <= length l)%nat.
Proof.
  induction l as [| a l IH]; cbn [omap list_omap length]; [lia |].
  destruct (f a); cbn [length]; lia.
Qed.

Lemma extractImageUrls_bounded_and_clean
    (itemList : value) (urls : list string) :
  ImageUtils.extractImageUrls itemList = Returned urls ->
  exists items,
    itemList = VArr items /\
    (length urls <= length items)%nat /\
    Forall (fun url => url <> "" /\ ~ Str.occurs Str.escaped_amp url) urls.
Proof.
  destruct itemList; try discriminate. cbn [ImageUtils.extractImageUrls]. intros Hurls.
  exists items. split; [reflexivity |].
  apply extractImageUrls_items_spec in Hurls. subst urls.
  split; [apply omap_length_le |].
  induction items as [| item rest IH]; cbn [omap list_omap]; [constructor |].
  destruct (ImageUtils.large_image_url item) as [| | | | raw | |]; try exact IH.
  destruct (Js.truthy (VStr raw)) eqn:Hraw; [| exact IH].
  constructor; [| exact IH]. split.
  - apply unescape_amp_nonempty. by apply truthy_string.
  - apply unescape_amp_leaves_no_escape.
Qed.

(** X16. [extractImageUrls] works on arrays only.  When it returns, the
    URLs are, in the order of the items, the un-escaped large-image URLs of
    the items that have a non-empty one; items without one are left out, so
    there are never more URLs than items, and no URL holds an escaped
    ampersand. *)
Theorem extractImageUrls_keeps_order_and_drops_items_without_url
    (itemList : value) (urls : list string) :
  ImageUtils.extractImageUrls itemList = Returned urls ->
  exists items,
    itemList = VArr items /\
    urls = omap (fun item =>
                   match ImageUtils.large_image_url item with
                   | VStr raw =>
                       if Js.truthy (VStr raw) then Some (Str.unescape_amp raw) else None
                   | _ => None
                   end) items /\
    (length urls <= length items)%nat /\
    Forall (fun url => url <> "" /\ ~ Str.occurs Str.escaped_amp url) urls.
Proof.
  destruct itemList; try discriminate. simpl. intros Hurls.
  exists items. split; [reflexivity |].
  apply extractImageUrls_items_spec in Hurls. split; [exact Hurls |]. subst urls.
  split; [apply omap_length_le |].
  induction items as [| item rest IH]; cbn [omap list_omap]; [constructor |].
  destruct (ImageUtils.large_image_url item) as [| | | | raw | |]; try exact IH.
  destruct (Js.truthy (VStr raw)) eqn:Hraw; [| exact IH].
  constructor; [| exact IH]. split.
  - apply unescape_amp_nonempty. by apply truthy_string.
  - apply unescape_amp_leaves_no_escape.
Qed.

Lemma extractImageUrls_witness :
  let itemList :=
    VArr [VObj [("image", VObj [("large_images",
                                 VArr [VObj [("image_url",
                                              VStr "https://a/1.png?x=1\u0026y=2")]])])];
          VObj [("image", VObj [])]] in
  ImageUtils.extractImageUrls itemList = Returned ["https://a/1.png?x=1&y=2"] /\
  exists items, itemList = VArr items /\ (1 <= length items)%nat.
Proof.
  cbv zeta. split; [reflexivity |].
  destruct (extractImageUrls_keeps_order_and_drops_items_without_url
              (VArr [VObj [("image", VObj [("large_images",
                                 VArr [VObj [("image_url",
                                              VStr "https://a/1.png?x=1\u0026y=2")]])])];
                     VObj [("image", VObj [])]])
              ["https://a/1.png?x=1&y=2"] eq_refl) as (items & Hitems & _ & Hlen & _).
  exists items. split; [exact Hitems | exact Hlen].
Defined.

(** X18. [extractAllImageUrls] returns one record per item, in the order of
    the items, each the one [extractImageUrlInfo] gives for that item; it
    raises when the list is not an array or when one item raises. *)
Theorem extractAllImageUrls_one_record_per_item (itemList : value) :
  (forall infos,
      AllImageUrls.extractAllImageUrls itemList = Returned infos ->
      exists items,
        itemList = VArr items /\
        Forall2 (fun item info => ImageUrlInfoOf.extractImageUrlInfo item = Returned info)
          items infos) /\
  (forall items,
      itemList = VArr items ->
      Forall (fun item => exists info, ImageUrlInfoOf.extractImageUrlInfo item = Returned info)
        items ->
      exists infos, AllImageUrls.extractAllImageUrls itemList = Returned infos
                    /\ length infos = length items).
Proof.
  split.
  - destruct itemList; try discriminate. simpl. intros infos Hinfos.
    exists items. split; [reflexivity |].
    revert infos Hinfos. induction items as [| item rest IH]; intros infos; simpl.
    + intros [= <-]. constructor.
    + destruct (ImageUrlInfoOf.extractImageUrlInfo item) as [info |] eqn:Hinfo;
        cbn [mbind outcome_bind]; [| discriminate].
      destruct (AllImageUrls.extractAllImageUrls_items rest) as [rest_infos |];
        cbn [mbind outcome_bind]; [| discriminate].
      intros [= <-]. constructor; [exact Hinfo | by apply IH].
  - intros items -> Hall. simpl.
    induction Hall as [| item rest [info Hinfo] _ (infos & Hinfos & Hlen)]; simpl.
    + by exists [].
    + rewrite Hinfo, Hinfos. cbn [mbind outcome_bind].
      exists (info :: infos). split; [reflexivity | simpl; congruence].
Qed.

Lemma is_num_spec (v : value) (n : Z) : Js.is_num v n = true <-> v = VNum n.
Proof.
  destruct v; simpl; try (split; [discriminate | congruence]).
  rewrite Z.eqb_eq. split; congruence.
Qed.

Section StatusShapes.
Context `{Imports}.
Import Controller.

(** The fields of the result for an existing record. *)
Lemma video_status_of_fields historyId result st :
  Js.truthy (Js.get_prop result historyId) = true ->
  video_status_of historyId result = Returned st ->
  let record := Js.get_prop result historyId in
  rawData st = record /\
  failCode st = Js.or_else (Js.get_prop record "fail_code") (VNum 0) /\
  finishTime st = Js.or_else (Js.opt_prop (Js.get_prop record "task") "finish_time") (VNum 0) /\
  (Js.truthy (videoUrl st) = true \/ videoUrl st = VNull).
Proof.
  intros Hrecord. unfold video_status_of.
  destruct (Json.stringify result) as [s |]; [| discriminate].
  unfold member_by_key. destruct (Js.nullish result); [discriminate |].
  cbn [mbind outcome_bind]. rewrite (found_own _ _ Hrecord).
  cbn [record_truthy record_field]. rewrite Hrecord. cbn [negb].
  match goal with
  | |- mbind _ ?o = _ -> _ => destruct o as [url | e] eqn:Hurl
  end; [| discriminate].
  cbn [mbind outcome_bind]. intros [= <-]. cbn [rawData failCode finishTime videoUrl].
  repeat split.
  destruct (Js.truthy match Pattern.search s with
                      | Some url0 => VStr url0
                      | None => VNull
                      end) eqn:Hmatched.
  - injection Hurl as <-. by left.
  - destruct (gt_zero _) as [[|] |]; cbn [mbind outcome_bind] in Hurl;
      try discriminate; injection Hurl as <-.
    + apply extractVideoUrl_truthy_or_null.
    + by right.
Qed.

(** X14. For an existing record the status of [queryVideoTaskStatus] is
    completed exactly when the result carries a video URL, and the URL is a
    truthy value or [null], never anything else.  The status is failed
    exactly when the raw code is 50 and there is no URL.  The raw record
    comes back as it is, and the fail code and the finish time are 0 when
    the record has none. *)
Theorem video_status_is_completed_exactly_with_a_url (world : env) historyId tok result st :
  world _ [] (Request "post" history_path tok (HistoryByIds [historyId] false))
    = Returned result ->
  outcome_of (run world [] (queryVideoTaskStatus historyId tok)) = Returned st ->
  Js.truthy (Js.get_prop result historyId) = true ->
  let record := Js.get_prop result historyId in
  (Js.truthy (videoUrl st) = true \/ videoUrl st = VNull) /\
  (status st = "completed" <-> Js.truthy (videoUrl st) = true) /\
  (status st = "failed" <-> statusCode st = VNum 50 /\ videoUrl st = VNull) /\
  (status st = "completed" \/ status st = "processing" \/ status st = "failed"
   \/ status st = "unknown") /\
  statusCode st = Js.get_prop record "status" /\
  rawData st = record /\
  (Js.truthy (Js.get_prop record "fail_code") = false -> failCode st = VNum 0) /\
  (Js.truthy (Js.opt_prop (Js.get_prop record "task") "finish_time") = false ->
     finishTime st = VNum 0).
Proof.
  intros Hworld Hst Hrecord. cbv zeta.
  rewrite run_queryVideoTaskStatus in Hst. unfold outcome_of in Hst. cbn [snd] in Hst.
  rewrite Hworld in Hst. cbn [mbind outcome_bind] in Hst.
  pose proof (found_own _ _ Hrecord) as Hfound.
  assert (Hexists : record_truthy (found result historyId) = true)
    by (by rewrite Hfound).
  destruct (video_status_of_record _ _ _ Hexists Hst) as [Hcode Hstatus].
  rewrite Hfound in Hcode, Hstatus. cbn [record_field] in Hcode, Hstatus.
  destruct (video_status_of_fields _ _ _ Hrecord Hst) as (Hraw & Hfail & Hfinish & Hurl).
  rewrite <- Hcode in Hstatus.
  split; [exact Hurl |].
  assert (Hnull : Js.truthy (videoUrl st) = false -> videoUrl st = VNull)
    by (intros Hf; destruct Hurl as [Ht | Hn]; [congruence | exact Hn]).
  split; [| split; [| split; [| split; [| split; [| split]]]]].
  - rewrite Hstatus. destruct (Js.truthy (videoUrl st)); [by split |].
    destruct (Js.is_num (statusCode st) 20); [split; discriminate |].
    destruct (Js.is_num (statusCode st) 10 || Js.is_num (statusCode st) 30);
      [split; discriminate |].
    destruct (Js.is_num (statusCode st) 50); split; discriminate.
  - rewrite Hstatus. destruct (Js.truthy (videoUrl st)) eqn:Htruthy.
    + split; [discriminate |]. intros [_ Hn]. rewrite Hn in Htruthy. discriminate.
    + specialize (Hnull eq_refl).
      destruct (Js.is_num (statusCode st) 20) eqn:H20.
      { apply is_num_spec in H20. split; [discriminate |]. intros [H50 _]. congruence. }
      destruct (Js.is_num (statusCode st) 10) eqn:H10.
      { apply is_num_spec in H10. split; [discriminate |]. intros [H50 _]. congruence. }
      destruct (Js.is_num (statusCode st) 30) eqn:H30.
      { apply is_num_spec in H30. split; [discriminate |]. intros [H50 _]. congruence. }
      cbn [orb].
      destruct (Js.is_num (statusCode st) 50) eqn:H50.
      * apply is_num_spec in H50. by split.
      * split; [discriminate |]. intros [Hc _].
        apply is_num_spec in Hc. congruence.
  - rewrite Hstatus. destruct (Js.truthy (videoUrl st)); [by left |].
    destruct (Js.is_num (statusCode st) 20); [by right; left |].
    destruct (Js.is_num (statusCode st) 10 || Js.is_num (statusCode st) 30);
      [by right; left |].
    destruct (Js.is_num (statusCode st) 50); [by right; right; left | by repeat right].
  - exact Hcode.
  - exact Hraw.
  - intros Hf. rewrite Hfail. unfold Js.or_else. by rewrite Hf.
  - intros Hf. rewrite Hfinish. unfold Js.or_else. by rewrite Hf.
Qed.

(** X15. What [queryImageTaskStatus] returns when it returns: the record
    that [response[historyId]] yields, own or inherited, is truthy, and
    its raw status and fail code and the record itself come back untouched.
    Its results are [null] or a non-empty list; a list is only built from
    an item array, has at most one URL per item, and its URLs hold no
    escaped ampersand; the item count is then the length of that array.
    For a name that the response only inherits, such as constructor, the
    query returns with no status, no results and no items. *)
Theorem image_status_results_are_null_or_clean_urls (world : env) historyId tok response st :
  world _ [] (Request "post" history_path tok (HistoryByIds [historyId] true))
    = Returned response ->
  outcome_of (run world [] (queryImageTaskStatus historyId tok)) = Returned st ->
  let record := found response historyId in
  record_truthy record = true /\
  its_history_id st = historyId /\ its_task_type st = "image" /\
  its_status st = record_field record "status" /\
  its_fail_code st = record_field record "fail_code" /\
  its_raw_data st = record /\
  (forall urls, its_results st = Some urls ->
     exists items,
       record_field record "item_list" = VArr items /\
       its_item_count st = VNum (Z.of_nat (length items)) /\
       (0 < length urls <= length items)%nat /\
       Forall (fun url => url <> "" /\ ~ Str.occurs Str.escaped_amp url) urls) /\
  (forall receiver key, record = Builtin receiver key ->
     its_status st = VUndefined /\ its_fail_code st = VUndefined /\
     its_results st = None /\ its_item_count st = VNum 0).
Proof.
  intros Hworld Hst. cbv zeta.
  rewrite run_queryImageTaskStatus in Hst. unfold outcome_of in Hst. cbn [snd] in Hst.
  rewrite Hworld in Hst. cbn [mbind outcome_bind] in Hst.
  unfold image_status_of in Hst.
  destruct (member_by_key response historyId) as [record |] eqn:Hmember; [| discriminate].
  cbn [mbind outcome_bind] in Hst.
  assert (Hrecord : record = found response historyId).
  { unfold member_by_key in Hmember. destruct (Js.nullish response); [discriminate |].
    by injection Hmember. }
  subst record.
  destruct (record_truthy (found response historyId)) eqn:Htruthy;
    cbn [negb] in Hst; [| discriminate].
  destruct (gt_zero _) as [nonempty |] eqn:Hnonempty; [| discriminate].
  cbn [mbind outcome_bind] in Hst.
  match type of Hst with
  | mbind _ ?o = _ => destruct o as [has_image |] eqn:Himage
  end; [| discriminate].
  cbn [mbind outcome_bind] in Hst.
  match type of Hst with
  | mbind _ ?o = _ => destruct o as [results |] eqn:Hresults
  end; [| discriminate].
  cbn [mbind outcome_bind] in Hst. injection Hst as <-.
  cbn [its_history_id its_task_type its_status its_fail_code its_raw_data its_results
       its_item_count].
  repeat (split; [reflexivity |]).
  split.
  - intros urls ->.
    destruct has_image; [| discriminate].
    destruct (ImageUtils.extractImageUrls _) as [imageUrls |] eqn:Hurls; [| discriminate].
    cbn [mbind outcome_bind] in Hresults.
    destruct (0 <? length imageUrls)%nat eqn:Hpositive; [| discriminate].
    injection Hresults as ->.
    apply extractImageUrls_bounded_and_clean in Hurls as (items & Hitems & Hlen & Hclean).
    exists items.
    assert (Hlist : record_field (found response historyId) "item_list" = VArr items).
    { unfold Js.or_else in Hitems.
      destruct (Js.truthy (record_field (found response historyId) "item_list"));
        [exact Hitems |].
      injection Hitems as <-. destruct urls; [discriminate | simpl in Hlen; lia]. }
    split; [exact Hlist |].
    unfold Js.or_else. rewrite Hlist. cbn [Js.truthy].
    split; [reflexivity |]. split; [| exact Hclean].
    apply Nat.ltb_lt in Hpositive. lia.
  - intros receiver key Hbuiltin. rewrite Hbuiltin in *.
    cbn [record_field Js.or_else Js.truthy] in *.
    change (Js.or_else VUndefined (VArr [])) with (VArr []) in *.
    change (Js.get_prop (VArr []) "length") with (VNum 0) in *.
    cbn [gt_zero] in Hnonempty. injection Hnonempty as <-.
    injection Himage as <-. injection Hresults as <-.
    repeat split.
Qed.

End StatusShapes.

(** ** The high-quality video lookup *)

Lemma list_ascii_app (a b : string) :
  list_ascii_of_string (a +:+ b) = list_ascii_of_string a ++ list_ascii_of_string b.
Proof.
  induction a as [| x a IH]; [reflexivity |].
  change (x :: list_ascii_of_string (a +:+ b)
          = x :: (list_ascii_of_string a ++ list_ascii_of_string b)).
  by rewrite IH.
Qed.

Lemma url_tail_is_a_prefix (s : string) :
  exists post, s = HighQuality.url_tail s +:+ post.
Proof.
  induction s as [| c s [post Hpost]]; [by exists "" |].
  cbn [HighQuality.url_tail].
  destruct (_ || _).
  - by exists (String c s).
  - exists post. change (String c s = String c (HighQuality.url_tail s +:+ post)).
    by rewrite <- Hpost.
Qed.

Lemma url_tail_has_no_quote (s : string) :
  free_of_quotes (HighQuality.url_tail s).
Proof.
  induction s as [| c s IH]; [constructor |].
  cbn [HighQuality.url_tail].
  destruct (Ascii.eqb c Str.dquote) eqn:Hq; [constructor |].
  destruct (Ascii.eqb c "\") eqn:Hb; [constructor |].
  cbn [orb]. destruct (0 <? Pattern.space_width (String c s))%nat; [constructor |].
  constructor; [| exact IH].
  apply Ascii.eqb_neq in Hq, Hb. by split.
Qed.

Lemma free_of_quotes_app (a b : string) :
  free_of_quotes a -> free_of_quotes b -> free_of_quotes (a +:+ b).
Proof.
  unfold free_of_quotes. rewrite list_ascii_app. apply Forall_app_2.
Qed.

Lemma host_then_tail_clean (hosts : list string) :
  Forall free_of_quotes hosts ->
  matches_a_clean_prefix (HighQuality.host_then_tail hosts).
Proof.
  intros Hhosts s m. induction Hhosts as [| host others Hhost _ IH];
    cbn [HighQuality.host_then_tail]; [discriminate |].
  destruct (Str.strip_prefix host s) as [r |] eqn:Hr; [| exact IH].
  destruct (String.eqb (HighQuality.url_tail r) ""); [exact IH |].
  intros [= <-]. apply strip_prefix_app in Hr. split.
  - destruct (url_tail_is_a_prefix r) as [post Hpost]. exists post.
    by rewrite string_app_assoc, <- Hpost.
  - apply free_of_quotes_app; [exact Hhost | apply url_tail_has_no_quote].
Qed.

Lemma run_then_host_clean (hosts : list string) :
  Forall free_of_quotes hosts ->
  matches_a_clean_prefix (HighQuality.run_then_host hosts).
Proof.
  intros Hhosts s. induction s as [| c s IH]; intros m;
    cbn [HighQuality.run_then_host]; [by apply host_then_tail_clean |].
  destruct (Ascii.eqb c Str.dquote) eqn:Hq; [by apply host_then_tail_clean |].
  destruct (Ascii.eqb c "\") eqn:Hb; [by apply host_then_tail_clean |].
  cbn [orb].
  destruct (HighQuality.run_then_host hosts s) as [m' |]; [| by apply host_then_tail_clean].
  intros [= <-]. destruct (IH m' eq_refl) as [[post Hpost] Hclean]. split.
  - exists post. change (String c s = String c (m' +:+ post)). by rewrite <- Hpost.
  - constructor; [| exact Hclean].
    apply Ascii.eqb_neq in Hq, Hb. by split.
Qed.

Lemma digits_spec (s : string) :
  s = (Pattern.digits s).1 +:+ (Pattern.digits s).2
  /\ free_of_quotes (Pattern.digits s).1.
Proof.
  induction s as [| c s [Hs Hclean]]; [split; [reflexivity | constructor] |].
  cbn [Pattern.digits].
  destruct (Pattern.is_digit c) eqn:Hc; [| split; [reflexivity | constructor]].
  destruct (Pattern.digits s) as [d r]. cbn [fst snd] in *. split.
  - change (String c s = String c (d +:+ r)). by rewrite <- Hs.
  - constructor; [| exact Hclean].
    split; intros ->; vm_compute in Hc; discriminate.
Qed.

(** A match of one of the patterns at the start of a text. *)
Lemma high_quality_match_here (after : string -> option string) (s m : string) :
  matches_a_clean_prefix after ->
  HighQuality.match_here after s = Some m ->
  (exists post, s = m +:+ post) /\ free_of_quotes m
  /\ String.prefix "https://v" m = true.
Proof.
  intros Hafter. unfold HighQuality.match_here.
  destruct (Str.strip_prefix "https://v" s) as [r1 |] eqn:Hr1; [| discriminate].
  cbn [mbind option_bind].
  destruct (digits_spec r1) as [Hdigits Hclean].
  destruct (Pattern.digits r1) as [d r2]. cbn [fst snd] in *.
  destruct (String.eqb d ""); [discriminate |].
  destruct (Str.strip_prefix "-" r2) as [r3 |] eqn:Hr3; [| discriminate].
  cbn [mbind option_bind].
  destruct (after r3) as [m' |] eqn:Hm'; [| discriminate].
  cbn [mbind option_bind]. intros [= <-].
  destruct (Hafter _ _ Hm') as [[post Hpost] Hclean'].
  apply strip_prefix_app in Hr1, Hr3. split; [| split].
  - exists post. rewrite Hr1, Hdigits, Hr3, Hpost.
    by rewrite !string_app_assoc.
  - repeat apply free_of_quotes_app; try assumption.
    + repeat constructor; discriminate.
    + repeat constructor; discriminate.
  - apply prefix_true_app. eauto.
Qed.

Lemma high_quality_search (after : string -> option string) (s m : string) :
  matches_a_clean_prefix after ->
  HighQuality.search after s = Some m ->
  Str.occurs m s /\ free_of_quotes m /\ String.prefix "https://v" m = true.
Proof.
  intros Hafter. induction s as [| c s IH]; cbn [HighQuality.search].
  - destruct (HighQuality.match_here after "") as [m' |] eqn:Hhere; [| discriminate].
    intros [= ->]. destruct (high_quality_match_here _ _ _ Hafter Hhere)
      as ([post Hpost] & Hclean & Hprefix).
    repeat split; try assumption. by exists "", post.
  - destruct (HighQuality.match_here after (String c s)) as [m' |] eqn:Hhere.
    + intros [= ->]. destruct (high_quality_match_here _ _ _ Hafter Hhere)
        as ([post Hpost] & Hclean & Hprefix).
      repeat split; try assumption. by exists "", post.
    + intros Hm. destruct (IH Hm) as ((pre & post & Hs) & Hclean & Hprefix).
      repeat split; try assumption. exists (String c pre), post.
      change (String c s = String c (pre +:+ m +:+ post)). by rewrite <- Hs.
Qed.

Lemma first_match_truthy_or_null (responseStr : string) :
  Js.truthy (HighQuality.first_match responseStr) = true
  \/ HighQuality.first_match responseStr = VNull.
Proof.
  assert (Hclean : forall after url,
            matches_a_clean_prefix after ->
            HighQuality.search after responseStr = Some url ->
            Js.truthy (VStr url) = true).
  { intros after url Hafter Hurl.
    destruct (high_quality_search _ _ _ Hafter Hurl) as (_ & _ & Hprefix).
    apply truthy_string. intros ->. discriminate. }
  unfold HighQuality.first_match.
  destruct (HighQuality.dreamnia responseStr) as [url |] eqn:H1.
  { left. eapply Hclean; [| exact H1].
    apply host_then_tail_clean. repeat constructor; discriminate. }
  destruct (HighQuality.any_jimeng responseStr) as [url |] eqn:H2.
  { left. eapply Hclean; [| exact H2].
    apply run_then_host_clean. repeat constructor; discriminate. }
  destruct (HighQuality.any_video_host responseStr) as [url |] eqn:H3.
  { left. eapply Hclean; [| exact H3].
    apply run_then_host_clean. repeat constructor; discriminate. }
  by right.
Qed.


(** X19. A URL that [fetchHighQualityVideoUrl] takes from the text of the
    response by one of its three patterns is a piece of that text, starts
    with https://v and holds no double quote and no backslash; when no
    pattern matches the result is [null]. *)
Theorem pattern_url_is_a_clean_piece_of_the_response (responseStr : string) :
  HighQuality.first_match responseStr = VNull
  \/ exists url,
       HighQuality.first_match responseStr = VStr url
       /\ Str.occurs url responseStr
       /\ free_of_quotes url
       /\ String.prefix "https://v" url = true.
Proof.
  assert (Hone : Forall free_of_quotes ["dreamnia.jimeng.com/"])
    by (repeat constructor; discriminate).
  assert (Htwo : Forall free_of_quotes [".jimeng.com/"])
    by (repeat constructor; discriminate).
  assert (Hthree : Forall free_of_quotes [".vlabvod.com/"; ".jimeng.com/"])
    by (repeat constructor; discriminate).
  unfold HighQuality.first_match.
  destruct (HighQuality.dreamnia responseStr) as [url |] eqn:H1.
  { right. exists url. split; [reflexivity |].
    eapply high_quality_search; [| exact H1]. by apply host_then_tail_clean. }
  destruct (HighQuality.any_jimeng responseStr) as [url |] eqn:H2.
  { right. exists url. split; [reflexivity |].
    eapply high_quality_search; [| exact H2]. by apply run_then_host_clean. }
  destruct (HighQuality.any_video_host responseStr) as [url |] eqn:H3.
  { right. exists url. split; [reflexivity |].
    eapply high_quality_search; [| exact H3]. by apply run_then_host_clean. }
  by left.
Qed.

Section HighQualityLookup.
Context `{Imports}.

(** The value made of a response is a truthy one or [null]. *)
Lemma url_of_result_truthy_or_null (result v : value) :
  HighQuality.url_of_result result = Returned v ->
  Js.truthy v = true \/ v = VNull.
Proof.
  unfold HighQuality.url_of_result.
  destruct (Json.stringify result) as [responseStr |]; [| discriminate].
  destruct (Controller.member result "item_list") as [item_list |]; [| discriminate].
  cbn [mbind outcome_bind].
  destruct (Controller.gt_zero _) as [nonempty |]; [| discriminate].
  cbn [mbind outcome_bind].
  match goal with
  | |- (if Js.truthy ?u then _ else _) = _ -> _ => destruct (Js.truthy u) eqn:Hu
  end.
  - intros [= <-]. by left.
  - intros [= <-].
    apply first_match_truthy_or_null.
Qed.

(** X20. [fetchHighQualityVideoUrl] never raises: whatever the lookup
    request does, the result is a truthy value or [null], and it is [null]
    when the request fails.  The function makes no call besides the
    lookup. *)
Theorem fetchHighQualityVideoUrl_never_raises (world : env) (past : list event)
    (lookup : prog value) :
  trace_of (run world past (HighQuality.fetchHighQualityVideoUrl lookup))
    = trace_of (run world past lookup)
  /\ exists v,
       outcome_of (run world past (HighQuality.fetchHighQualityVideoUrl lookup)) = Returned v
       /\ (Js.truthy v = true \/ v = VNull)
       /\ (forall e, outcome_of (run world past lookup) = Raised e -> v = VNull).
Proof.
  unfold HighQuality.fetchHighQualityVideoUrl, trace_of, outcome_of.
  rewrite run_try_catch, run_bind.
  destruct (run world past lookup) as [tr [result | e]]; cbn [fst snd].
  - rewrite run_lift.
    destruct (HighQuality.url_of_result result) as [v | e] eqn:Hv.
    + split; [reflexivity |]. exists v. split; [reflexivity |].
      split; [by eapply url_of_result_truthy_or_null | discriminate].
    + split; [reflexivity |]. exists VNull. split; [reflexivity |].
      split; [by right | reflexivity].
  - split; [reflexivity |]. exists VNull. split; [reflexivity |].
    split; [by right | reflexivity].
Qed.

(** X21. When the response lists items and the first one has a video URL in
    one of its four fields, [fetchHighQualityVideoUrl] returns that URL
    and none of the patterns is consulted: the transcoded original first,
    then the download URL, the play URL and the plain URL. *)
Theorem structured_video_url_wins_over_the_patterns (world : env) (past : list event)
    (lookup : prog value) (result item : value) (rest : list value) :
  outcome_of (run world past lookup) = Returned result ->
  Js.get_prop result "item_list" = VArr (item :: rest) ->
  Js.truthy (HighQuality.structured_url item) = true ->
  outcome_of (run world past (HighQuality.fetchHighQualityVideoUrl lookup))
    = Returned (HighQuality.structured_url item)
  /\ let video := Js.opt_prop item "video" in
     let origin :=
       Js.opt_prop (Js.opt_prop (Js.opt_prop video "transcoded_video") "origin")
         "video_url" in
     HighQuality.structured_url item =
       if Js.truthy origin then origin
       else if Js.truthy (Js.opt_prop video "download_url")
            then Js.opt_prop video "download_url"
       else if Js.truthy (Js.opt_prop video "play_url") then Js.opt_prop video "play_url"
       else Js.opt_prop video "url".
Proof.
  intros Hlookup Hitems Hurl. split.
  - unfold HighQuality.fetchHighQualityVideoUrl, outcome_of in *.
    rewrite run_try_catch, run_bind.
    destruct (run world past lookup) as [tr o]. cbn [snd] in Hlookup. subst o.
    rewrite run_lift. cbn [snd].
    unfold HighQuality.url_of_result.
    destruct (stringify_defined result) as [responseStr ->].
    { intros ->. discriminate. }
    unfold Controller.member.
    destruct (Js.nullish result) eqn:Hnullish.
    { destruct result; discriminate. }
    cbn [mbind outcome_bind]. rewrite Hitems.
    assert (Hlist : forall other,
              Js.or_else (Js.or_else (VArr (item :: rest)) other) (VArr [])
              = VArr (item :: rest)) by reflexivity.
    rewrite !Hlist.
    change (Js.get_prop (VArr (item :: rest)) "length")
      with (VNum (Z.of_nat (length (item :: rest)))).
    cbn [Controller.gt_zero mbind outcome_bind].
    replace (0 <? Z.of_nat (length (item :: rest))) with true
      by (symmetry; apply Z.ltb_lt; cbn [length]; lia).
    change (Js.get_index (VArr (item :: rest)) 0) with item.
    by rewrite Hurl.
  - cbv zeta. unfold HighQuality.structured_url, Js.or_else.
    destruct (Js.truthy (Js.opt_prop (Js.opt_prop (Js.opt_prop (Js.opt_prop item "video")
                "transcoded_video") "origin") "video_url")) eqn:Horigin;
      rewrite ?Horigin; [reflexivity |].
    destruct (Js.truthy (Js.opt_prop (Js.opt_prop item "video") "download_url"))
      eqn:Hdownload; rewrite ?Hdownload; [reflexivity |].
    destruct (Js.truthy (Js.opt_prop (Js.opt_prop item "video") "play_url"))
      eqn:Hplay; rewrite ?Hplay; reflexivity.
Qed.

End HighQualityLookup.

Lemma structured_video_url_wins_witness :
  outcome_of
    (run (Sample.world None Sample.accepted) []
       (HighQuality.fetchHighQualityVideoUrl (H := Sample.imports)
          (Ret (MoreSample.played "https://cdn.example/v.mp4"))))
    = Returned (VStr "https://cdn.example/v.mp4").
Proof.
  exact (proj1 (structured_video_url_wins_over_the_patterns (H := Sample.imports)
                  (Sample.world None Sample.accepted) []
                  (Ret (MoreSample.played "https://cdn.example/v.mp4"))
                  (MoreSample.played "https://cdn.example/v.mp4")
                  (VObj [("video", VObj [("play_url", VStr "https://cdn.example/v.mp4")])])
                  [] eq_refl eq_refl eq_refl)).
Defined.

(** ** Un-escaping *)

Lemma unescape_amp_clean (s : string) :
  ~ Str.occurs Str.escaped_amp s -> Str.unescape_amp s = s.
Proof.
  induction s as [| c s IH]; intros Hclean; [reflexivity |].
  rewrite unescape_amp_unfold.
  destruct (Str.strip_prefix Str.escaped_amp (String c s)) as [rest |] eqn:Hstrip.
  - exfalso. apply Hclean. apply strip_prefix_app in Hstrip.
    exists "", rest. exact Hstrip.
  - f_equal. apply IH. intros (pre & post & Hs). apply Hclean.
    exists (String c pre), post.
    change (String c s = String c (pre +:+ Str.escaped_amp +:+ post)). by rewrite <- Hs.
Qed.

(** X22. The URL that [extractImageUrl] returns is a fixed point of the
    replacement of the escaped ampersand, so replacing twice changes
    nothing; and it is the raw URL itself when the raw URL holds no escaped
    ampersand. *)
Theorem unescaped_url_is_a_fixed_point (item : value) (url : string) :
  ImageUtils.extractImageUrl item = Returned (Some url) ->
  Str.unescape_amp url = url
  /\ (forall raw, ImageUtils.large_image_url item = VStr raw ->
        ~ Str.occurs Str.escaped_amp raw -> url = raw).
Proof.
  unfold ImageUtils.extractImageUrl.
  destruct (Js.truthy (ImageUtils.large_image_url item)); [| discriminate].
  destruct (ImageUtils.large_image_url item) as [| | | | raw | |]; try discriminate.
  cbn [ImageUtils.replace_amp]. intros [= <-]. split.
  - apply unescape_amp_clean, unescape_amp_leaves_no_escape.
  - intros raw' [= <-] Hclean. by apply unescape_amp_clean.
Qed.

Lemma unescaped_url_witness :
  let item :=
    VObj [("image", VObj [("large_images",
                           VArr [VObj [("image_url", VStr "https://a/1.png?x=1&y=2")]])])] in
  ImageUtils.extractImageUrl item = Returned (Some "https://a/1.png?x=1&y=2")
  /\ Str.unescape_amp "https://a/1.png?x=1&y=2" = "https://a/1.png?x=1&y=2".
Proof.
  cbv zeta. split; [reflexivity |].
  exact (proj1 (unescaped_url_is_a_fixed_point
                  (VObj [("image", VObj [("large_images",
                           VArr [VObj [("image_url",
                                        VStr "https://a/1.png?x=1&y=2")]])])])
                  "https://a/1.png?x=1&y=2" eq_refl)).
Defined.

(** ** Credits *)

(** [queryCredits] gives back the balances that [getCredit] returns, and
    reports every failure of [getCredit] as a failed API request whose
    message ends with the message of the failure; it makes no call of its
    own. *)
Lemma run_queryCredits (world : env) (past : list event)
    (getCredit : string -> prog Credits.credit_info) (refreshToken : string) :
  trace_of (run world past (Credits.queryCredits getCredit refreshToken))
    = trace_of (run world past (getCredit refreshToken))
  /\ outcome_of (run world past (Credits.queryCredits getCredit refreshToken))
     = match outcome_of (run world past (getCredit refreshToken)) with
       | Returned credits => Returned credits
       | Raised error =>
           Raised (APIException API_REQUEST_FAILED ("积分查询失败: " +:+ message error))
       end.
Proof.
  unfold Credits.queryCredits, trace_of, outcome_of. rewrite run_try_catch.
  destruct (run world past (getCredit refreshToken)) as [tr [credits | error]];
    by split.
Qed.

Section CreditsRoute.
Context `{Imports}.

(** X23. GET /credits asks for the balances only when the authorization
    header is a string, with a token taken from that header, and makes no
    call besides that lookup.  It answers with the four balances unchanged;
    every failure of the lookup, whatever its kind, reaches the client as a
    failed API request that carries the message of the failure. *)
Theorem credits_route_passes_the_balances_through (world : env)
    (getCredit : string -> prog Credits.credit_info) (request : Routes.http_request) :
  (Routes.isString (Routes.authorization request) = false ->
     run world [] (Credits.credits getCredit request)
       = ([], Raised (invalid_params "headers.authorization")))
  /\ (forall token,
        Routes.isString (Routes.authorization request) = true ->
        pick_token (Routes.authorization request) = Returned token ->
        trace_of (run world [] (Credits.credits getCredit request))
          = trace_of (run world [] (getCredit token))
        /\ outcome_of (run world [] (Credits.credits getCredit request))
           = match outcome_of (run world [] (getCredit token)) with
             | Returned c =>
                 Returned (Credits.mkBalance (Credits.totalCredit c) (Credits.giftCredit c)
                             (Credits.purchaseCredit c) (Credits.vipCredit c))
             | Raised error =>
                 Raised (APIException API_REQUEST_FAILED
                           ("积分查询失败: " +:+ message error))
             end).
Proof.
  split.
  - intros Hheader. unfold Credits.credits. rewrite run_bind, run_lift.
    unfold Routes.validate. by rewrite Hheader.
  - intros token Hheader Htoken. unfold Credits.credits, trace_of, outcome_of.
    rewrite run_bind, run_lift. unfold Routes.validate. rewrite Hheader.
    rewrite run_bind, run_lift, Htoken, run_bind.
    destruct (run_queryCredits world [] getCredit token) as [Htrace Houtcome].
    unfold trace_of, outcome_of in Htrace, Houtcome.
    destruct (run world [] (Credits.queryCredits getCredit token)) as [tr o].
    cbn [fst snd] in Htrace, Houtcome. subst tr o.
    destruct (run world [] (getCredit token)) as [tr [c | error]]; by split.
Qed.

End CreditsRoute.

(** ** The reply of the composition route *)

Section CompositionReply.
Context `{Imports}.
Import Controller.

Lemma uploaded_are_uploads tok reg images ids :
  List.filter is_upload (uploaded tok reg images ids) = uploaded tok reg images ids.
Proof.
  unfold uploaded. revert ids.
  induction images as [| image images IH]; intros [| id ids]; try reflexivity.
  cbn [zip_with List.filter].
  replace (is_upload (Event (upload_of image tok reg) (Returned id))) with true
    by (by destruct image).
  by rewrite IH.
Qed.

Lemma run_read_files world (imageFiles : list uploaded_file) : forall past tr images,
  run world past (Routes.read_files imageFiles) = (tr, Returned images) ->
  length images = length imageFiles
  /\ exists new, tr = past ++ new /\ List.filter is_upload new = [] /\ requests new = [].
Proof.
  induction imageFiles as [| file rest IH]; intros past tr images;
    cbn [Routes.read_files].
  - intros [= <- <-]. split; [reflexivity |]. exists []. by rewrite app_nil_r.
  - rewrite run_bind, run_await.
    destruct (world Buffer past (ReadFileSync (filepath file))) as [data | e];
      [| discriminate].
    rewrite run_bind.
    destruct (run world _ (Routes.read_files rest)) as [tr' [images' | e]] eqn:Hrest;
      [| discriminate].
    intros [= <- <-].
    destruct (IH _ _ _ Hrest) as (Hlen & new & -> & Huploads & Hrequests).
    split; [cbn [length]; by rewrite Hlen |].
    exists (Event (ReadFileSync (filepath file)) (Returned data) :: new).
    split; [by rewrite <- app_assoc |]. split; [exact Huploads | exact Hrequests].
Qed.

(** The images of an accepted composition request: as many as the request
    carries, between 1 and 10, read without any upload or request. *)
Lemma run_composition_images world (request : Routes.http_request) tr images :
  let isMultiPart :=
    Str.startsWith (Routes.content_type request) "multipart/form-data" in
  let count :=
    if isMultiPart then length (default [] (Routes.image_files request))
    else length (Routes.items_of (Js.get_prop (Routes.body request) "images")) in
  run world [] (Routes.composition_images isMultiPart request) = (tr, Returned images) ->
  length images = count /\ (1 <= count <= 10)%nat
  /\ List.filter is_upload tr = [] /\ requests tr = [].
Proof.
  cbv zeta. unfold Routes.composition_images.
  destruct (Str.startsWith _ _).
  - destruct (Routes.image_files request) as [imageFiles |]; [| discriminate].
    change (default [] (Some imageFiles)) with imageFiles.
    destruct (length imageFiles =? 0)%nat eqn:Hzero; [discriminate |].
    destruct (10 <? length imageFiles)%nat eqn:Hten; [discriminate |].
    intros Hrun. apply run_read_files in Hrun as (Hlen & new & -> & Huploads & Hrequests).
    apply Nat.eqb_neq in Hzero. apply Nat.ltb_ge in Hten.
    split; [exact Hlen |]. split; [lia |]. split; [exact Huploads | exact Hrequests].
  - destruct (negb _ || _) eqn:Hzero; [discriminate |].
    destruct (10 <? _)%nat eqn:Hten; [discriminate |].
    rewrite run_bind, run_lift.
    destruct (Routes.check_body_images _ _); [| discriminate].
    intros [= <- <-]. apply orb_false_iff in Hzero as [_ Hzero].
    apply Nat.eqb_neq in Hzero. apply Nat.ltb_ge in Hten.
    rewrite length_map. split; [reflexivity |]. split; [lia |]. by split.
Qed.

(** X24. A composition request that the route answers has between 1 and 10
    images, the reply counts exactly the images of the request, each of
    them was uploaded once, a single request was sent to the vendor, and
    the history id of the reply is truthy. *)
Theorem submitted_composition_counts_its_images (world : env)
    (request : Routes.http_request) (reply : Routes.submitted) :
  let isMultiPart :=
    Str.startsWith (Routes.content_type request) "multipart/form-data" in
  let count :=
    if isMultiPart then length (default [] (Routes.image_files request))
    else length (Routes.items_of (Js.get_prop (Routes.body request) "images")) in
  let r := run world [] (Routes.compositions request) in
  outcome_of r = Returned reply ->
  Routes.input_images reply = count
  /\ (1 <= count <= 10)%nat
  /\ length (List.filter is_upload (trace_of r)) = count
  /\ length (requests (trace_of r)) = 1%nat
  /\ Js.truthy (Routes.history_id reply) = true.
Proof.
  cbv zeta. unfold Routes.compositions, outcome_of, trace_of.
  rewrite run_bind, run_lift.
  destruct (Routes.reject_unsupported _); [| discriminate].
  rewrite run_bind, run_lift.
  destruct (Routes.validate_composition _ _); [| discriminate].
  rewrite run_bind.
  destruct (run world [] (Routes.composition_images _ request))
    as [tr [images | e]] eqn:Himages; [| discriminate].
  apply run_composition_images in Himages as (Hlen & Hbounds & Huploads & Hrequests).
  rewrite run_bind, run_lift.
  destruct (pick_token _) as [token | e]; [| discriminate].
  rewrite run_bind. unfold createImageCompositionTask.
  rewrite run_bind, run_lift.
  destruct (parseRegionFromToken token) as [regionInfo | e]; [| discriminate].
  rewrite run_bind, run_lift.
  destruct (getImageModel _ _) as [names | e]; [| discriminate].
  rewrite run_bind, run_lift.
  destruct (resolveResolution _ _ _ _) as [resolutionResult | e]; [| discriminate].
  rewrite run_bind.
  destruct (run_upload_images world token regionInfo images tr [])
    as [(ids & Hids & ->) | (i & image & ids & error & _ & _ & ->)]; [| discriminate].
  rewrite run_bind, run_await.
  match goal with
  | |- context [world value ?past ?c] => destruct (world value past c) as [response | e]
  end; [| discriminate].
  rewrite run_lift.
  destruct (history_id_of response) as [historyId | e] eqn:Hid; [| discriminate].
  cbn [run fst snd]. intros [= <-]. cbn [Routes.input_images Routes.history_id].
  split; [exact Hlen |]. split; [exact Hbounds |]. split; [| split].
  - rewrite <- Hlen, !List.filter_app, Huploads, uploaded_are_uploads.
    cbn [List.filter is_upload app]. rewrite app_nil_r. unfold uploaded.
    rewrite length_zip_with. lia.
  - rewrite !requests_app, Hrequests, requests_uploaded. reflexivity.
  - by eapply history_id_of_truthy.
Qed.

End CompositionReply.

Lemma submitted_composition_witness :
  let request :=
    Sample.json_request
      (VObj [("prompt", VStr "merge"); ("images", VArr [VStr "https://a/1.png";
                                                        VStr "https://a/2.png"])]) in
  outcome_of (run (Sample.world None Sample.accepted) []
                (Routes.compositions (H := Sample.imports) request))
    = Returned (Routes.mkSubmitted (VStr "h-1") 2)
  /\ length (List.filter is_upload
               (trace_of (run (Sample.world None Sample.accepted) []
                            (Routes.compositions (H := Sample.imports) request)))) = 2%nat.
Proof.
  cbv zeta. split; [reflexivity |].
  exact (proj1 (proj2 (proj2
           (submitted_composition_counts_its_images (H := Sample.imports)
              (Sample.world None Sample.accepted)
              (Sample.json_request
                 (VObj [("prompt", VStr "merge");
                        ("images", VArr [VStr "https://a/1.png"; VStr "https://a/2.png"])]))
              (Routes.mkSubmitted (VStr "h-1") 2) eq_refl)))).
Defined.

(** ** The video route *)

Section VideoRoute.
Context `{Imports}.

Lemma validDurations_spec (n : Z) :
  existsb (Z.eqb n) Routes.validDurations = true <-> In n Routes.validDurations.
Proof.
  rewrite existsb_exists. split.
  - intros (m & Hm & Heq). apply Z.eqb_eq in Heq. by subst.
  - intros Hn. exists n. split; [exact Hn | apply Z.eqb_refl].
Qed.

(** X25. The video route goes on only with a duration that is missing, or
    one of 4, 5, 8, 10 and 12 given as a number, or, in a multipart request,
    a string that [parseInt] reads as one of them.  Every other request is
    refused as invalid before any call is made. *)
Theorem video_route_accepts_five_durations (world : env) (request : Routes.http_request) :
  let isMultiPart :=
    Str.startsWith (Routes.content_type request) "multipart/form-data" in
  let duration := Js.get_prop (Routes.body request) "duration" in
  (exists key, run world [] (Routes.videos request) = ([], Raised (invalid_params key)))
  \/ duration = VUndefined
  \/ (exists n, duration = VNum n /\ In n Routes.validDurations)
  \/ (exists s n, isMultiPart = true /\ duration = VStr s
                  /\ parseInt s = Some n /\ In n Routes.validDurations).
Proof.
  cbv zeta. unfold Routes.videos. rewrite run_bind, run_lift.
  unfold Routes.validate_video, Routes.validate.
  destruct (Routes.optional Routes.isString (Js.get_prop (Routes.body request) "model"));
    cbn [mbind outcome_bind]; [| by left; eexists].
  destruct (Routes.isString (Js.get_prop (Routes.body request) "prompt"));
    cbn [mbind outcome_bind]; [| by left; eexists].
  destruct (Routes.optional Routes.isString (Js.get_prop (Routes.body request) "ratio"));
    cbn [mbind outcome_bind]; [| by left; eexists].
  destruct (Routes.optional Routes.isString
              (Js.get_prop (Routes.body request) "resolution"));
    cbn [mbind outcome_bind]; [| by left; eexists].
  destruct (Routes.valid_duration _ _) eqn:Hduration; cbn [mbind outcome_bind];
    [| by left; eexists].
  right. unfold Routes.valid_duration in Hduration.
  destruct (Js.get_prop (Routes.body request) "duration") as [| | | n | s | |];
    try discriminate.
  - by left.
  - right; left. exists n. split; [reflexivity |]. by apply validDurations_spec.
  - right; right.
    destruct (Str.startsWith _ _); [| discriminate].
    destruct (parseInt s) as [n |] eqn:Hparse; [| discriminate].
    exists s, n. split; [reflexivity |]. split; [reflexivity |].
    split; [exact Hparse | by apply validDurations_spec].
Qed.

(** X26. When the body has a non-empty [filePaths], the video route never
    looks into [file_paths] beyond its validation: two requests that agree
    on everything else the route reads behave alike. *)
Theorem camel_case_file_paths_win (world : env) (one other : Routes.http_request) :
  Routes.content_type one = Routes.content_type other ->
  Routes.authorization one = Routes.authorization other ->
  Routes.files one = Routes.files other ->
  Forall (fun key => Js.get_prop (Routes.body one) key = Js.get_prop (Routes.body other) key)
    ["model"; "prompt"; "ratio"; "resolution"; "duration"; "filePaths"] ->
  Routes.at_most_two (Js.get_prop (Routes.body one) "file_paths") = true ->
  Routes.at_most_two (Js.get_prop (Routes.body other) "file_paths") = true ->
  (0 < length (Routes.items_of (Js.get_prop (Routes.body one) "filePaths")))%nat ->
  run world [] (Routes.videos one) = run world [] (Routes.videos other).
Proof.
  intros Htype Hauth Hfiles Hkeys Hone Hother Hcamel.
  repeat match goal with
  | Hkeys : Forall _ (_ :: _) |- _ =>
      let Hkey := fresh "Hkey" in
      apply Forall_cons_1 in Hkeys as [Hkey Hkeys]
  end.
  f_equal. unfold Routes.videos, Routes.validate_video.
  rewrite Htype, Hauth, Hfiles, Hone, Hother.
  rewrite Hkey, Hkey0, Hkey1, Hkey2, Hkey3, Hkey4 in *.
  apply Nat.ltb_lt in Hcamel. rewrite Hcamel. reflexivity.
Qed.

End VideoRoute.

Lemma camel_case_file_paths_witness :
  let body (path : string) :=
    VObj [("prompt", VStr "a cat"); ("filePaths", VArr [VStr "https://a/first.png"]);
          ("file_paths", VArr [VStr path])] in
  run (Sample.world None Sample.accepted) []
    (Routes.videos (H := Sample.imports) (Sample.json_request (body "https://a/one.png")))
  = run (Sample.world None Sample.accepted) []
      (Routes.videos (H := Sample.imports) (Sample.json_request (body "https://a/two.png"))).
Proof.
  cbv zeta.
  apply (camel_case_file_paths_win (H := Sample.imports) (Sample.world None Sample.accepted)
           (Sample.json_request
              (VObj [("prompt", VStr "a cat");
                     ("filePaths", VArr [VStr "https://a/first.png"]);
                     ("file_paths", VArr [VStr "https://a/one.png"])]))
           (Sample.json_request
              (VObj [("prompt", VStr "a cat");
                     ("filePaths", VArr [VStr "https://a/first.png"]);
                     ("file_paths", VArr [VStr "https://a/two.png"])])));
    try reflexivity.
  - repeat constructor.
  - vm_compute. lia.
Defined.

(** ** Sample status queries *)

Lemma video_status_completed_witness :
  let record :=
    VObj [("status", VNum 50);
          ("item_list",
           VArr [VObj [("video", VObj [("play_url", VStr "https://a/v.mp4")])]])] in
  let st :=
    Controller.mkVideoTaskStatus "completed" (VNum 50) (VNum 0) (VStr "https://a/v.mp4")
      (VNum 0) record in
  outcome_of (run (Sample.world None (VObj [("h-1", record)])) []
                (Controller.queryVideoTaskStatus (H := Sample.imports) "h-1" "token"))
    = Returned st
  /\ (Controller.status st = "completed" <-> Js.truthy (Controller.videoUrl st) = true).
Proof.
  cbv zeta. split; [reflexivity |].
  exact (proj1 (proj2
           (video_status_is_completed_exactly_with_a_url (H := Sample.imports)
              (Sample.world None
                 (VObj [("h-1",
                         VObj [("status", VNum 50);
                               ("item_list",
                                VArr [VObj [("video",
                                             VObj [("play_url",
                                                    VStr "https://a/v.mp4")])]])])]))
              "h-1" "token"
              (VObj [("h-1",
                      VObj [("status", VNum 50);
                            ("item_list",
                             VArr [VObj [("video",
                                          VObj [("play_url", VStr "https://a/v.mp4")])]])])])
              (Controller.mkVideoTaskStatus "completed" (VNum 50) (VNum 0)
                 (VStr "https://a/v.mp4") (VNum 0)
                 (VObj [("status", VNum 50);
                        ("item_list",
                         VArr [VObj [("video",
                                      VObj [("play_url", VStr "https://a/v.mp4")])]])]))
              eq_refl eq_refl eq_refl))).
Defined.

Lemma image_status_results_witness :
  let record :=
    VObj [("status", VNum 50); ("fail_code", VNum 0);
          ("item_list",
           VArr [VObj [("image",
                        VObj [("large_images",
                               VArr [VObj [("image_url",
                                            VStr "https://a/1.png?x=1&y=2")]])])];
                 VObj [("image", VObj [])]])] in
  let st :=
    Controller.mkImageTaskStatus "h-1" "image" (VNum 50) (VNum 0) (VNum 2)
      (Some ["https://a/1.png?x=1&y=2"]) record in
  outcome_of (run (Sample.world None (VObj [("h-1", record)])) []
                (Controller.queryImageTaskStatus (H := Sample.imports) "h-1" "token"))
    = Returned st
  /\ Controller.its_status st = VNum 50.
Proof.
  cbv zeta. split; [reflexivity |].
  exact (proj1 (proj2 (proj2 (proj2
           (image_status_results_are_null_or_clean_urls (H := Sample.imports)
              (Sample.world None
                 (VObj [("h-1",
                         VObj [("status", VNum 50); ("fail_code", VNum 0);
                               ("item_list",
                                VArr [VObj [("image",
                                             VObj [("large_images",
                                                    VArr [VObj [("image_url",
                                                                 VStr "https://a/1.png?x=1&y=2")]])])];
                                      VObj [("image", VObj [])]])])]))
              "h-1" "token"
              (VObj [("h-1",
                      VObj [("status", VNum 50); ("fail_code", VNum 0);
                            ("item_list",
                             VArr [VObj [("image",
                                          VObj [("large_images",
                                                 VArr [VObj [("image_url",
                                                              VStr "https://a/1.png?x=1&y=2")]])])];
                                   VObj [("image", VObj [])]])])])
              (Controller.mkImageTaskStatus "h-1" "image" (VNum 50) (VNum 0) (VNum 2)
                 (Some ["https://a/1.png?x=1&y=2"])
                 (VObj [("status", VNum 50); ("fail_code", VNum 0);
                        ("item_list",
                         VArr [VObj [("image",
                                      VObj [("large_images",
                                             VArr [VObj [("image_url",
                                                          VStr "https://a/1.png?x=1&y=2")]])])];
                               VObj [("image", VObj [])]])]))
              eq_refl eq_refl))))).
Defined.

(** ** The CDN pattern of the video status query *)

Lemma cdn_tail_is_a_prefix (s : string) : exists post, s = Pattern.url_tail s +:+ post.
Proof.
  induction s as [| c s [post Hpost]]; [by exists "" |].
  cbn [Pattern.url_tail].
  destruct (_ || _).
  - by exists (String c s).
  - exists post. change (String c s = String c (Pattern.url_tail s +:+ post)).
    by rewrite <- Hpost.
Qed.

Lemma cdn_tail_has_no_quote (s : string) :
  ~ In Str.dquote (list_ascii_of_string (Pattern.url_tail s)).
Proof.
  induction s as [| c s IH]; [intros [] |].
  cbn [Pattern.url_tail].
  destruct (Ascii.eqb c Str.dquote) eqn:Hq; [intros [] |].
  cbn [orb]. destruct (0 <? Pattern.space_width (String c s))%nat; [intros [] |].
  intros [-> | Hin]; [| by apply IH].
  by rewrite Ascii.eqb_refl in Hq.
Qed.

Lemma cdn_match_here (s url : string) :
  Pattern.match_here s = Some url ->
  (exists post, s = url +:+ post)
  /\ String.prefix "https://v" url = true
  /\ Str.occurs "-artist.vlabvod.com/" url
  /\ ~ In Str.dquote (list_ascii_of_string url).
Proof.
  unfold Pattern.match_here.
  destruct (Str.strip_prefix "https://v" s) as [r1 |] eqn:Hr1; [| discriminate].
  cbn [mbind option_bind].
  destruct (digits_spec r1) as [Hdigits [Hclean _]%Forall_and].
  destruct (Pattern.digits r1) as [d r2]. cbn [fst snd] in *.
  destruct (String.eqb d ""); [discriminate |].
  destruct (Str.strip_prefix "-artist.vlabvod.com/" r2) as [r3 |] eqn:Hr3; [| discriminate].
  cbn [mbind option_bind].
  destruct (String.eqb (Pattern.url_tail r3) ""); [discriminate |].
  intros [= <-]. apply strip_prefix_app in Hr1, Hr3.
  destruct (cdn_tail_is_a_prefix r3) as [post Hpost].
  split; [| split; [| split]].
  - exists post. rewrite Hr1, Hdigits, Hr3.
    rewrite !string_app_assoc. by rewrite <- Hpost.
  - apply prefix_true_app. eauto.
  - exists ("https://v" +:+ d), (Pattern.url_tail r3). by rewrite !string_app_assoc.
  - rewrite !list_ascii_app, !in_app_iff. intros [Hin | [Hin | [Hin | Hin]]].
    + vm_compute in Hin. intuition discriminate.
    + rewrite List.Forall_forall in Hclean. by apply (Hclean _ Hin).
    + vm_compute in Hin. intuition discriminate.
    + by apply cdn_tail_has_no_quote in Hin.
Qed.

(** X27. The URL that the CDN pattern of [queryVideoTaskStatus] finds in the
    serialised response is a piece of that text: it starts with https://v,
    names the host artist.vlabvod.com after the dash, and holds no double
    quote, so it never runs past the end of a JSON string. *)
Theorem cdn_url_is_a_piece_of_the_response (responseStr url : string) :
  Pattern.search responseStr = Some url ->
  Str.occurs url responseStr
  /\ String.prefix "https://v" url = true
  /\ Str.occurs "-artist.vlabvod.com/" url
  /\ ~ In Str.dquote (list_ascii_of_string url).
Proof.
  induction responseStr as [| c s IH]; cbn [Pattern.search].
  - destruct (Pattern.match_here "") as [m |] eqn:Hhere; [| discriminate].
    intros [= ->]. destruct (cdn_match_here _ _ Hhere) as ([post Hpost] & Hrest).
    split; [by exists "", post | exact Hrest].
  - destruct (Pattern.match_here (String c s)) as [m |] eqn:Hhere.
    + intros [= ->]. destruct (cdn_match_here _ _ Hhere) as ([post Hpost] & Hrest).
      split; [by exists "", post | exact Hrest].
    + intros Hurl. destruct (IH Hurl) as ((pre & post & Hs) & Hrest).
      split; [| exact Hrest]. exists (String c pre), post.
      change (String c s = String c (pre +:+ url +:+ post)). by rewrite <- Hs.
Qed.

Lemma cdn_url_witness :
  let quote := String Str.dquote "" in
  let responseStr :=
    "{url:" +:+ quote +:+ "https://v3-artist.vlabvod.com/a.mp4?x=1" +:+ quote +:+ "}" in
  Pattern.search responseStr = Some "https://v3-artist.vlabvod.com/a.mp4?x=1"
  /\ Str.occurs "https://v3-artist.vlabvod.com/a.mp4?x=1" responseStr.
Proof.
  cbv zeta. split; [reflexivity |].
  exact (proj1 (cdn_url_is_a_piece_of_the_response
                  ("{url:" +:+ String Str.dquote ""
                   +:+ "https://v3-artist.vlabvod.com/a.mp4?x=1"
                   +:+ String Str.dquote "" +:+ "}")
                  "https://v3-artist.vlabvod.com/a.mp4?x=1" eq_refl)).
Defined.
